(** * MediSync: health-intelligence scoring, chat authorisation and cache

    A shallow embedding of the scoring and detection models of the MediSync
    repository (models/healthIntelligenceModel.js,
    models/medicineRepetitionModel.js, models/enhancedHealthRiskModel.js,
    models/chatModel.js, utils/cache.js) over a relational store that
    follows the schema of the repository's SQL file.

    Conventions of the embedding:
    - SQL integers and the JavaScript numbers computed from them are [Z];
    - a table is the list of its rows, a row is a record of the columns that
      the embedded queries read;
    - [pool.query] runs in a small monad that threads the store, counts the
      queries issued and may reject any of them (a data-access fault);
    - [try { ... } catch (err) { ... }] is [try_catch];
    - [console.error] has no effect on results and is left out. *)

From Stdlib Require Import Ascii.
From stdpp Require Import base numbers list strings gmap sorting pretty.

Local Open Scope Z_scope.

(* ===================================================================== *)
(** ** Calendar dates and timestamps (PostgreSQL DATE and TIMESTAMP)      *)
(* ===================================================================== *)

Module Calendar.

Record Date := mkDate { year : Z; month : Z; day : Z }.

Record Timestamp := mkTimestamp { ts_date : Date; ts_secs : Z }.

#[global] Instance Date_eq_dec : EqDecision Date.
Proof. solve_decision. Defined.

#[global] Instance Timestamp_eq_dec : EqDecision Timestamp.
Proof. solve_decision. Defined.

Definition date_lt (a b : Date) : Prop :=
  year a < year b ∨
  (year a = year b ∧ (month a < month b ∨ (month a = month b ∧ day a < day b))).

Definition date_le (a b : Date) : Prop := a = b ∨ date_lt a b.

Definition ts_le (a b : Timestamp) : Prop :=
  date_lt (ts_date a) (ts_date b) ∨
  (ts_date a = ts_date b ∧ ts_secs a ≤ ts_secs b).

#[global] Instance date_lt_dec a b : Decision (date_lt a b).
Proof. unfold date_lt. apply _. Defined.

#[global] Instance date_le_dec a b : Decision (date_le a b).
Proof. unfold date_le. apply _. Defined.

#[global] Instance ts_le_dec a b : Decision (ts_le a b).
Proof. unfold ts_le. apply _. Defined.

(** A DATE compared with a TIMESTAMP is taken at midnight. *)
Definition at_midnight (d : Date) : Timestamp :=
  {| ts_date := d; ts_secs := 0 |}.

(** [calculated_at::DATE], [DATE(calculated_at)]. *)
Definition date_of (t : Timestamp) : Date := ts_date t.

Definition is_leap_year (y : Z) : bool :=
  ((y mod 4 =? 0) && negb (y mod 100 =? 0)) || (y mod 400 =? 0).

Definition days_in_month (y m : Z) : Z :=
  if m =? 2 then (if is_leap_year y then 29 else 28)
  else if (m =? 4) || (m =? 6) || (m =? 9) || (m =? 11) then 30
  else 31.

(** [d - INTERVAL 'n months']: the month moves back, the day of the month is
    kept and clipped to the length of the month reached. *)
Definition months_before (d : Date) (n : Z) : Date :=
  let total := year d * 12 + (month d - 1) - n in
  let y := total `div` 12 in
  let m := total `mod` 12 + 1 in
  {| year := y; month := m; day := Z.min (day d) (days_in_month y m) |}.

(** [x >= CURRENT_DATE - INTERVAL 'n months'] for a DATE column [x]. *)
Definition date_within_months (today : Date) (n : Z) (x : Date) : Prop :=
  ts_le (at_midnight (months_before today n)) (at_midnight x).

(** The same comparison for a TIMESTAMP column. *)
Definition ts_within_months (today : Date) (n : Z) (x : Timestamp) : Prop :=
  ts_le (at_midnight (months_before today n)) x.

#[global] Instance date_within_months_dec t n x :
  Decision (date_within_months t n x).
Proof. unfold date_within_months. apply _. Defined.

#[global] Instance ts_within_months_dec t n x :
  Decision (ts_within_months t n x).
Proof. unfold ts_within_months. apply _. Defined.

End Calendar.
Export Calendar.

(* ===================================================================== *)
(** ** The relational store                                               *)
(* ===================================================================== *)

Module Schema.

(** [patients]: [age INT] is nullable. *)
Record patient_row := {
  patient_id : Z;
  age : option Z
}.

Record doctor_row := { doctor_id : Z }.

Record appointment_row := {
  appointment_id : Z;
  a_patient_id : Z;
  a_doctor_id : Z
}.

(** [prescriptions]: [side_effects TEXT DEFAULT NULL] and
    [reported_allergy BOOLEAN DEFAULT FALSE] are nullable. *)
Record prescription_row := {
  pr_appointment_id : Z;
  medicine_name : string;
  dosage : string;
  created_at : Timestamp;
  side_effects : option string;
  reported_allergy : option bool
}.

Inductive severity_t := mild | moderate | severe.

(** [medicine_side_effects]: the CHECK on [severity] admits NULL. *)
Record side_effect_row := {
  mse_medicine_name : string;
  side_effect : string;
  severity : option severity_t
}.

Record disease_row := {
  dh_patient_id : Z;
  disease_name : string;
  diagnosed_date : Date
}.

(** One entry of the [factors] object built by [calculateHealthRiskScore]:
    either [{ value, description }] or the [summary] text. *)
Inductive factor_entry :=
  | Factor (value : Z) (description : string)
  | Summary (text : string).

(** A JavaScript object literal filled key by key, in insertion order. *)
Definition factors_object := list (string * factor_entry).

(** [health_risk_score]; [factors] holds the object that the code passes
    through [JSON.stringify] into the JSONB column. *)
Record risk_row := {
  r_patient_id : Z;
  risk_score : Z;
  risk_level : string;
  factors : factors_object;
  calculated_at : Timestamp
}.

(** [messages], created by [initializeChatTables]. *)
Record message_row := {
  message_id : Z;
  m_appointment_id : Z;
  sender_id : Z;
  sender_role : string;
  message : string;
  is_read : bool;
  timestamp : Timestamp
}.

Record database := {
  patients : list patient_row;
  doctors : list doctor_row;
  appointments : list appointment_row;
  prescriptions : list prescription_row;
  medicine_side_effects : list side_effect_row;
  health_risk_score : list risk_row;
  disease_history : list disease_row;
  messages : list message_row;
  messages_message_id_seq : Z
}.

(** The store with the rows of [messages] replaced and the sequence of
    [message_id SERIAL] advanced. *)
Definition with_messages (rows : list message_row) (seq : Z) (d : database)
    : database :=
  {| patients := patients d;
     doctors := doctors d;
     appointments := appointments d;
     prescriptions := prescriptions d;
     medicine_side_effects := medicine_side_effects d;
     health_risk_score := health_risk_score d;
     disease_history := disease_history d;
     messages := rows;
     messages_message_id_seq := seq |}.

#[global] Instance severity_eq_dec : EqDecision severity_t.
Proof. solve_decision. Defined.

#[global] Instance factor_entry_eq_dec : EqDecision factor_entry.
Proof. solve_decision. Defined.

#[global] Instance patient_row_eq_dec : EqDecision patient_row.
Proof. solve_decision. Defined.

#[global] Instance appointment_row_eq_dec : EqDecision appointment_row.
Proof. solve_decision. Defined.

#[global] Instance prescription_row_eq_dec : EqDecision prescription_row.
Proof. solve_decision. Defined.

#[global] Instance disease_row_eq_dec : EqDecision disease_row.
Proof. solve_decision. Defined.

#[global] Instance risk_row_eq_dec : EqDecision risk_row.
Proof. solve_decision. Defined.

#[global] Instance message_row_eq_dec : EqDecision message_row.
Proof. solve_decision. Defined.

End Schema.
Export Schema.

(* ===================================================================== *)
(** ** Relational operators used by the embedded queries                  *)
(* ===================================================================== *)

Module Sql.

Section Operators.
Context {A B K : Type} `{EqDecision K}.

(** [l JOIN r ON ka(l) = kb(r)]. *)
Definition inner_join (ka : A → K) (kb : B → K)
    (l : list A) (r : list B) : list (A * B) :=
  a ← l; (λ b, (a, b)) <$> filter (λ b, ka a = kb b) r.

(** [l LEFT JOIN r ON ka(l) = kb(r)], where [ka] may be NULL (and then
    equals nothing): a left row without a partner is kept once, with NULLs
    on the right. *)
Definition left_join (ka : A → option K) (kb : B → K)
    (l : list A) (r : list B) : list (A * option B) :=
  a ← l;
  match filter (λ b, ka a = Some (kb b)) r with
  | [] => [(a, None)]
  | bs => (λ b, (a, Some b)) <$> bs
  end.

(** [GROUP BY key]: one group per distinct key, in order of first
    appearance, holding the rows of that key. *)
Definition group_by (key : A → K) (rows : list A) : list (K * list A) :=
  (λ k, (k, filter (λ r, key r = k) rows)) <$> remove_dups (key <$> rows).

(** [COUNT( * )]. *)
Definition count_rows (rows : list A) : Z := Z.of_nat (length rows).

(** [COUNT(DISTINCT e)] over the non-NULL values of [e]. *)
Definition count_distinct (e : A → K) (rows : list A) : Z :=
  Z.of_nat (length (remove_dups (e <$> rows))).
End Operators.

(** [MIN] and [MAX] are NULL over no rows. *)
Definition sql_fold {A} (pick : A → A → A) (l : list A) : option A :=
  match l with
  | [] => None
  | x :: l' => Some (foldl pick x l')
  end.

Definition date_min (a b : Date) : Date := if decide (date_le a b) then a else b.
Definition date_max (a b : Date) : Date := if decide (date_le a b) then b else a.
Definition ts_max (a b : Timestamp) : Timestamp := if decide (ts_le a b) then b else a.
Definition ts_min (a b : Timestamp) : Timestamp := if decide (ts_le a b) then a else b.

(** [ORDER BY e DESC] on an integer expression. *)
Definition desc_by {A} (e : A → Z) : relation A := λ a b, e b ≤ e a.

#[global] Instance desc_by_dec {A} (e : A → Z) a b : Decision (desc_by e a b).
Proof. unfold desc_by. apply _. Defined.

Definition order_by_desc {A} (e : A → Z) (rows : list A) : list A :=
  merge_sort (desc_by e) rows.

End Sql.
Export Sql.

(* ===================================================================== *)
(** ** pool.query: store, clock, faults and exceptions                    *)
(* ===================================================================== *)

Module Pool.

(** What a rejected promise or a [throw] carries. *)
Inductive js_error :=
  | DataAccessFault (query_no : nat)
  | ConstraintViolation (constraint : string)
  | SyntaxError (near : string)
  | Error (msg : string).

Definition err_message (e : js_error) : string :=
  match e with
  | DataAccessFault _ => "data access fault"
  | ConstraintViolation c => c
  | SyntaxError near =>
      "syntax error at or near " +:+
      String (ascii_of_nat 34) (near +:+ String (ascii_of_nat 34) EmptyString)
  | Error m => m
  end.

Inductive completion (A : Type) :=
  | Returned (a : A)
  | Thrown (e : js_error).
Arguments Returned {A} a.
Arguments Thrown {A} e.

(** The environment of a call: the store, the clock of the database
    server, which of the queries issued so far or later are rejected, and
    how many have been issued. *)
Record world := {
  db : database;
  now : Timestamp;
  faulty : nat → bool;
  issued : nat
}.

Definition M (A : Type) : Type := world → completion A * world.

Definition ret {A} (a : A) : M A := λ w, (Returned a, w).

Definition throw {A} (e : js_error) : M A := λ w, (Thrown e, w).

Definition bind {A B} (m : M A) (k : A → M B) : M B := λ w,
  match m w with
  | (Returned a, w') => k a w'
  | (Thrown e, w') => (Thrown e, w')
  end.

Definition try_catch {A} (body : M A) (handler : js_error → M A) : M A := λ w,
  match body w with
  | (Returned a, w') => (Returned a, w')
  | (Thrown e, w') => handler e w'
  end.

(** A statement reads the store at the server's time and either fails on a
    constraint or yields its rows and the store it leaves. *)
Definition statement (A : Type) : Type :=
  database → Timestamp → completion (A * database).

Definition select {A} (q : database → Date → A) : statement A :=
  λ d t, Returned (q d (date_of t), d).

(** One more query has been issued. *)
Definition tick (w : world) : world :=
  {| db := db w; now := now w; faulty := faulty w; issued := S (issued w) |}.

Definition with_db (d : database) (w : world) : world :=
  {| db := d; now := now w; faulty := faulty w; issued := issued w |}.

Definition pool_query {A} (s : statement A) : M A := λ w,
  if faulty w (issued w) then (Thrown (DataAccessFault (issued w)), tick w)
  else match s (db w) (now w) with
       | Returned (a, d') => (Returned a, with_db d' (tick w))
       | Thrown e => (Thrown e, tick w)
       end.

(** The clock moves between two calls. *)
Definition at_time (t : Timestamp) (w : world) : world :=
  {| db := db w; now := t; faulty := faulty w; issued := issued w |}.

(** None, respectively one, of the next [n] queries is rejected. *)
Definition no_fault (w : world) (n : nat) : Prop :=
  ∀ k, (k < n)%nat → faulty w (issued w + k) = false.

Definition fault_within (w : world) (n : nat) : Prop :=
  ∃ k, (k < n)%nat ∧ faulty w (issued w + k) = true.

End Pool.
Export Pool.

Notation "'await' x ← m ; k" := (bind m (λ x, k))
  (at level 10, x name, m at level 100, k at level 200,
   format "'[v' 'await'  x  ←  m ; '/' k ']'").

(** JavaScript [a || b] on a possibly-NULL number: [null], [undefined] and
    [0] are falsy. *)
Definition js_or (a : option Z) (b : Z) : Z :=
  match a with
  | Some v => if decide (v = 0) then b else v
  | None => b
  end.

(** A value or an exception computed without the store, as a step of an
    [async] function. *)
Definition completed {A} (c : completion A) : M A := λ w, (c, w).

(** [Array.prototype.sort(compare)].  The sort is stable (ECMAScript 2019):
    elements that compare equal keep their order, which fixes the result for
    a comparator that orders by a key.  It is computed here by insertion
    from the right end. *)
Fixpoint sort_insert {A} (compare : A → A → Z) (x : A) (l : list A) : list A :=
  match l with
  | [] => [x]
  | y :: l' =>
      if decide (compare x y ≤ 0) then x :: y :: l'
      else y :: sort_insert compare x l'
  end.

Definition Array_sort {A} (compare : A → A → Z) (l : list A) : list A :=
  foldr (sort_insert compare) [] l.

(** [Math.round((n / d) * k)] for integers [n] and [0 < d], [0 < k]: the
    nearest integer to the quotient, halves rounded up.  For the two uses
    below ([d = 30, k = 10] and [d = 25, k = 8]) no quotient is a half and
    the double-precision value rounds as the exact one does. *)
Definition Math_round_ratio (n d k : Z) : Z := (2 * n * k + d) `div` (2 * d).

(* ===================================================================== *)
(** ** models/healthIntelligenceModel.js                                  *)
(* ===================================================================== *)

Module HealthIntelligence.

(** [FROM prescriptions pr JOIN appointments a
     ON pr.appointment_id = a.appointment_id WHERE a.patient_id = $1]. *)
Definition prescriptions_of (d : database) (pid : Z)
    : list (prescription_row * appointment_row) :=
  filter (λ x, a_patient_id x.2 = pid)
    (inner_join pr_appointment_id appointment_id
       (prescriptions d) (appointments d)).

(** [FROM disease_history WHERE patient_id = $1
     AND diagnosed_date >= CURRENT_DATE - INTERVAL '6 months']. *)
Definition recent_diseases (d : database) (today : Date) (pid : Z)
    : list disease_row :=
  filter (λ r, dh_patient_id r = pid ∧
               date_within_months today 6 (diagnosed_date r))
    (disease_history d).

(** *** detectDiseasePatterns *)

Record disease_frequency_row := {
  df_disease_name : string;
  frequency : Z;
  first_occurrence : option Date;
  last_occurrence : option Date
}.

Definition disease_frequency_of (g : string * list disease_row)
    : disease_frequency_row :=
  {| df_disease_name := g.1;
     frequency := count_rows g.2;
     first_occurrence := sql_fold date_min (diagnosed_date <$> g.2);
     last_occurrence := sql_fold date_max (diagnosed_date <$> g.2) |}.

(** The SELECT of [detectDiseasePatterns]: GROUP BY disease_name,
    ORDER BY frequency DESC. *)
Definition disease_patterns_query (pid : Z)
    : statement (list disease_frequency_row) :=
  select (λ d today,
    order_by_desc frequency
      (disease_frequency_of <$>
         group_by disease_name (recent_diseases d today pid))).

(** [{ ...disease, is_chronic, risk_assessment }]. *)
Record disease_pattern := {
  disease : disease_frequency_row;
  is_chronic : bool;
  risk_assessment : string
}.

Definition classify_disease (disease : disease_frequency_row)
    : disease_pattern :=
  {| disease := disease;
     is_chronic := bool_decide (3 ≤ frequency disease);
     risk_assessment :=
       if decide (3 ≤ frequency disease)
       then "Possible chronic condition - recommend specialist consultation"
       else if decide (frequency disease = 2)
       then "Recurring pattern detected - monitor closely"
       else "Single occurrence - standard monitoring" |}.

Definition detectDiseasePatterns (pid : Z) : M (list disease_pattern) :=
  try_catch
    (await rows ← pool_query (disease_patterns_query pid);
     ret (classify_disease <$> rows))
    (λ err, ret []).

Definition disease_of_pattern (p : disease_pattern) : string :=
  df_disease_name (disease p).

(** *** detectAllergyRisks *)

Record prescription_risk_row := {
  risk_medicine_name : string;
  risk_dosage : string;
  times_prescribed : Z;
  allergy_reports : Z;
  reported_side_effects : option (list string)
}.

#[global] Instance prescription_risk_row_eq_dec : EqDecision prescription_risk_row.
Proof. solve_decision. Defined.

(** [SUM(e)] over the rows of a group. *)
Definition sum_of (l : list Z) : Z := foldr Z.add 0 l.

(** [CASE WHEN pr.reported_allergy = true THEN 1 ELSE 0 END]. *)
Definition allergy_flag (x : prescription_row * appointment_row) : Z :=
  if decide (reported_allergy x.1 = Some true) then 1 else 0.

(** [ARRAY_AGG(DISTINCT pr.side_effects)
     FILTER (WHERE pr.side_effects IS NOT NULL)], NULL over no value. *)
Definition array_agg_distinct (l : list (option string))
    : option (list string) :=
  match omap id l with
  | [] => None
  | vs => Some (remove_dups vs)
  end.

Definition prescription_risk_of
    (g : (string * string) * list (prescription_row * appointment_row))
    : prescription_risk_row :=
  {| risk_medicine_name := g.1.1;
     risk_dosage := g.1.2;
     times_prescribed := count_rows g.2;
     allergy_reports := sum_of (allergy_flag <$> g.2);
     reported_side_effects :=
       array_agg_distinct ((λ x, side_effects x.1) <$> g.2) |}.

(** The first SELECT of [detectAllergyRisks]:
    GROUP BY pr.medicine_name, pr.dosage
    HAVING SUM(...) > 0 OR COUNT( * ) >= 4. *)
Definition prescription_risks_query (pid : Z)
    : statement (list prescription_risk_row) :=
  select (λ d _,
    remove_dups
      (prescription_risk_of <$>
         filter (λ g, 0 < sum_of (allergy_flag <$> g.2) ∨ 4 ≤ count_rows g.2)
           (group_by (λ x, (medicine_name x.1, dosage x.1))
              (prescriptions_of d pid)))).

Record known_side_effect_row := {
  kse_medicine_name : string;
  kse_side_effect : string;
  kse_severity : option severity_t
}.

#[global] Instance known_side_effect_row_eq_dec : EqDecision known_side_effect_row.
Proof. solve_decision. Defined.

(** Position of a [severity] text in ascending order
    ('mild' < 'moderate' < 'severe'); with DESC, NULL sorts first. *)
Definition severity_rank (s : option severity_t) : Z :=
  match s with
  | None => 3
  | Some severe => 2
  | Some moderate => 1
  | Some mild => 0
  end.

(** The second SELECT of [detectAllergyRisks]. *)
Definition known_side_effects_query (pid : Z)
    : statement (list known_side_effect_row) :=
  select (λ d _,
    order_by_desc (λ r, severity_rank (kse_severity r))
      (remove_dups
         ((λ x, {| kse_medicine_name := medicine_name x.1.1;
                   kse_side_effect := side_effect x.1.2;
                   kse_severity := severity x.1.2 |}) <$>
            filter (λ x, a_patient_id x.2 = pid)
              (inner_join (λ x, pr_appointment_id x.1) appointment_id
                 (inner_join medicine_name mse_medicine_name
                    (prescriptions d) (medicine_side_effects d))
                 (appointments d))))).

(** [{ ...risk, risk_level, action }]. *)
Record prescription_risk := {
  risk : prescription_risk_row;
  risk_level : string;
  action : string
}.

(** [{ ...effect, alert_level }]. *)
Record known_side_effect := {
  effect : known_side_effect_row;
  alert_level : string
}.

Record allergy_risks := {
  prescriptionRisks : list prescription_risk;
  knownSideEffects : list known_side_effect
}.

Definition flag_risk (risk : prescription_risk_row) : prescription_risk :=
  {| risk := risk;
     risk_level :=
       if decide (0 < allergy_reports risk) then "ALLERGY_ALERT"
       else "FREQUENCY_WARNING";
     action :=
       if decide (0 < allergy_reports risk)
       then "⚠️ ALLERGY RISK: " +:+ risk_medicine_name risk +:+ " has " +:+
            pretty (allergy_reports risk) +:+ " allergy report(s)"
       else "⚠️ HIGH FREQUENCY: " +:+ risk_medicine_name risk +:+
            " prescribed " +:+ pretty (times_prescribed risk) +:+ " times" |}.

Definition flag_effect (effect : known_side_effect_row) : known_side_effect :=
  {| effect := effect;
     alert_level :=
       match kse_severity effect with
       | Some severe => "CRITICAL"
       | Some moderate => "WARNING"
       | _ => "INFO"
       end |}.

(** The pair that the first SELECT groups by, of a joined row and of an
    entry of the result. *)
Definition dispensing (x : prescription_row * appointment_row)
    : string * string :=
  (medicine_name x.1, dosage x.1).

Definition risk_key (e : prescription_risk) : string * string :=
  (risk_medicine_name (risk e), risk_dosage (risk e)).

Definition detectAllergyRisks (pid : Z) : M allergy_risks :=
  try_catch
    (await prescriptionRisks ← pool_query (prescription_risks_query pid);
     await knownSideEffects ← pool_query (known_side_effects_query pid);
     ret {| prescriptionRisks := flag_risk <$> prescriptionRisks;
            knownSideEffects := flag_effect <$> knownSideEffects |})
    (λ err, ret {| prescriptionRisks := []; knownSideEffects := [] |}).

(** *** calculateHealthRiskScore *)

(** [SELECT age FROM patients WHERE patient_id = $1]. *)
Definition patient_age_query (pid : Z) : statement (list (option Z)) :=
  select (λ d _, age <$> filter (λ p, patient_id p = pid) (patients d)).

Record medicine_freq_row := {
  total_prescriptions : Z;
  unique_medicines : Z
}.

(** Prescriptions of the last 2 months; an aggregate without GROUP BY
    yields exactly one row. *)
Definition medicine_freq_query (pid : Z) : statement (list medicine_freq_row) :=
  select (λ d today,
    let rows := filter (λ x, ts_within_months today 2 (created_at x.1))
                  (prescriptions_of d pid) in
    [ {| total_prescriptions := count_rows rows;
         unique_medicines := count_distinct (λ x, medicine_name x.1) rows |} ]).

Record disease_freq_row := {
  total_diseases : Z;
  unique_diseases : Z;
  max_single_disease : Z
}.

(** Diseases of the last 6 months, with
    [COALESCE((SELECT MAX(disease_count) FROM (... GROUP BY disease_name)), 0)]. *)
Definition disease_freq_query (pid : Z) : statement (list disease_freq_row) :=
  select (λ d today,
    let rows := recent_diseases d today pid in
    [ {| total_diseases := count_rows rows;
         unique_diseases := count_distinct disease_name rows;
         max_single_disease :=
           default 0 (sql_fold Z.max
                        ((λ g, count_rows g.2) <$> group_by disease_name rows)) |} ]).

Record allergy_count_row := { allergy_incidents : Z }.

Definition allergy_count_query (pid : Z) : statement (list allergy_count_row) :=
  select (λ d _,
    [ {| allergy_incidents :=
           count_rows (filter (λ x, reported_allergy x.1 = Some true)
                         (prescriptions_of d pid)) |} ]).

(** [INSERT INTO health_risk_score (patient_id, risk_score, risk_level,
    factors) VALUES ($1, $2, $3, $4) ON CONFLICT (patient_id,
    calculated_at::DATE) DO UPDATE SET risk_score = $2, risk_level = $3,
    factors = $4].  A conflict target is a list of column names and of
    expressions in parentheses; the cast [calculated_at::DATE] is neither,
    so the server rejects the statement when it parses it (syntax error,
    SQLSTATE 42601), whatever the parameters and the rows of the table: no
    row is inserted or updated.  (The unique index of the schema,
    [idx_health_risk_per_day], is on [(patient_id, DATE(calculated_at))].) *)
Definition upsert_health_risk_score
    (pid score : Z) (lvl : string) (fs : factors_object) : statement () :=
  λ d t, Thrown (SyntaxError "::").

(** [Math.min(15, Math.floor((age / 80) * 15))].  On every integer
    [age >= 0] the double-precision value has the floor of the exact
    quotient, which [`div`] computes; for some negative ages (the first is
    -1328) the double-precision product lies just below the exact integer
    quotient and its floor is one less. *)
Definition ageFactor (age : Z) : Z := Z.min 15 ((age * 15) `div` 80).

(** [Math.min(30, Math.floor((totalPrescriptions / 10) * 30))]. *)
Definition medicineFactor (totalPrescriptions : Z) : Z :=
  Z.min 30 ((totalPrescriptions * 30) `div` 10).

(** [Math.min(25, Math.floor((totalDiseases / 8) * 25))]. *)
Definition diseaseFactor (totalDiseases : Z) : Z :=
  Z.min 25 ((totalDiseases * 25) `div` 8).

(** [Math.min(20, allergyIncidents * 5)]. *)
Definition allergyFactor (allergyIncidents : Z) : Z :=
  Z.min 20 (allergyIncidents * 5).

(** The chain of [if (finalScore >= ...)] that sets [riskLevel] and
    [riskDescription], starting from ['low'] and the "good condition"
    text. *)
Definition determineRiskLevel (finalScore : Z) : string * string :=
  if decide (80 ≤ finalScore) then
    ("critical", "🔴 CRITICAL: Immediate medical attention recommended")
  else if decide (60 ≤ finalScore) then
    ("high", "🟡 HIGH RISK: Schedule specialist consultation")
  else if decide (40 ≤ finalScore) then
    ("moderate", "🟠 MODERATE: Monitor health patterns closely")
  else if decide (20 ≤ finalScore) then
    ("low", "🟢 LOW RISK: Continue regular check-ups")
  else
    ("low", "✅ Your health is in good condition").

Record breakdown_t := {
  age_factor : Z;
  medicine_factor : Z;
  disease_factor : Z;
  allergy_factor : Z;
  chronic_bonus : Z
}.

(** What [calculateHealthRiskScore] returns; the object of the [catch]
    branch has no [breakdown]. *)
Record risk_score_result := {
  score : Z;
  level : string;
  description : string;
  factors : factors_object;
  breakdown : option breakdown_t
}.

(** [factors.chronic_condition ? ... : ...]. *)
Definition has_key (k : string) (o : factors_object) : bool :=
  bool_decide (k ∈ o.*1).

Definition unable_to_calculate : risk_score_result :=
  {| score := 0;
     level := "unknown";
     description := "Unable to calculate risk score";
     factors := [];
     breakdown := None |}.

Definition calculateHealthRiskScore (pid : Z) : M risk_score_result :=
  try_catch
    (await patientData ← pool_query (patient_age_query pid);
     let age := js_or (head patientData ≫= id) 30 in
     await medicineFreq ← pool_query (medicine_freq_query pid);
     await diseaseFreq ← pool_query (disease_freq_query pid);
     await allergyCount ← pool_query (allergy_count_query pid);
     let score := 0 in
     let factors := [] in
     (* Factor 1: age *)
     let ageFactor := ageFactor age in
     let score := score + ageFactor in
     let factors := factors ++
       [("age_factor",
         Factor ageFactor
           ("Age (" +:+ pretty age +:+ " years): +" +:+ pretty ageFactor))] in
     (* Factor 2: medicine repetition *)
     let totalPrescriptions :=
       js_or (total_prescriptions <$> head medicineFreq) 0 in
     let uniqueMedicines := js_or (unique_medicines <$> head medicineFreq) 0 in
     let medicineFactor := medicineFactor totalPrescriptions in
     let score := score + medicineFactor in
     let factors := factors ++
       [("medicine_factor",
         Factor medicineFactor
           ("High medicine usage (" +:+ pretty totalPrescriptions +:+
            " prescriptions): +" +:+ pretty medicineFactor))] in
     (* Factor 3: disease repetition *)
     let totalDiseases := js_or (total_diseases <$> head diseaseFreq) 0 in
     let maxSingleDisease :=
       js_or (max_single_disease <$> head diseaseFreq) 0 in
     let diseaseFactor := diseaseFactor totalDiseases in
     let score := score + diseaseFactor in
     let score := if decide (3 ≤ maxSingleDisease) then score + 10 else score in
     let factors :=
       if decide (3 ≤ maxSingleDisease)
       then factors ++
              [("chronic_condition", Factor 10 "Chronic disease detected: +10")]
       else factors in
     let factors := factors ++
       [("disease_factor",
         Factor diseaseFactor
           ("Disease frequency (" +:+ pretty totalDiseases +:+
            " diagnosed): +" +:+ pretty diseaseFactor))] in
     (* Factor 4: allergy / side effects *)
     let allergyIncidents :=
       js_or (allergy_incidents <$> head allergyCount) 0 in
     let allergyFactor := allergyFactor allergyIncidents in
     let score := score + allergyFactor in
     let factors := factors ++
       [("allergy_factor",
         Factor allergyFactor
           ("Allergy incidents (" +:+ pretty allergyIncidents +:+ "): +" +:+
            pretty allergyFactor))] in
     (* Final score cap at 100 *)
     let finalScore := Z.min 100 score in
     let riskLevel := (determineRiskLevel finalScore).1 in
     let riskDescription := (determineRiskLevel finalScore).2 in
     let factors := factors ++ [("summary", Summary riskDescription)] in
     await saved ← pool_query
       (upsert_health_risk_score pid finalScore riskLevel factors);
     ret {| score := finalScore;
            level := riskLevel;
            description := riskDescription;
            factors := factors;
            breakdown := Some
              {| age_factor := ageFactor;
                 medicine_factor := medicineFactor;
                 disease_factor := diseaseFactor;
                 allergy_factor := allergyFactor;
                 chronic_bonus :=
                   if has_key "chronic_condition" factors then 10 else 0 |} |})
    (λ err, ret unable_to_calculate).

(** *** Vocabulary of the statements about [health_risk_score] *)

(** The persisted rows of a patient for a calendar day. *)
Definition rows_of_day (pid : Z) (day : Date) (rows : list risk_row)
    : list risk_row :=
  filter (λ r, r_patient_id r = pid ∧ date_of (Schema.calculated_at r) = day)
    rows.

(** What the foreign key of [health_risk_score.patient_id] enforces. *)
Definition scores_reference_patients (d : database) : Prop :=
  ∀ r, r ∈ health_risk_score d → r_patient_id r ∈ patient_id <$> patients d.

End HealthIntelligence.

(* ===================================================================== *)
(** ** models/medicineRepetitionModel.js                                  *)
(* ===================================================================== *)

Module MedicineRepetition.

(** [FROM prescriptions p
     LEFT JOIN appointments a ON p.appointment_id = a.appointment_id
     WHERE a.patient_id = $1]. *)
Definition prescriptions_with_appointment (d : database) (pid : Z)
    : list (prescription_row * option appointment_row) :=
  filter (λ x, a_patient_id <$> x.2 = Some pid)
    (left_join (λ p, Some (pr_appointment_id p)) appointment_id
       (prescriptions d) (appointments d)).

(** A row of prescriptions LEFT JOIN appointments LEFT JOIN
    disease_history. *)
Definition joined_row : Type :=
  (prescription_row * option appointment_row) * option disease_row.

(** The FROM and WHERE of [detectMedicineRepetition]: the rows above, each
    further joined with
    [LEFT JOIN disease_history d ON a.patient_id = d.patient_id]. *)
Definition prescriptions_with_diseases (d : database) (pid : Z)
    : list joined_row :=
  filter (λ x : joined_row, a_patient_id <$> x.1.2 = Some pid)
    (left_join (λ x, a_patient_id <$> x.2) dh_patient_id
       (left_join (λ p, Some (pr_appointment_id p)) appointment_id
          (prescriptions d) (appointments d))
       (disease_history d)).

(** The order of two [text] values.  The server compares them under the
    collation of the database; the model takes the order of the character
    codes (the collation C). *)
Definition text_le : relation string := λ a b, String.leb a b = true.

#[global] Instance text_le_dec a b : Decision (text_le a b).
Proof. unfold text_le. apply _. Defined.

(** [STRING_AGG(DISTINCT e, sep)] over the non-NULL values, NULL over none.
    The server sorts the values to find the distinct ones and aggregates
    them in that order. *)
Definition string_agg_distinct (sep : string) (l : list (option string))
    : option string :=
  match merge_sort text_le (remove_dups (omap id l)) with
  | [] => None
  | v :: vs => Some (foldl (λ acc x, acc +:+ sep +:+ x) v vs)
  end.

Record repetition_row := {
  row_medicine_name : string;
  row_prescription_count : Z;
  row_associated_diseases : option string;
  row_last_prescribed : option Timestamp
}.

Definition repetition_of (g : string * list joined_row) : repetition_row :=
  {| row_medicine_name := g.1;
     row_prescription_count := count_rows g.2;
     row_associated_diseases :=
       string_agg_distinct ", "
         ((λ x : joined_row, disease_name <$> x.2) <$> g.2);
     row_last_prescribed :=
       sql_fold ts_max ((λ x : joined_row, created_at x.1.1) <$> g.2) |}.

(** GROUP BY p.medicine_name HAVING COUNT( * ) > 2
    ORDER BY prescription_count DESC. *)
Definition medicine_repetition_query (pid : Z) : statement (list repetition_row) :=
  select (λ d _,
    order_by_desc row_prescription_count
      (repetition_of <$>
         filter (λ g, 2 < count_rows g.2)
           (group_by (λ x : joined_row, medicine_name x.1.1)
              (prescriptions_with_diseases d pid)))).

Record medicine_repetition := {
  medicine_name : string;
  prescription_count : Z;
  associated_diseases : option string;
  last_prescribed : option Timestamp;
  risk_level : string;
  warning : string
}.

(** The body of [result.rows.map(medicine => ...)]; the driver hands
    [COUNT( * )] over as decimal text, which [parseInt], [>] and the
    template literal read back as the same integer. *)
Definition describe_repetition (medicine : repetition_row) : medicine_repetition :=
  {| medicine_name := row_medicine_name medicine;
     prescription_count := row_prescription_count medicine;
     associated_diseases := row_associated_diseases medicine;
     last_prescribed := row_last_prescribed medicine;
     risk_level :=
       if decide (4 < row_prescription_count medicine) then "high"
       else "moderate";
     warning :=
       if decide (4 < row_prescription_count medicine)
       then row_medicine_name medicine +:+ " prescribed " +:+
            pretty (row_prescription_count medicine) +:+
            " times – risk of dependency."
       else row_medicine_name medicine +:+ " prescribed " +:+
            pretty (row_prescription_count medicine) +:+
            " times – monitor usage." |}.

Definition detectMedicineRepetition (patientId : Z) : M (list medicine_repetition) :=
  try_catch
    (await result ← pool_query (medicine_repetition_query patientId);
     ret (describe_repetition <$> result))
    (λ err, ret []).

Record usage_stats := {
  total_unique_medicines : Z;
  total_prescriptions : Z;
  latest_prescription : option Timestamp;
  first_prescription : option Timestamp
}.

Definition no_usage : usage_stats :=
  {| total_unique_medicines := 0;
     total_prescriptions := 0;
     latest_prescription := None;
     first_prescription := None |}.

Definition medicine_usage_query (pid : Z) : statement (list usage_stats) :=
  select (λ d _,
    let rows := prescriptions_with_appointment d pid in
    [ {| total_unique_medicines :=
           count_distinct (λ x, Schema.medicine_name x.1) rows;
         total_prescriptions := count_rows rows;
         latest_prescription := sql_fold ts_max ((λ x, created_at x.1) <$> rows);
         first_prescription := sql_fold ts_min ((λ x, created_at x.1) <$> rows) |} ]).

Definition getMedicineUsageStats (patientId : Z) : M usage_stats :=
  try_catch
    (await result ← pool_query (medicine_usage_query patientId);
     ret (default no_usage (head result)))
    (λ err, ret no_usage).

(** *** getMedicineDependencyWarnings *)

Record dependency_warnings := {
  total_repeated_medicines : Z;
  high_risk_count : Z;
  warnings : list medicine_repetition;
  recommendation : string
}.

Definition getMedicineDependencyWarnings (patientId : Z) : M dependency_warnings :=
  try_catch
    (await repetitions ← detectMedicineRepetition patientId;
     let warnings := filter (λ m, risk_level m = "high") repetitions in
     ret {| total_repeated_medicines := Z.of_nat (length repetitions);
            high_risk_count := Z.of_nat (length warnings);
            warnings := warnings;
            recommendation :=
              if decide (0 < length warnings)%nat
              then "Consult doctor about medicine dependency risks"
              else "No high-risk medicine dependencies detected" |})
    (λ err, ret {| total_repeated_medicines := 0;
                   high_risk_count := 0;
                   warnings := [];
                   recommendation := "Unable to assess" |}).

End MedicineRepetition.

(* ===================================================================== *)
(** ** models/enhancedHealthRiskModel.js                                  *)
(* ===================================================================== *)

Module EnhancedHealthRisk.

Import MedicineRepetition.

Record factor := {
  name : string;
  value : Z;
  points : Z;
  description : string
}.

(** The fields that only the complete computation returns. *)
Record details_t := {
  calculated_at : Timestamp;
  age : Z;
  doctor_count : Z;
  total_prescriptions : Z;
  repeated_diseases : Z;
  high_risk_medicines : Z
}.

(** [{ score, level, factors }], with the further fields of the complete
    computation or the [error] text of the [catch] branch. *)
Record enhanced_result := {
  score : Z;
  level : string;
  factors : list factor;
  details : option details_t;
  error : option string
}.

(** [SELECT disease_name, COUNT( * ) FROM disease_history
     WHERE patient_id = $1 GROUP BY disease_name HAVING COUNT( * ) >= 3]. *)
Definition repeated_diseases_query (pid : Z) : statement (list (string * Z)) :=
  select (λ d _,
    (λ g, (g.1, count_rows g.2)) <$>
      filter (λ g, 3 ≤ count_rows g.2)
        (group_by disease_name
           (filter (λ r, dh_patient_id r = pid) (disease_history d)))).

(** [SELECT COUNT(DISTINCT doctor_id) FROM appointments
     WHERE patient_id = $1]. *)
Definition doctor_count_query (pid : Z) : statement (list Z) :=
  select (λ d _,
    [ count_distinct a_doctor_id
        (filter (λ a, a_patient_id a = pid) (appointments d)) ]).

(** [new Date()]: the clock of the application, read as the clock of the
    database server. *)
Definition new_Date : M Timestamp := λ w, (Returned (now w), w).

(** The chain [if (score >= 75) ... else if (score >= 50) ...]. *)
Definition determineLevel (score : Z) : string :=
  if decide (75 ≤ score) then "critical"
  else if decide (50 ≤ score) then "high"
  else if decide (25 ≤ score) then "moderate"
  else "low".

Definition calculateEnhancedHealthRiskScore (patientId : Z) : M enhanced_result :=
  try_catch
    (let score := 0 in
     let factors := [] in
     await patientRes ← pool_query (HealthIntelligence.patient_age_query patientId);
     if decide (length patientRes = 0%nat) then
       ret {| score := 0; level := "unknown"; factors := [];
              details := None; error := None |}
     else
     let age := js_or (head patientRes ≫= id) 0 in
     (* Factor 1: Age > 50 *)
     let score := if decide (50 < age) then score + 10 else score in
     let factors :=
       if decide (50 < age)
       then factors ++
         [ {| name := "Age Factor"; value := age; points := 10;
              description := "Age " +:+ pretty age +:+
                             " exceeds threshold of 50" |} ]
       else factors in
     (* Factor 2: Repeated diseases *)
     await diseaseRes ← pool_query (repeated_diseases_query patientId);
     let repeatedDiseases := Z.of_nat (length diseaseRes) in
     let score := if decide (0 < repeatedDiseases) then score + 20 else score in
     let factors :=
       if decide (0 < repeatedDiseases)
       then factors ++
         [ {| name := "Repeated Diseases"; value := repeatedDiseases;
              points := 20;
              description := pretty repeatedDiseases +:+
                             " disease(s) diagnosed multiple times" |} ]
       else factors in
     (* Factor 3: Repeated medicines *)
     await medicines ← detectMedicineRepetition patientId;
     let highRiskMedicines := filter (λ m, 4 < prescription_count m) medicines in
     let score :=
       if decide (0 < length highRiskMedicines)%nat then score + 20 else score in
     let factors :=
       if decide (0 < length highRiskMedicines)%nat
       then factors ++
         [ {| name := "Repeated Medicines";
              value := Z.of_nat (length highRiskMedicines);
              points := 20;
              description := pretty (Z.of_nat (length highRiskMedicines)) +:+
                             " medicine(s) prescribed > 4 times" |} ]
       else factors in
     (* Factor 4: Multiple doctors *)
     await doctorsRes ← pool_query (doctor_count_query patientId);
     let doctorCount := js_or (head doctorsRes) 0 in
     let score := if decide (2 < doctorCount) then score + 10 else score in
     let factors :=
       if decide (2 < doctorCount)
       then factors ++
         [ {| name := "Multiple Doctors"; value := doctorCount; points := 10;
              description := "Patient seeing " +:+ pretty doctorCount +:+
                             " different doctors" |} ]
       else factors in
     (* Factor 5: Chronic conditions *)
     let score := if decide (2 < repeatedDiseases) then score + 15 else score in
     let factors :=
       if decide (2 < repeatedDiseases)
       then factors ++
         [ {| name := "Chronic Conditions"; value := repeatedDiseases;
              points := 15;
              description := "Multiple chronic conditions detected" |} ]
       else factors in
     (* Factor 6: Medicine usage *)
     await medicineStats ← getMedicineUsageStats patientId;
     let score :=
       if decide (10 < MedicineRepetition.total_prescriptions medicineStats)
       then score + 15 else score in
     let factors :=
       if decide (10 < MedicineRepetition.total_prescriptions medicineStats)
       then factors ++
         [ {| name := "High Medicine Usage";
              value := MedicineRepetition.total_prescriptions medicineStats;
              points := 15;
              description :=
                pretty (MedicineRepetition.total_prescriptions medicineStats)
                +:+ " total prescriptions" |} ]
       else factors in
     (* Cap score at 100 *)
     let score := Z.min score 100 in
     let level := determineLevel score in
     await calculated_at ← new_Date;
     ret {| score := score;
            level := level;
            factors := factors;
            details := Some
              {| calculated_at := calculated_at;
                 age := age;
                 doctor_count := doctorCount;
                 total_prescriptions :=
                   MedicineRepetition.total_prescriptions medicineStats;
                 repeated_diseases := repeatedDiseases;
                 high_risk_medicines := Z.of_nat (length highRiskMedicines) |};
            error := None |})
    (λ err, ret {| score := 0; level := "unknown"; factors := [];
                   details := None; error := Some (err_message err) |}).

(** *** getRiskLevelColor *)

Definition colors : gmap string string :=
  list_to_map [ ("low", "#28a745"); ("moderate", "#ffc107");
                ("high", "#fd7e14"); ("critical", "#dc3545") ].

(** [colors[level] || '#6c757d'], on the keys of [colors] itself (a level
    that names a property every object inherits, such as "constructor", is
    none the scorer produces). *)
Definition getRiskLevelColor (level : string) : string :=
  default "#6c757d" (colors !! level).

(** *** getRiskRecommendations *)

Definition getRiskRecommendations (score : Z) (factors : list factor)
    : list string :=
  let recommendations := [] in
  let recommendations :=
    if decide (score = 0)
    then recommendations ++ ["Continue maintaining good health practices"]
    else recommendations in
  let recommendations :=
    if decide (25 ≤ score)
    then recommendations ++ ["Schedule regular health checkups"]
    else recommendations in
  let recommendations :=
    if decide (50 ≤ score)
    then recommendations ++
           [ "Consider comprehensive health evaluation";
             "Review current medications with doctor";
             "Increase frequency of medical visits" ]
    else recommendations in
  let recommendations :=
    if decide (75 ≤ score)
    then recommendations ++
           [ "⚠️ Urgent health intervention needed";
             "Schedule immediate consultation with specialist";
             "Consider hospitalization/detailed testing" ]
    else recommendations in
  (* Age-specific recommendations *)
  let ageFactors := filter (λ f, name f = "Age Factor") factors in
  let recommendations :=
    if decide (0 < length ageFactors)%nat
    then recommendations ++
           ["Age-appropriate preventive screening recommended"]
    else recommendations in
  (* Medicine-specific recommendations *)
  let medicineFactors := filter (λ f, name f = "Repeated Medicines") factors in
  let recommendations :=
    if decide (0 < length medicineFactors)%nat
    then recommendations ++
           [ "Review medicine dependency risks with healthcare provider";
             "Consider medicine rotation or alternatives" ]
    else recommendations in
  recommendations.

End EnhancedHealthRisk.

(* ===================================================================== *)
(** ** models/healthIntelligenceModel.js: the report                      *)
(* ===================================================================== *)

Module HealthReport.

Import HealthIntelligence.

(** The [priority] texts that [generateRecommendations] writes and its
    [priorityMap] reads. *)
Inductive priority_t := CRITICAL | HIGH | MEDIUM | LOW.

#[global] Instance priority_eq_dec : EqDecision priority_t.
Proof. solve_decision. Defined.

Record recommendation := {
  type : string;
  priority : priority_t;
  message : string;
  icon : string
}.

Definition priorityMap (p : priority_t) : Z :=
  match p with
  | CRITICAL => 0
  | HIGH => 1
  | MEDIUM => 2
  | LOW => 3
  end.

(** Reading a property of [undefined]. *)
Definition type_error (property : string) : js_error :=
  Error ("Cannot read properties of undefined (reading '" +:+ property +:+ "')").

(** *** generateRecommendations *)

Definition generateRecommendations (diseasePatterns : list disease_pattern)
    (allergyRisks : allergy_risks) (healthScore : risk_score_result)
    : completion (list recommendation) :=
  let recommendations := [] in
  (* Disease-based recommendations *)
  let recommendations := recommendations ++
    (disease ← diseasePatterns;
     if is_chronic disease then
       [ {| type := "CHRONIC_DISEASE";
            priority := HIGH;
            message := "You have been diagnosed with " +:+
                       disease_of_pattern disease +:+ " " +:+
                       pretty (frequency (HealthIntelligence.disease disease)) +:+
                       " times. Consider consulting a specialist for chronic disease management.";
            icon := "🏥" |} ]
     else []) in
  (* Allergy-based recommendations *)
  let recommendations :=
    if decide (0 < length (prescriptionRisks allergyRisks))%nat then
      recommendations ++
      (risk ← prescriptionRisks allergyRisks;
       if decide (risk_level risk = "ALLERGY_ALERT") then
         [ {| type := "ALLERGY_WARNING";
              priority := CRITICAL;
              message := "⚠️ ALERT: " +:+
                         risk_medicine_name (HealthIntelligence.risk risk) +:+
                         " has triggered allergic reactions. Inform your doctor before it's prescribed again.";
              icon := "⚠️" |} ]
       else [])
    else recommendations in
  (* Risk score recommendations *)
  let recommendations :=
    if decide (level healthScore = "critical") then
      recommendations ++
      [ {| type := "CRITICAL_HEALTH";
           priority := CRITICAL;
           message := "Your health risk score is critical. Schedule an urgent appointment with your doctor.";
           icon := "🚨" |} ]
    else if decide (level healthScore = "high") then
      recommendations ++
      [ {| type := "HIGH_RISK";
           priority := HIGH;
           message := "Your health risk score indicates elevated risk. Please consult with a healthcare professional.";
           icon := "⚠️" |} ]
    else recommendations in
  (* Medicine-based recommendations *)
  match breakdown healthScore with
  | None => Thrown (type_error "medicine_factor")
  | Some breakdown =>
      let recommendations :=
        if decide (20 < medicine_factor breakdown) then
          recommendations ++
          [ {| type := "HIGH_MEDICINE_USE";
               priority := MEDIUM;
               message := "You are taking multiple medicines frequently. Discuss with your doctor about possible interactions and long-term effects.";
               icon := "💊" |} ]
        else recommendations in
      Returned
        (Array_sort
           (λ a b, priorityMap (priority a) - priorityMap (priority b))
           recommendations)
  end.

(** *** getHealthIntelligenceReport *)

(** The [factors] of the [riskScore] that the report hands to the
    templates. *)
Record score_factors := {
  ageFactor : Z;
  medicineFactor : Z;
  diseaseFactor : Z;
  allergyFactor : Z;
  totalPrescriptions : Z;
  totalDiseases : Z;
  chronicCount : Z;
  allergyIncidents : Z
}.

(** [{ risk_score, risk_level, calculated_at, factors }]; [factors] is [{}]
    in the report of the [catch] branch. *)
Record risk_score_view := {
  risk_score : Z;
  risk_level : string;
  calculated_at : Timestamp;
  factors : option score_factors
}.

Record report := {
  diseasePatterns : list disease_pattern;
  allergyRisks : allergy_risks;
  riskScore : risk_score_view;
  recommendations : list recommendation
}.

(** The report of the [catch] branch. *)
Definition empty_report (t : Timestamp) : report :=
  {| diseasePatterns := [];
     allergyRisks := {| prescriptionRisks := []; knownSideEffects := [] |};
     riskScore := {| risk_score := 0; risk_level := "unknown";
                     calculated_at := t; factors := None |};
     recommendations := [] |}.

(** [healthScoreData.breakdown] is [undefined] in the result with which
    [calculateHealthRiskScore] answers a failure, and reading [age_factor]
    of it throws.  [allergy_factor] is [Math.min(20, n * 5)], a multiple of
    5, so [allergy_factor / 5] is the integer quotient. *)
Definition getHealthIntelligenceReport (patient_id : Z) : M report :=
  try_catch
    (await diseasePatterns ← detectDiseasePatterns patient_id;
     await allergyRisks ← detectAllergyRisks patient_id;
     await healthScoreData ← calculateHealthRiskScore patient_id;
     await calculated_at ← EnhancedHealthRisk.new_Date;
     match breakdown healthScoreData with
     | None => throw (type_error "age_factor")
     | Some breakdown =>
         let riskScore :=
           {| risk_score := score healthScoreData;
              risk_level := level healthScoreData;
              calculated_at := calculated_at;
              factors := Some
                {| ageFactor := age_factor breakdown;
                   medicineFactor := medicine_factor breakdown;
                   diseaseFactor := disease_factor breakdown;
                   allergyFactor := allergy_factor breakdown;
                   totalPrescriptions :=
                     if has_key "medicine_factor"
                          (HealthIntelligence.factors healthScoreData)
                     then Math_round_ratio (medicine_factor breakdown) 30 10
                     else 0;
                   totalDiseases :=
                     if has_key "disease_factor"
                          (HealthIntelligence.factors healthScoreData)
                     then Math_round_ratio (disease_factor breakdown) 25 8
                     else 0;
                   chronicCount :=
                     if has_key "chronic_condition"
                          (HealthIntelligence.factors healthScoreData)
                     then 1 else 0;
                   allergyIncidents := allergy_factor breakdown `div` 5 |} |} in
         await recommendations ← completed
           (generateRecommendations diseasePatterns allergyRisks healthScoreData);
         ret {| diseasePatterns := diseasePatterns;
                allergyRisks := allergyRisks;
                riskScore := riskScore;
                recommendations := recommendations |}
     end)
    (λ err,
       await calculated_at ← EnhancedHealthRisk.new_Date;
       ret (empty_report calculated_at)).

End HealthReport.

(* ===================================================================== *)
(** ** models/chatModel.js                                                *)
(* ===================================================================== *)

Module Chat.

(** A row of the SELECT of [sendMessage].  The driver builds one object per
    row, so [p.patient_id] and [d.doctor_id], selected after [a.*], are
    what [appointment.patient_id] and [appointment.doctor_id] read; they
    are NULL when the LEFT JOIN finds no partner. *)
Record appointment_with_parties := {
  appointment_id : Z;
  patient_id : option Z;
  doctor_id : option Z
}.

(** [SELECT a.*, p.patient_id, d.doctor_id FROM appointments a
     LEFT JOIN patients p ON a.patient_id = p.patient_id
     LEFT JOIN doctors d ON a.doctor_id = d.doctor_id
     WHERE a.appointment_id = $1]. *)
Definition appointment_query (appointmentId : Z)
    : statement (list appointment_with_parties) :=
  select (λ d _,
    (λ x, {| appointment_id := Schema.appointment_id x.1.1;
             patient_id := Schema.patient_id <$> x.1.2;
             doctor_id := Schema.doctor_id <$> x.2 |}) <$>
      filter (λ x, Schema.appointment_id x.1.1 = appointmentId)
        (left_join (λ x, Some (a_doctor_id x.1)) Schema.doctor_id
           (left_join (λ a, Some (a_patient_id a)) Schema.patient_id
              (appointments d) (patients d))
           (doctors d))).

(** [INSERT INTO messages (appointment_id, sender_id, sender_role, message)
     VALUES ($1, $2, $3, $4) RETURNING *] under the constraints of the
    table: the foreign key on [appointment_id], the CHECK on [sender_role]
    and NOT NULL on [message]. *)
Definition insert_message (appointmentId senderId : Z) (senderRole : string)
    (messageText : option string) : statement (list message_row) :=
  λ d t,
    match messageText with
    | None => Thrown (ConstraintViolation "messages_message_not_null")
    | Some text =>
        if decide (senderRole ∉ ["patient"; "doctor"]) then
          Thrown (ConstraintViolation "messages_sender_role_check")
        else if decide (appointmentId ∉ Schema.appointment_id <$> appointments d)
        then Thrown (ConstraintViolation "messages_appointment_id_fkey")
        else
          let row := {| message_id := messages_message_id_seq d;
                        m_appointment_id := appointmentId;
                        sender_id := senderId;
                        sender_role := senderRole;
                        message := text;
                        is_read := false;
                        timestamp := t |} in
          Returned ([row],
                    with_messages (messages d ++ [row])
                      (messages_message_id_seq d + 1) d)
    end.

Record send_result := {
  success : bool;
  sent : option message_row
}.

Definition unauthorized : js_error :=
  Error "Unauthorized: sender not part of this appointment".

Definition sendMessage (appointmentId senderId : Z) (senderRole : string)
    (messageText : option string) : M send_result :=
  try_catch
    (await appointmentRes ← pool_query (appointment_query appointmentId);
     match appointmentRes with
     | [] => throw (Error "Appointment not found")
     | appointment :: _ =>
         let isValidSender :=
           bool_decide (senderRole = "patient" ∧
                        patient_id appointment = Some senderId) ||
           bool_decide (senderRole = "doctor" ∧
                        doctor_id appointment = Some senderId) in
         if negb isValidSender then throw unauthorized
         else
           await result ← pool_query
             (insert_message appointmentId senderId senderRole messageText);
           ret {| success := true; sent := head result |}
     end)
    (λ err, throw err).

(** The sender is the patient, respectively the doctor, of the appointment
    row [a], in the role given. *)
Definition is_party (a : appointment_row) (senderId : Z) (senderRole : string)
    : Prop :=
  (senderRole = "patient" ∧ a_patient_id a = senderId) ∨
  (senderRole = "doctor" ∧ a_doctor_id a = senderId).

(** *** markMessagesAsRead *)

(** The WHERE clause of the UPDATE:
    [appointment_id = $1 AND sender_role != $2 AND is_read = FALSE]. *)
Definition to_mark (appointmentId : Z) (userRole : string) (m : message_row)
    : Prop :=
  m_appointment_id m = appointmentId ∧ sender_role m ≠ userRole ∧
  is_read m = false.

#[global] Instance to_mark_dec appointmentId userRole m :
  Decision (to_mark appointmentId userRole m).
Proof. unfold to_mark. apply _. Defined.

(** [SET is_read = TRUE]. *)
Definition mark_read (m : message_row) : message_row :=
  {| message_id := message_id m;
     m_appointment_id := m_appointment_id m;
     sender_id := sender_id m;
     sender_role := sender_role m;
     message := message m;
     is_read := true;
     timestamp := timestamp m |}.

(** [UPDATE messages SET is_read = TRUE WHERE ... RETURNING *]. *)
Definition mark_read_update (appointmentId : Z) (userRole : string)
    : statement (list message_row) :=
  λ d t,
    Returned
      (mark_read <$> filter (to_mark appointmentId userRole) (messages d),
       with_messages
         ((λ m, if decide (to_mark appointmentId userRole m)
                then mark_read m else m) <$> messages d)
         (messages_message_id_seq d) d).

Definition markMessagesAsRead (appointmentId userId : Z) (userRole : string)
    : M (list message_row) :=
  try_catch
    (await result ← pool_query (mark_read_update appointmentId userRole);
     ret result)
    (λ err, ret []).

(** *** getUnreadMessageCount *)

(** [SELECT COUNT( * ) FROM messages m
     JOIN appointments a ON m.appointment_id = a.appointment_id
     WHERE a.patient_id = $1 AND m.sender_role = 'doctor'
       AND m.is_read = FALSE], and the same with [a.doctor_id] and
    ['patient']. *)
Definition unread_messages (d : database) (party : appointment_row → Z)
    (userId : Z) (sender : string) : list (message_row * appointment_row) :=
  filter (λ x, party x.2 = userId ∧ sender_role x.1 = sender ∧
               is_read x.1 = false)
    (inner_join m_appointment_id Schema.appointment_id
       (messages d) (appointments d)).

Definition unread_count_query (party : appointment_row → Z) (userId : Z)
    (sender : string) : statement (list Z) :=
  select (λ d _, [ count_rows (unread_messages d party userId sender) ]).

(** For a role other than the two, [query] stays [undefined] and
    [pool.query] rejects it. *)
Definition getUnreadMessageCount (userId : Z) (userRole : string) : M Z :=
  try_catch
    (let query :=
       if decide (userRole = "patient") then
         Some (unread_count_query a_patient_id userId "doctor")
       else if decide (userRole = "doctor") then
         Some (unread_count_query a_doctor_id userId "patient")
       else None in
     await result ←
       match query with
       | Some q => pool_query q
       | None => throw (Error "Client was passed a null or undefined query")
       end;
     ret (js_or (head result) 0))
    (λ err, ret 0).

(** *** deleteMessage *)

(** [SELECT * FROM messages WHERE message_id = $1]. *)
Definition message_query (messageId : Z) : statement (list message_row) :=
  select (λ d _, filter (λ m, message_id m = messageId) (messages d)).

(** [DELETE FROM messages WHERE message_id = $1]. *)
Definition delete_message (messageId : Z) : statement () :=
  λ d t,
    Returned
      ((), with_messages
             (filter (λ m, message_id m ≠ messageId) (messages d))
             (messages_message_id_seq d) d).

(** [{ success: true }]. *)
Record delete_result := { deleted : bool }.

Definition deleteMessage (messageId userId : Z) (userRole : string)
    : M delete_result :=
  try_catch
    (await messageRes ← pool_query (message_query messageId);
     match messageRes with
     | [] => throw (Error "Message not found")
     | message :: _ =>
         if decide (sender_id message ≠ userId ∧ userRole ≠ "admin") then
           throw (Error "Unauthorized: can only delete own messages")
         else
           await done ← pool_query (delete_message messageId);
           ret {| deleted := true |}
     end)
    (λ err, throw err).

End Chat.

(* ===================================================================== *)
(** ** utils/cache.js                                                     *)
(* ===================================================================== *)

Module Cache.

(** The values of the JSON data model; numbers are the integers. *)
#[warnings="-register-all"] Inductive json :=
  | JNull
  | JBool (b : bool)
  | JNumber (n : Z)
  | JString (s : string)
  | JArray (items : list json)
  | JObject (fields : list (string * json)).

(** The built-ins [JSON.stringify] and [JSON.parse] of the platform;
    [JSON_parse] is [None] where [JSON.parse] throws a SyntaxError. *)
Class JSON := {
  JSON_stringify : json → string;
  JSON_parse : string → option json
}.

(** [typeof value === 'string']. *)
Definition is_string (v : json) : bool :=
  match v with
  | JString _ => true
  | _ => false
  end.

(** An entry of the Redis server: the text stored and, when the key was
    set with [EX], the second at which it expires. *)
Record redis_entry := {
  payload : string;
  expires_at : option Z
}.

(** [redisClient.get(k)] at second [clock]: [None] is [null]. *)
Definition redis_get (clock : Z) (k : string) (store : gmap string redis_entry)
    : option string :=
  match store !! k with
  | Some e =>
      match expires_at e with
      | Some t => if decide (t ≤ clock) then None else Some (payload e)
      | None => Some (payload e)
      end
  | None => None
  end.

(** [redisClient.set(k, v)] and [redisClient.set(k, v, { EX: ttl })]. *)
Definition redis_set (clock : Z) (k v : string) (ex : option Z)
    (store : gmap string redis_entry) : gmap string redis_entry :=
  <[k := {| payload := v; expires_at := (λ ttl, clock + ttl) <$> ex |}]> store.

Definition redis_del (k : string) (store : gmap string redis_entry)
    : gmap string redis_entry :=
  delete k store.

Definition PREFIX : string := "cache:".

Section WithJSON.
Context `{JSON}.

Definition getCache (clock : Z) (key : string)
    (store : gmap string redis_entry) : json :=
  match redis_get clock (PREFIX +:+ key) store with
  | None => JNull
  | Some value =>
      match JSON_parse value with
      | Some parsed => parsed
      | None => JString value
      end
  end.

(** [ttlSeconds] is [None] when the argument is left out (default 600); an
    integer is finite, and truthy exactly when it is not 0. *)
Definition setCache (clock : Z) (key : string) (value : json)
    (ttlSeconds : option Z) (store : gmap string redis_entry)
    : gmap string redis_entry :=
  let ttlSeconds := default 600 ttlSeconds in
  let stringValue :=
    match value with
    | JString s => s
    | _ => JSON_stringify value
    end in
  if decide (ttlSeconds ≠ 0 ∧ 0 < ttlSeconds)
  then redis_set clock (PREFIX +:+ key) stringValue (Some ttlSeconds) store
  else redis_set clock (PREFIX +:+ key) stringValue None store.

Definition delCache (key : string) (store : gmap string redis_entry)
    : gmap string redis_entry :=
  redis_del (PREFIX +:+ key) store.

End WithJSON.

(** *** A reference codec

    JSON text for the values above (integers, strings escaped on the
    double quote and the backslash, no white space), to run the cache on
    examples. *)

(** The double quote and the backslash. *)
Definition dquote : ascii := ascii_of_nat 34.
Definition backslash : ascii := ascii_of_nat 92.

Definition escape_char (c : ascii) : string :=
  if decide (c = dquote ∨ c = backslash) then String backslash (String c "")
  else String c "".

Fixpoint escape (s : string) : string :=
  match s with
  | "" => ""
  | String c s' => escape_char c +:+ escape s'
  end.

Definition quote (s : string) : string :=
  String dquote (escape s +:+ String dquote "").

(** [Array.prototype.join]. *)
Fixpoint join_with (sep : string) (l : list string) : string :=
  match l with
  | [] => ""
  | x :: l' =>
      match l' with
      | [] => x
      | _ :: _ => x +:+ sep +:+ join_with sep l'
      end
  end.

Fixpoint stringify (v : json) : string :=
  match v with
  | JNull => "null"
  | JBool true => "true"
  | JBool false => "false"
  | JNumber n => pretty n
  | JString s => quote s
  | JArray items =>
      "[" +:+ join_with "," (map stringify items) +:+ "]"
  | JObject fields =>
      "{" +:+
      join_with ","
        (map (λ kv, match kv with
                    | (k, x) => quote k +:+ ":" +:+ stringify x
                    end) fields) +:+
      "}"
  end.

Definition is_digit (c : ascii) : bool :=
  let n := Z.of_nat (nat_of_ascii c) in bool_decide (48 ≤ n ∧ n ≤ 57).

Definition digit_value (c : ascii) : Z := Z.of_nat (nat_of_ascii c) - 48.

(** The digits at the head of [s], as a number continuing [acc]. *)
Fixpoint parse_digits (acc : Z) (s : string) : Z * string :=
  match s with
  | String c s' =>
      if is_digit c then parse_digits (acc * 10 + digit_value c) s'
      else (acc, s)
  | "" => (acc, s)
  end.

(** An unsigned JSON integer: one digit at least, no leading zero. *)
Definition parse_natural (s : string) : option (Z * string) :=
  match s with
  | String c s' =>
      if negb (is_digit c) then None
      else if decide (c = "0"%char) then
        match s' with
        | String c' _ => if is_digit c' then None else Some (0, s')
        | "" => Some (0, s')
        end
      else Some (parse_digits 0 s)
  | "" => None
  end.

(** The characters of a string literal after its opening quote. *)
Fixpoint parse_chars (s : string) : option (string * string) :=
  match s with
  | "" => None
  | String c s' =>
      if decide (c = dquote) then Some ("", s')
      else if decide (c = backslash) then
        match s' with
        | String e s'' =>
            if decide (e = dquote ∨ e = backslash)
            then match parse_chars s'' with
                 | Some (t, r) => Some (String e t, r)
                 | None => None
                 end
            else None
        | "" => None
        end
      else match parse_chars s' with
           | Some (t, r) => Some (String c t, r)
           | None => None
           end
  end.

(** [s] without the prefix [p], if it has it. *)
Fixpoint strip_prefix (p s : string) : option string :=
  match p with
  | "" => Some s
  | String c p' =>
      match s with
      | String c' s' => if decide (c = c') then strip_prefix p' s' else None
      | "" => None
      end
  end.

(** The elements of a non-empty array after its opening bracket, each read
    by [element], up to the closing bracket; [n] bounds their number. *)
Fixpoint parse_items (element : string → option (json * string)) (n : nat)
    (s : string) : option (list json * string) :=
  match n with
  | O => None
  | S n =>
      match element s with
      | Some (v, String c r) =>
          if decide (c = ","%char) then
            match parse_items element n r with
            | Some (vs, r') => Some (v :: vs, r')
            | None => None
            end
          else if decide (c = "]"%char) then Some ([v], r)
          else None
      | _ => None
      end
  end.

(** The members of a non-empty object after its opening brace. *)
Fixpoint parse_members (element : string → option (json * string)) (n : nat)
    (s : string) : option (list (string * json) * string) :=
  match n with
  | O => None
  | S n =>
      match s with
      | String q s1 =>
          if decide (q = dquote) then
            match parse_chars s1 with
            | Some (k, String colon s2) =>
                if decide (colon = ":"%char) then
                  match element s2 with
                  | Some (v, String c r) =>
                      if decide (c = ","%char) then
                        match parse_members element n r with
                        | Some (kvs, r') => Some ((k, v) :: kvs, r')
                        | None => None
                        end
                      else if decide (c = "}"%char) then Some ([(k, v)], r)
                      else None
                  | _ => None
                  end
                else None
            | _ => None
            end
          else None
      | "" => None
      end
  end.

Fixpoint parse_value (fuel : nat) (s : string) : option (json * string) :=
  match fuel with
  | O => None
  | S fuel =>
      match s with
      | "" => None
      | String c s' =>
          if decide (c = "n"%char) then
            (λ r, (JNull, r)) <$> strip_prefix "ull" s'
          else if decide (c = "t"%char) then
            (λ r, (JBool true, r)) <$> strip_prefix "rue" s'
          else if decide (c = "f"%char) then
            (λ r, (JBool false, r)) <$> strip_prefix "alse" s'
          else if decide (c = dquote) then
            (λ x, (JString x.1, x.2)) <$> parse_chars s'
          else if decide (c = "-"%char) then
            (λ x, (JNumber (- x.1), x.2)) <$> parse_natural s'
          else if is_digit c then
            (λ x, (JNumber x.1, x.2)) <$> parse_natural s
          else if decide (c = "["%char) then
            match s' with
            | String c' r =>
                if decide (c' = "]"%char) then Some (JArray [], r)
                else (λ x, (JArray x.1, x.2)) <$>
                       parse_items (parse_value fuel) fuel s'
            | "" => None
            end
          else if decide (c = "{"%char) then
            match s' with
            | String c' r =>
                if decide (c' = "}"%char) then Some (JObject [], r)
                else (λ x, (JObject x.1, x.2)) <$>
                       parse_members (parse_value fuel) fuel s'
            | "" => None
            end
          else None
      end
  end.

Definition parse (s : string) : option json :=
  match parse_value (S (String.length s)) s with
  | Some (v, "") => Some v
  | _ => None
  end.

(** *** Measures for the codec *)

(** The size of a value: the number of its nodes. *)
Fixpoint json_size (v : json) : nat :=
  match v with
  | JArray items => S (sum_list_with json_size items)
  | JObject fields =>
      S (sum_list_with (λ kv, match kv with (_, x) => json_size x end) fields)
  | _ => 1
  end.

(** Text after which a number ends: it does not go on with a digit. *)
Definition delimited (rest : string) : Prop :=
  match rest with
  | String c _ => is_digit c = false
  | "" => True
  end.

(** The text of one member of an object. *)
Definition member_text (kv : string * json) : string :=
  match kv with
  | (k, x) => quote k +:+ ":" +:+ stringify x
  end.

#[global] Instance reference_codec : JSON :=
  {| JSON_stringify := stringify; JSON_parse := parse |}.

End Cache.

(* ===================================================================== *)
(** ** Sample stores                                                      *)
(* ===================================================================== *)

Module Examples.

Definition noon (y m d : Z) : Timestamp := mkTimestamp (mkDate y m d) 43200.

Definition today : Timestamp := noon 2025 3 15.

Definition evening : Timestamp := mkTimestamp (mkDate 2025 3 15) 72000.

Definition rx (appt : Z) (medicine dose : string) (allergy : bool)
    : prescription_row :=
  {| pr_appointment_id := appt;
     medicine_name := medicine;
     dosage := dose;
     created_at := noon 2025 3 1;
     side_effects := None;
     reported_allergy := Some allergy |}.

Definition dx (pid : Z) (disease : string) (y m d : Z) : disease_row :=
  {| dh_patient_id := pid; disease_name := disease;
     diagnosed_date := mkDate y m d |}.

(** Patient 1 (65 years, doctor 7): Metformin 500mg three times, once with
    a reported allergy, and Aspirin twice at 100mg and twice at 500mg;
    Diabetes diagnosed four times and Flu twice in the last six months.
    Patient 2 (no age recorded, doctor 8): Ibuprofen once.
    Patient 3 (age -80 as entered, no prescriptions): eight diagnoses. *)
Definition clinic : database :=
  {| patients := [ {| patient_id := 1; age := Some 65 |};
                   {| patient_id := 2; age := None |};
                   {| patient_id := 3; age := Some (-80) |} ];
     doctors := [ {| doctor_id := 7 |}; {| doctor_id := 8 |} ];
     appointments :=
       [ {| appointment_id := 10; a_patient_id := 1; a_doctor_id := 7 |};
         {| appointment_id := 11; a_patient_id := 2; a_doctor_id := 8 |} ];
     prescriptions :=
       [ rx 10 "Metformin" "500mg" false; rx 10 "Metformin" "500mg" true;
         rx 10 "Metformin" "500mg" false;
         rx 10 "Aspirin" "100mg" false; rx 10 "Aspirin" "100mg" false;
         rx 10 "Aspirin" "500mg" false; rx 10 "Aspirin" "500mg" false;
         rx 11 "Ibuprofen" "200mg" false ];
     medicine_side_effects :=
       [ {| mse_medicine_name := "Ibuprofen"; side_effect := "Stomach upset";
            severity := Some moderate |} ];
     health_risk_score := [];
     disease_history :=
       [ dx 1 "Diabetes" 2024 10 1; dx 1 "Diabetes" 2024 11 1;
         dx 1 "Diabetes" 2024 12 1; dx 1 "Diabetes" 2025 1 1;
         dx 1 "Flu" 2025 1 15; dx 1 "Flu" 2025 2 15;
         dx 3 "Asthma" 2025 1 1; dx 3 "Asthma" 2025 1 2;
         dx 3 "Eczema" 2025 1 3; dx 3 "Eczema" 2025 1 4;
         dx 3 "Gout" 2025 1 5; dx 3 "Gout" 2025 1 6;
         dx 3 "Rhinitis" 2025 1 7; dx 3 "Rhinitis" 2025 1 8 ];
     messages := [];
     messages_message_id_seq := 1 |}.

(** The clinic with an older history: patient 1 also had the flu a year
    ago and measles nearly two years ago, before the six months that
    end on [today]. *)
Definition long_history : database :=
  {| patients := patients clinic;
     doctors := doctors clinic;
     appointments := appointments clinic;
     prescriptions := prescriptions clinic;
     medicine_side_effects := medicine_side_effects clinic;
     health_risk_score := health_risk_score clinic;
     disease_history :=
       dx 1 "Measles" 2023 5 5 :: dx 1 "Flu" 2024 3 1 ::
       disease_history clinic;
     messages := messages clinic;
     messages_message_id_seq := messages_message_id_seq clinic |}.

(** Patient 1 with a single prescription and three diagnoses on record. *)
Definition one_prescription : database :=
  {| patients := [ {| patient_id := 1; age := Some 40 |} ];
     doctors := [ {| doctor_id := 7 |} ];
     appointments :=
       [ {| appointment_id := 10; a_patient_id := 1; a_doctor_id := 7 |} ];
     prescriptions := [ rx 10 "Aspirin" "500mg" false ];
     medicine_side_effects := [];
     health_risk_score := [];
     disease_history :=
       [ dx 1 "Flu" 2025 1 1; dx 1 "Flu" 2025 2 1; dx 1 "Cold" 2025 2 10 ];
     messages := [];
     messages_message_id_seq := 1 |}.

(** A server on which no query is rejected, and one on which the first
    query of a call is. *)
Definition healthy (d : database) : world :=
  {| db := d; now := today; faulty := λ _, false; issued := 0 |}.

Definition failing (d : database) : world :=
  {| db := d; now := today; faulty := λ n, bool_decide (n = 0%nat);
     issued := 0 |}.

Definition clinic_server : world := healthy clinic.

Definition clinic_server_down : world := failing clinic.

(** The score of patient 1 requested at noon and again in the evening. *)
Definition first_score : completion HealthIntelligence.risk_score_result * world :=
  HealthIntelligence.calculateHealthRiskScore 1 clinic_server.

Definition second_score : completion HealthIntelligence.risk_score_result * world :=
  HealthIntelligence.calculateHealthRiskScore 1 (at_time evening first_score.2).

(** User 999, logged in as a patient, writes into appointment 10. *)
Definition outsider_message : completion Chat.send_result * world :=
  Chat.sendMessage 10 999 "patient" (Some "Hello") clinic_server.

Definition summary : Cache.json :=
  Cache.JObject
    [ ("upcoming", Cache.JArray [Cache.JNumber 10; Cache.JNumber 11]);
      ("summary", Cache.JObject [("name", Cache.JString "A. Example");
                                 ("active", Cache.JBool true);
                                 ("notes", Cache.JNull)]) ].

(** The value a call has returned, [dflt] when it has thrown. *)
Definition returned {A} (dflt : A) (c : completion A) : A :=
  match c with
  | Returned a => a
  | Thrown _ => dflt
  end.

(** What the three analyses of the report return for patient 1. *)
Definition patterns_1 : list HealthIntelligence.disease_pattern :=
  returned [] (HealthIntelligence.detectDiseasePatterns 1 clinic_server).1.

Definition risks_1 : HealthIntelligence.allergy_risks :=
  returned {| HealthIntelligence.prescriptionRisks := [];
              HealthIntelligence.knownSideEffects := [] |}
    (HealthIntelligence.detectAllergyRisks 1 clinic_server).1.

(** A score object with a breakdown, as [generateRecommendations] reads
    it: level 'high' and the sub-scores of an age of 65, 7 prescriptions,
    6 diagnoses with a chronic disease, and 1 allergy incident. *)
Definition breakdown_66 : HealthIntelligence.breakdown_t :=
  {| HealthIntelligence.age_factor := 12;
     HealthIntelligence.medicine_factor := 21;
     HealthIntelligence.disease_factor := 18;
     HealthIntelligence.allergy_factor := 5;
     HealthIntelligence.chronic_bonus := 10 |}.

Definition score_66 : HealthIntelligence.risk_score_result :=
  {| HealthIntelligence.score := 66;
     HealthIntelligence.level := "high";
     HealthIntelligence.description :=
       "🟡 HIGH RISK: Schedule specialist consultation";
     HealthIntelligence.factors := [];
     HealthIntelligence.breakdown := Some breakdown_66 |}.

(** The clinic with a conversation.  In appointment 10 the doctor has
    written and the patient has answered, both messages unread; in
    appointment 11 the doctor's message has been read. *)
Definition chat_line (id appt sender : Z) (role text : string) (read : bool)
    : message_row :=
  {| message_id := id;
     m_appointment_id := appt;
     sender_id := sender;
     sender_role := role;
     message := text;
     is_read := read;
     timestamp := noon 2025 3 14 |}.

Definition ward : database :=
  with_messages
    [ chat_line 1 10 7 "doctor" "Your results are in" false;
      chat_line 2 10 1 "patient" "Thank you" false;
      chat_line 3 11 8 "doctor" "Please call the practice" true ]
    4 clinic.

Definition ward_server : world := healthy ward.

Definition appointment_10 : appointment_row :=
  {| appointment_id := 10; a_patient_id := 1; a_doctor_id := 7 |}.

End Examples.

(* ===================================================================== *)
(** ** Theorems                                                           *)
(* ===================================================================== *)

(* --------------------------------------------------------------------- *)
(** *** pool.query and try/catch *)
(* --------------------------------------------------------------------- *)


Section Monad.

(** One SELECT followed by the rest of the function: the query is either
    rejected or answered from the store as it stands. *)
Lemma bind_select {A B} (q : database → Date → A) (k : A → M B) (w : world) :
  bind (pool_query (select q)) k w =
  if faulty w (issued w) then (Thrown (DataAccessFault (issued w)), tick w)
  else k (q (db w) (date_of (now w))) (tick w).
Proof.
  unfold bind, pool_query, select. by destruct (faulty w (issued w)).
Qed.

Lemma bind_returned {A B} (m : M A) (k : A → M B) (w w' : world) (a : A) :
  m w = (Returned a, w') → bind m k w = k a w'.
Proof. unfold bind. by intros ->. Qed.

(** A [try] around one SELECT whose rows are mapped, with a [catch] that
    returns a default. *)
Lemma guarded_select {A B} (q : database → Date → A) (f : A → B) (dflt : B)
    (w : world) :
  try_catch (await rows ← pool_query (select q); ret (f rows))
            (λ _, ret dflt) w =
  (Returned (if faulty w (issued w) then dflt
             else f (q (db w) (date_of (now w)))), tick w).
Proof.
  unfold try_catch. rewrite bind_select.
  by destruct (faulty w (issued w)).
Qed.

Lemma fault_within_1 w : fault_within w 1 → faulty w (issued w) = true.
Proof.
  intros (k & Hk & Hf). replace k with 0%nat in Hf by lia.
  by rewrite Nat.add_0_r in Hf.
Qed.

Lemma fault_within_S w n :
  fault_within w (S n) →
  faulty w (issued w) = true ∨ fault_within (tick w) n.
Proof.
  intros (k & Hk & Hf). destruct k as [|k].
  - left. by rewrite Nat.add_0_r in Hf.
  - right. exists k. split; [lia|]. cbn [faulty issued tick].
    by replace (S (issued w) + k)%nat with (issued w + S k)%nat by lia.
Qed.

End Monad.

(* --------------------------------------------------------------------- *)
(** *** Relational operators *)
(* --------------------------------------------------------------------- *)


Section Relational.

Context {A B K : Type} `{EqDecision K}.

Lemma group_by_keys (key : A → K) (rows : list A) :
  (group_by key rows).*1 = remove_dups (key <$> rows).
Proof.
  unfold group_by. rewrite <- list_fmap_compose.
  generalize (remove_dups (key <$> rows)). intros ks.
  induction ks as [|k ks IH]; simpl; [done|]. by f_equal.
Qed.

Lemma elem_of_group_by (key : A → K) (rows : list A) k g :
  (k, g) ∈ group_by key rows ↔
  k ∈ key <$> rows ∧ g = filter (λ r, key r = k) rows.
Proof.
  unfold group_by. rewrite list_elem_of_fmap. split.
  - intros (k' & Heq & Hk). inversion Heq; subst.
    by rewrite elem_of_remove_dups in Hk.
  - intros [Hk ->]. exists k. split; [done|]. by rewrite elem_of_remove_dups.
Qed.

Lemma elem_of_inner_join (ka : A → K) (kb : B → K) (l : list A) (r : list B)
    (a : A) (b : B) :
  (a, b) ∈ inner_join ka kb l r ↔ a ∈ l ∧ b ∈ r ∧ ka a = kb b.
Proof.
  unfold inner_join. rewrite list_elem_of_bind. split.
  - intros (a' & Hin & Ha'). apply list_elem_of_fmap in Hin as (b' & Heq & Hb').
    injection Heq as -> ->. apply list_elem_of_filter in Hb' as [? ?]. done.
  - intros (Ha & Hb & Hk). exists a. split; [|done].
    apply list_elem_of_fmap. exists b. split; [done|].
    by apply list_elem_of_filter.
Qed.

Lemma elem_of_left_join (ka : A → option K) (kb : B → K)
    (l : list A) (r : list B) (a : A) (ob : option B) :
  (a, ob) ∈ left_join ka kb l r ↔
  a ∈ l ∧ match ob with
          | Some b => b ∈ r ∧ ka a = Some (kb b)
          | None => ∀ b, b ∈ r → ka a ≠ Some (kb b)
          end.
Proof.
  unfold left_join. rewrite list_elem_of_bind. split.
  - intros (a' & Hin & Ha').
    destruct (filter (λ b, ka a' = Some (kb b)) r) as [|b0 bs] eqn:Hf.
    + apply list_elem_of_singleton in Hin. injection Hin as -> ->.
      split; [done|]. intros b Hb Hk.
      assert (b ∈ filter (λ b, ka a' = Some (kb b)) r) as Hin
        by (by apply list_elem_of_filter).
      rewrite Hf in Hin. by apply elem_of_nil in Hin.
    + apply list_elem_of_fmap in Hin as (b' & Heq & Hb').
      injection Heq as -> ->. split; [done|].
      rewrite <- Hf in Hb'. by apply list_elem_of_filter in Hb' as [? ?].
  - intros [Ha Hob]. exists a. split; [|done].
    destruct (filter (λ b, ka a = Some (kb b)) r) as [|b0 bs] eqn:Hf.
    + destruct ob as [b|]; [|by apply list_elem_of_singleton].
      destruct Hob as [Hb Hk].
      assert (b ∈ filter (λ b, ka a = Some (kb b)) r) as Hin
        by (by apply list_elem_of_filter).
      rewrite Hf in Hin. by apply elem_of_nil in Hin.
    + destruct ob as [b|].
      * apply list_elem_of_fmap. exists b. split; [done|].
        rewrite <- Hf. apply list_elem_of_filter. by destruct Hob.
      * exfalso.
        assert (b0 ∈ filter (λ b, ka a = Some (kb b)) r) as Hin
          by (rewrite Hf; left).
        apply list_elem_of_filter in Hin as [Hk Hb0]. by eapply Hob.
Qed.

Lemma left_join_total (ka : A → option K) (kb : B → K)
    (l : list A) (r : list B) (a : A) :
  a ∈ l → ∃ ob, (a, ob) ∈ left_join ka kb l r.
Proof.
  intros Ha.
  destruct (filter (λ b, ka a = Some (kb b)) r) as [|b bs] eqn:Hf.
  - exists None. apply elem_of_left_join. split; [done|].
    intros b Hb Hk.
    assert (b ∈ filter (λ b, ka a = Some (kb b)) r) as Hin
      by (by apply list_elem_of_filter).
    rewrite Hf in Hin. by apply elem_of_nil in Hin.
  - exists (Some b). apply elem_of_left_join. split; [done|].
    assert (b ∈ filter (λ b, ka a = Some (kb b)) r) as Hin by (rewrite Hf; left).
    by apply list_elem_of_filter in Hin as [? ?].
Qed.

End Relational.

Lemma desc_by_transitive {A} (e : A → Z) : Transitive (desc_by e).
Proof. unfold desc_by. intros x y z ? ?. lia. Qed.

Lemma desc_by_total {A} (e : A → Z) : Total (desc_by e).
Proof. unfold desc_by. intros x y. lia. Qed.

Lemma order_by_desc_sorted {A} (e : A → Z) (rows : list A) :
  StronglySorted (desc_by e) (order_by_desc e rows).
Proof.
  pose proof (desc_by_transitive e). pose proof (desc_by_total e).
  apply (StronglySorted_merge_sort _).
Qed.

Lemma order_by_desc_perm {A} (e : A → Z) (rows : list A) :
  order_by_desc e rows ≡ₚ rows.
Proof. apply merge_sort_Permutation. Qed.

Lemma count_rows_nonneg {A} (l : list A) : 0 ≤ count_rows l.
Proof. unfold count_rows. lia. Qed.

Lemma count_rows_pos {A} (l : list A) (x : A) : x ∈ l → 1 ≤ count_rows l.
Proof. unfold count_rows. destruct l; [by intros ?%elem_of_nil|simpl; lia]. Qed.

Lemma remove_dups_NoDup {A} `{EqDecision A} (l : list A) :
  NoDup l → remove_dups l = l.
Proof.
  induction 1 as [|x l Hx _ IH]; [done|].
  cbn [remove_dups]. destruct (decide_rel _ x l); [done|]. by rewrite IH.
Qed.

Lemma list_nil_iff {A} (l : list A) : l = [] ↔ ∀ x, x ∉ l.
Proof.
  split; [intros -> x; apply not_elem_of_nil|].
  destruct l as [|x l]; [done|]. intros H. exfalso. apply (H x). left.
Qed.

Section FanOut.
Context {A B : Type}.

Lemma filter_bind_fst (Q : A → Prop) `{∀ x, Decision (Q x)}
    (J : A → list (A * B)) (l : list A) :
  (∀ x y, y ∈ J x → y.1 = x) →
  filter (λ y, Q y.1) (l ≫= J) = filter Q l ≫= J.
Proof.
  intros HJ. induction l as [|x l IH]; [done|].
  rewrite bind_cons, filter_app, IH, filter_cons.
  assert (filter (λ y, Q y.1) (J x) = if decide (Q x) then J x else []) as ->.
  { specialize (HJ x). induction (J x) as [|y ys IHy]; [by destruct (decide _)|].
    rewrite filter_cons, IHy by (intros ? ?; apply HJ; by right).
    rewrite (HJ y) by left. by destruct (decide (Q x)). }
  by destruct (decide (Q x)).
Qed.

Lemma length_bind_const (J : A → list (A * B)) (l : list A) (c : nat) :
  (∀ x, x ∈ l → length (J x) = c) → length (l ≫= J) = (length l * c)%nat.
Proof.
  intros Hc. induction l as [|x l IH]; [done|].
  rewrite bind_cons, length_app, IH, Hc; [cbn; lia|left|].
  intros y Hy. apply Hc. by right.
Qed.

End FanOut.

Lemma string_append_assoc (a b c : string) : (a +:+ b) +:+ c = a +:+ (b +:+ c).
Proof.
  induction a as [|x a IH]; [done|].
  change (String x ((a +:+ b) +:+ c) = String x (a +:+ (b +:+ c))).
  by rewrite IH.
Qed.

(* --------------------------------------------------------------------- *)
(** *** Disease pattern detector *)
(* --------------------------------------------------------------------- *)


Section DiseasePatterns.
Import HealthIntelligence.

Lemma detectDiseasePatterns_run pid w :
  detectDiseasePatterns pid w =
  (Returned (if faulty w (issued w) then []
             else classify_disease <$>
                    order_by_desc frequency
                      (disease_frequency_of <$>
                         group_by disease_name
                           (recent_diseases (db w) (date_of (now w)) pid))),
   tick w).
Proof. apply guarded_select. Qed.

(** [diagnosed_date >= CURRENT_DATE - INTERVAL '6 months'] compares two
    dates. *)
Lemma date_within_months_le (today : Date) (n : Z) (x : Date) :
  date_within_months today n x ↔ date_le (months_before today n) x.
Proof.
  unfold date_within_months, ts_le, date_le, at_midnight. cbn [ts_date ts_secs].
  split.
  - intros [Hlt|[Heq _]]; [by right|by left].
  - intros [Heq|Hlt]; [right; split; [done|lia]|by left].
Qed.

(** Claim C8.  When its query is answered, [detectDiseasePatterns] returns
    one entry for each disease of which [disease_history] holds a row of
    the patient whose diagnosis date is not earlier than the current date
    minus six months, and for no other disease; no disease is listed
    twice.  The [frequency] of an entry is the number of those rows
    for its disease, and the entries are sorted by frequency in descending
    order.  An entry is chronic exactly when its frequency is at least 3 (so
    at frequency 4), with the "Possible chronic condition" assessment;
    frequency 2 gives the "Recurring pattern" assessment and frequency 1
    the "Single occurrence" one, neither chronic.  A patient without such a
    row, in particular one without any row in [disease_history], gets the
    empty list, returned and not thrown. *)
Theorem detectDiseasePatterns_spec (pid : Z) (w : world) :
  faulty w (issued w) = false →
  let since := months_before (date_of (now w)) 6 in
  let diagnoses (n : string) : list disease_row :=
    filter (λ r, dh_patient_id r = pid ∧ date_le since (diagnosed_date r) ∧
                 disease_name r = n)
      (disease_history (db w)) in
  ∃ res : list disease_pattern,
    (detectDiseasePatterns pid w).1 = Returned res ∧
    NoDup (disease_of_pattern <$> res) ∧
    (∀ n, n ∈ disease_of_pattern <$> res ↔
          ∃ r, r ∈ disease_history (db w) ∧ dh_patient_id r = pid ∧
               date_le since (diagnosed_date r) ∧ disease_name r = n) ∧
    (∀ p, p ∈ res →
       frequency (disease p) = count_rows (diagnoses (disease_of_pattern p)) ∧
       1 ≤ frequency (disease p) ∧
       (is_chronic p = true ↔ 3 ≤ frequency (disease p)) ∧
       (frequency (disease p) = 4 → is_chronic p = true) ∧
       (3 ≤ frequency (disease p) →
          risk_assessment p =
          "Possible chronic condition - recommend specialist consultation") ∧
       (frequency (disease p) = 2 →
          is_chronic p = false ∧
          risk_assessment p = "Recurring pattern detected - monitor closely") ∧
       (frequency (disease p) = 1 →
          is_chronic p = false ∧
          risk_assessment p = "Single occurrence - standard monitoring")) ∧
    StronglySorted (λ a b, frequency (disease b) ≤ frequency (disease a)) res ∧
    ((∀ r, r ∈ disease_history (db w) → dh_patient_id r = pid →
           ¬ date_le since (diagnosed_date r)) →
     res = []).
Proof.
  intros Hok since diagnoses.
  set (window := recent_diseases (db w) (date_of (now w)) pid).
  assert (Hwindow : ∀ r, r ∈ window ↔
            r ∈ disease_history (db w) ∧ dh_patient_id r = pid ∧
            date_le since (diagnosed_date r)).
  { intros r. unfold window, recent_diseases.
    rewrite list_elem_of_filter, date_within_months_le. fold since. tauto. }
  assert (Hdiagnoses : ∀ n,
            filter (λ r, disease_name r = n) window = diagnoses n).
  { intros n. unfold window, recent_diseases, diagnoses.
    rewrite list_filter_filter. apply list_filter_iff. intros r.
    rewrite date_within_months_le. fold since. tauto. }
  set (groups := disease_frequency_of <$> group_by disease_name window).
  exists (classify_disease <$> order_by_desc frequency groups).
  assert (Hnames : disease_of_pattern <$>
                     (classify_disease <$> order_by_desc frequency groups)
                   ≡ₚ remove_dups (disease_name <$> window)).
  { rewrite <- list_fmap_compose.
    rewrite order_by_desc_perm. unfold groups.
    rewrite <- list_fmap_compose, <- group_by_keys. done. }
  split; [|split; [|split; [|split; [|split]]]].
  - unfold detectDiseasePatterns, try_catch, bind, pool_query, ret.
    by rewrite Hok.
  - rewrite Hnames. apply NoDup_remove_dups.
  - intros n. rewrite Hnames, elem_of_remove_dups, list_elem_of_fmap. split.
    + intros (r & -> & Hr). exists r. apply Hwindow in Hr. tauto.
    + intros (r & Hin & Hpid & Hdate & <-). exists r. split; [done|].
      by apply Hwindow.
  - intros p (r & -> & Hr)%list_elem_of_fmap.
    rewrite order_by_desc_perm in Hr.
    apply list_elem_of_fmap in Hr as ([k g] & -> & Hg).
    apply elem_of_group_by in Hg as [Hk ->].
    assert (Hpos : 1 ≤ count_rows (filter (λ r, disease_name r = k) window)).
    { apply list_elem_of_fmap in Hk as (r & -> & Hr).
      apply (count_rows_pos _ r). by apply list_elem_of_filter. }
    unfold disease_of_pattern. simpl. rewrite <- Hdiagnoses.
    split; [done|].
    set (f := count_rows _) in *. clearbody f.
    split; [done|]. rewrite bool_decide_eq_true. split; [done|].
    split; [lia|].
    split; [intros Hf; by rewrite decide_True|].
    split; intros ->; (split; [rewrite bool_decide_eq_false; lia|]).
    + rewrite decide_False by lia. by rewrite decide_True.
    + by rewrite !decide_False by lia.
  - apply (StronglySorted_fmap _ (desc_by frequency)); [done|].
    apply order_by_desc_sorted.
  - intros Hnone.
    assert (window = []) as Hnil.
    { apply list_nil_iff. intros r Hr. apply Hwindow in Hr as (Hin & Hpid & Hd).
      by apply (Hnone r). }
    unfold groups. rewrite Hnil. done.
Qed.

Lemma detectDiseasePatterns_spec_witness :
  let w := Examples.healthy Examples.long_history in
  faulty w (issued w) = false ∧
  ∃ res : list disease_pattern,
    (detectDiseasePatterns 1 w).1 = Returned res ∧
    disease_of_pattern <$> res = ["Diabetes"; "Flu"] ∧
    (λ p, frequency (disease p)) <$> res = [4; 2] ∧
    is_chronic <$> res = [true; false] ∧
    NoDup (disease_of_pattern <$> res) ∧
    StronglySorted (λ a b, frequency (disease b) ≤ frequency (disease a)) res.
Proof.
  cbv zeta. split; [reflexivity|].
  destruct (detectDiseasePatterns_spec 1
              (Examples.healthy Examples.long_history) eq_refl)
    as (res & Hres & Hnodup & _ & _ & Hsorted & _).
  exists res. split; [exact Hres|].
  assert (Hvalue :
    (disease_of_pattern <$> res, (λ p, frequency (disease p)) <$> res,
     is_chronic <$> res) =
    (["Diabetes"; "Flu"], [4; 2], [true; false])).
  { vm_compute in Hres. injection Hres as <-. reflexivity. }
  injection Hvalue as -> Hfreq Hchronic.
  split; [reflexivity|]. split; [exact Hfreq|]. split; [exact Hchronic|].
  split; [|exact Hsorted].
  apply (bool_decide_unpack _). vm_compute. exact I.
Defined.

End DiseasePatterns.

(* --------------------------------------------------------------------- *)
(** *** Allergy and side-effect detector *)
(* --------------------------------------------------------------------- *)


Section AllergyRisks.
Import HealthIntelligence.

Lemma sum_of_allergy_flags (g : list (prescription_row * appointment_row)) :
  sum_of (allergy_flag <$> g) =
  count_rows (filter (λ x, reported_allergy x.1 = Some true) g).
Proof.
  unfold count_rows. induction g as [|x g IH]; [done|].
  rewrite fmap_cons, filter_cons. cbn [sum_of foldr]. fold (sum_of (allergy_flag <$> g)).
  rewrite IH. unfold allergy_flag.
  destruct (decide (reported_allergy x.1 = Some true)); cbn [length]; lia.
Qed.

Lemma detectAllergyRisks_run pid w :
  detectAllergyRisks pid w =
  (if faulty w (issued w) then
     (Returned {| prescriptionRisks := []; knownSideEffects := [] |}, tick w)
   else if faulty w (S (issued w)) then
     (Returned {| prescriptionRisks := []; knownSideEffects := [] |},
      tick (tick w))
   else
     match prescription_risks_query pid (db w) (now w),
           known_side_effects_query pid (db w) (now w) with
     | Returned (risks, _), Returned (effects, _) =>
         (Returned {| prescriptionRisks := flag_risk <$> risks;
                      knownSideEffects := flag_effect <$> effects |},
          tick (tick w))
     | _, _ =>
         (Returned {| prescriptionRisks := []; knownSideEffects := [] |},
          tick (tick w))
     end).
Proof.
  unfold detectAllergyRisks, try_catch, prescription_risks_query,
    known_side_effects_query.
  rewrite bind_select. destruct (faulty w (issued w)); [done|].
  rewrite bind_select. cbn [faulty issued tick].
  by destruct (faulty w (S (issued w))).
Qed.

(** Claim C7, as the code has it.  When its two queries are answered,
    [detectAllergyRisks] returns in [prescriptionRisks] exactly one entry
    per pair (medicine, dosage) among the patient's prescriptions that has
    at least one dispensing with a reported allergy or at least 4
    dispensings at that dosage; the entry carries these two counts and is
    labelled ALLERGY_ALERT exactly when its [allergy_reports] is positive,
    FREQUENCY_WARNING otherwise.  Without allergy report and without a pair
    reaching 4, [prescriptionRisks] is empty; [knownSideEffects] is empty
    exactly when no medicine prescribed to the patient is in the
    side-effect catalogue. *)
Theorem detectAllergyRisks_by_medicine_and_dosage (pid : Z) (w : world) :
  no_fault w 2 →
  let rx := prescriptions_of (db w) pid in
  let dispensed (k : string * string) := filter (λ x, dispensing x = k) rx in
  let flagged (k : string * string) :=
    count_rows (filter (λ x, reported_allergy x.1 = Some true) (dispensed k)) in
  ∃ res,
    (detectAllergyRisks pid w).1 = Returned res ∧
    NoDup (risk_key <$> prescriptionRisks res) ∧
    (∀ k, k ∈ risk_key <$> prescriptionRisks res ↔
          k ∈ dispensing <$> rx ∧
          (0 < flagged k ∨ 4 ≤ count_rows (dispensed k))) ∧
    (∀ e, e ∈ prescriptionRisks res →
          allergy_reports (risk e) = flagged (risk_key e) ∧
          times_prescribed (risk e) = count_rows (dispensed (risk_key e)) ∧
          (risk_level e = "ALLERGY_ALERT" ↔ 0 < allergy_reports (risk e)) ∧
          (risk_level e = "FREQUENCY_WARNING" ↔
             ¬ 0 < allergy_reports (risk e))) ∧
    ((∀ k, k ∈ dispensing <$> rx →
           flagged k = 0 ∧ count_rows (dispensed k) < 4) →
     prescriptionRisks res = []) ∧
    (knownSideEffects res = [] ↔
     ∀ x m, x ∈ rx → m ∈ medicine_side_effects (db w) →
            medicine_name x.1 ≠ mse_medicine_name m).
Proof.
  intros Hnf rx dispensed flagged.
  pose proof (Hnf 0%nat ltac:(lia)) as F1.
  pose proof (Hnf 1%nat ltac:(lia)) as F2.
  rewrite Nat.add_0_r in F1. rewrite Nat.add_1_r in F2.
  rewrite detectAllergyRisks_run, F1, F2.
  unfold prescription_risks_query, known_side_effects_query, select.
  cbn [fst snd]. eexists. split; [reflexivity|].
  cbn [prescriptionRisks knownSideEffects].
  fold rx.
  change (λ x : prescription_row * appointment_row,
            (medicine_name x.1, dosage x.1)) with dispensing.
  set (groups := filter _ (group_by dispensing rx)).
  assert (Hkeys : NoDup (groups.*1)).
  { eapply sublist_NoDup; [|apply fmap_sublist, sublist_filter].
    rewrite group_by_keys. apply NoDup_remove_dups. }
  assert (Hkey_of : ∀ g, risk_key (flag_risk (prescription_risk_of g)) = g.1).
  { by intros [[m dsg] g]. }
  assert (Hrows : risk_key <$> (flag_risk <$> (prescription_risk_of <$> groups))
                  = groups.*1).
  { rewrite <- !list_fmap_compose. apply list_fmap_ext. intros ? g _.
    apply Hkey_of. }
  assert (Hdups : remove_dups (prescription_risk_of <$> groups) =
                  prescription_risk_of <$> groups).
  { apply remove_dups_NoDup.
    apply (NoDup_fmap_1 (risk_key ∘ flag_risk)).
    rewrite list_fmap_compose, Hrows. exact Hkeys. }
  rewrite Hdups.
  assert (Hgroup : ∀ k g, (k, g) ∈ groups ↔
            k ∈ dispensing <$> rx ∧ g = dispensed k ∧
            (0 < flagged k ∨ 4 ≤ count_rows (dispensed k))).
  { intros k g. unfold groups. rewrite list_elem_of_filter, elem_of_group_by.
    cbn [snd]. split.
    - intros (Hh & Hk & ->). rewrite sum_of_allergy_flags in Hh. done.
    - intros (Hk & -> & Hh). rewrite sum_of_allergy_flags. done. }
  split; [by rewrite Hrows|]. split; [|split; [|split]].
  - intros k. rewrite Hrows, list_elem_of_fmap. split.
    + intros ([k' g] & -> & Hg). apply Hgroup in Hg as (? & _ & ?). done.
    + intros [Hk Hh]. exists (k, dispensed k). split; [done|].
      by apply Hgroup.
  - intros e (r & -> & Hr)%list_elem_of_fmap.
    apply list_elem_of_fmap in Hr as ([k g] & -> & Hg).
    apply Hgroup in Hg as (Hk & -> & Hh).
    rewrite Hkey_of. cbn [fst snd risk risk_level flag_risk prescription_risk_of
      allergy_reports times_prescribed].
    rewrite sum_of_allergy_flags. fold (flagged k).
    split; [done|]. split; [done|].
    destruct (decide (0 < flagged k)); split; intros; done.
  - intros Hnone. apply list_nil_iff. intros e He.
    assert (risk_key e ∈ risk_key <$> (flag_risk <$> (prescription_risk_of <$> groups)))
      as Hin by (by apply list_elem_of_fmap_2).
    rewrite Hrows in Hin. apply list_elem_of_fmap in Hin as ([k g] & Hk & Hg).
    apply Hgroup in Hg as (Hkin & _ & Hh).
    destruct (Hnone k Hkin). lia.
  - rewrite !list_nil_iff. split.
    + intros Hempty [pr a] m Hx Hm Hname.
      unfold rx, prescriptions_of in Hx.
      apply list_elem_of_filter in Hx as [Hpid Hx].
      apply elem_of_inner_join in Hx as (Hpr & Ha & Hid).
      eapply Hempty. apply list_elem_of_fmap_2.
      rewrite order_by_desc_perm. apply elem_of_remove_dups.
      apply (list_elem_of_fmap_2 _ _ ((pr, m), a)).
      apply list_elem_of_filter. split; [done|].
      apply elem_of_inner_join. split; [|done].
      by apply elem_of_inner_join.
    + intros Hnone e (r & -> & Hr)%list_elem_of_fmap.
      rewrite order_by_desc_perm, elem_of_remove_dups in Hr.
      apply list_elem_of_fmap in Hr as ([[pr m] a] & -> & Hx).
      apply list_elem_of_filter in Hx as [Hpid Hx].
      apply elem_of_inner_join in Hx as (Hprm & Ha & Hid).
      apply elem_of_inner_join in Hprm as (Hpr & Hm & Hname).
      apply (Hnone (pr, a) m); [|done|done].
      apply list_elem_of_filter. split; [done|].
      by apply elem_of_inner_join.
Qed.

Lemma detectAllergyRisks_by_medicine_and_dosage_witness :
  no_fault Examples.clinic_server 2 ∧
  ∃ res,
    (detectAllergyRisks 1 Examples.clinic_server).1 = Returned res ∧
    NoDup (risk_key <$> prescriptionRisks res) ∧
    (∀ e, e ∈ prescriptionRisks res →
          (risk_level e = "ALLERGY_ALERT" ↔ 0 < allergy_reports (risk e)) ∧
          (risk_level e = "FREQUENCY_WARNING" ↔
             ¬ 0 < allergy_reports (risk e))).
Proof.
  assert (no_fault Examples.clinic_server 2) as Hnf by (intros k _; reflexivity).
  split; [exact Hnf|].
  destruct (detectAllergyRisks_by_medicine_and_dosage 1 Examples.clinic_server Hnf)
    as (res & Hres & Hnodup & _ & Hentries & _).
  exists res. split; [exact Hres|]. split; [exact Hnodup|].
  intros e He. destruct (Hentries e He) as (_ & _ & Halert & Hfreq).
  split; [exact Halert|exact Hfreq].
Defined.

(** Claim C7 as stated fails on the sample clinic.  Patient 1 was prescribed
    Aspirin 4 times (twice at each of two dosages, no allergy reported) and
    Aspirin is not in [prescriptionRisks]; patient 2 has no allergy report
    and a single prescription, and [knownSideEffects] is not empty. *)
Lemma detectAllergyRisks_counterexample :
  (count_rows (filter (λ x, medicine_name x.1 = "Aspirin")
                 (prescriptions_of (db Examples.clinic_server) 1)) = 4 ∧
   ∃ res, (detectAllergyRisks 1 Examples.clinic_server).1 = Returned res ∧
          "Aspirin" ∉ (λ e, risk_medicine_name (risk e)) <$>
                        prescriptionRisks res) ∧
  (count_rows (filter (λ x, reported_allergy x.1 = Some true)
                 (prescriptions_of (db Examples.clinic_server) 2)) = 0 ∧
   count_rows (prescriptions_of (db Examples.clinic_server) 2) = 1 ∧
   ∃ res, (detectAllergyRisks 2 Examples.clinic_server).1 = Returned res ∧
          prescriptionRisks res = [] ∧ knownSideEffects res ≠ []).
Proof.
  split.
  - split; [by vm_compute|]. eexists. split; [by vm_compute|].
    apply (bool_decide_unpack _). by vm_compute.
  - split; [by vm_compute|]. split; [by vm_compute|].
    eexists. split; [by vm_compute|]. by cbn.
Qed.

End AllergyRisks.

(* --------------------------------------------------------------------- *)
(** *** Medicine repetition detector *)
(* --------------------------------------------------------------------- *)


Section Repetition.
Import MedicineRepetition.

Lemma detectMedicineRepetition_run pid w :
  detectMedicineRepetition pid w =
  (Returned (if faulty w (issued w) then []
             else describe_repetition <$>
                    order_by_desc row_prescription_count
                      (repetition_of <$>
                         filter (λ g, 2 < count_rows g.2)
                           (group_by (λ x : joined_row, Schema.medicine_name x.1.1)
                              (prescriptions_with_diseases (db w) pid)))),
   tick w).
Proof. apply guarded_select. Qed.

Lemma getMedicineUsageStats_run pid w :
  ∃ stats, getMedicineUsageStats pid w = (Returned stats, tick w) ∧
           0 ≤ total_prescriptions stats.
Proof.
  unfold getMedicineUsageStats, medicine_usage_query.
  rewrite guarded_select. eexists. split; [reflexivity|].
  destruct (faulty w (issued w)); cbn; [done|]. apply count_rows_nonneg.
Qed.

(** What [detectMedicineRepetition] derives from a row of its query: the
    count is carried over, the risk level is 'high' exactly above 4 and
    'moderate' otherwise, the warning starts with the medicine name and the
    count and mentions "dependency" above 4. *)
Lemma describe_repetition_spec (medicine : repetition_row) :
  let m := describe_repetition medicine in
  let n := row_prescription_count medicine in
  medicine_name m = row_medicine_name medicine ∧
  prescription_count m = n ∧
  (risk_level m = "high" ↔ 4 < n) ∧
  (risk_level m = "moderate" ↔ n ≤ 4) ∧
  (∃ rest, warning m =
             row_medicine_name medicine +:+ " prescribed " +:+ pretty n +:+ rest) ∧
  (4 < n → ∃ before after, warning m = before +:+ "dependency" +:+ after).
Proof.
  cbn. split; [done|]. split; [done|].
  destruct (decide (4 < row_prescription_count medicine)) as [Hn|Hn].
  - split; [done|]. split; [split; [done|lia]|].
    split; [by eexists|]. intros _.
    exists (row_medicine_name medicine +:+ " prescribed " +:+
            pretty (row_prescription_count medicine) +:+ " times – risk of "),
           ".".
    rewrite !string_append_assoc. do 3 f_equal.
  - split; [split; [done|lia]|]. split; [split; [lia|done]|].
    split; [by eexists|]. lia.
Qed.

(** [COUNT( * )] of a group of [detectMedicineRepetition]: every
    prescription of the medicine is counted once per diagnosis on the
    patient's record (once if there is none). *)
Lemma prescription_count_fan_out (d : database) (pid : Z) (m : string) :
  count_rows (filter (λ x : joined_row, Schema.medicine_name x.1.1 = m)
                (prescriptions_with_diseases d pid)) =
  count_rows (filter (λ x, Schema.medicine_name x.1 = m)
                (prescriptions_with_appointment d pid)) *
  Z.max 1 (count_rows (filter (λ r, dh_patient_id r = pid) (disease_history d))).
Proof.
  unfold prescriptions_with_diseases, prescriptions_with_appointment.
  set (L := left_join _ appointment_id (prescriptions d) (appointments d)).
  unfold left_join at 1.
  set (J := λ a : prescription_row * option appointment_row,
         match filter (λ b, a_patient_id <$> a.2 = Some (dh_patient_id b))
                 (disease_history d) with
         | [] => [(a, None)]
         | bs => (λ b, (a, Some b)) <$> bs
         end).
  set (Q := λ x : prescription_row * option appointment_row,
         Schema.medicine_name x.1 = m ∧ a_patient_id <$> x.2 = Some pid).
  assert (HJ : ∀ x (y : joined_row), y ∈ J x → y.1 = x).
  { intros x y. unfold J. destruct (filter _ _) as [|b bs].
    - by intros ->%list_elem_of_singleton.
    - by intros (? & -> & _)%list_elem_of_fmap. }
  match goal with |- count_rows ?X = _ =>
    assert (X = filter Q L ≫= J) as -> end.
  { rewrite list_filter_filter, <- (filter_bind_fst Q J L HJ).
    by apply list_filter_iff. }
  match goal with |- _ = count_rows ?Y * _ =>
    assert (Y = filter Q L) as -> end.
  { rewrite list_filter_filter. by apply list_filter_iff. }
  unfold count_rows.
  set (k := length (filter (λ r, dh_patient_id r = pid) (disease_history d))).
  rewrite (length_bind_const J _ (Nat.max 1 k)); [lia|].
  intros x [[_ Hpid] _]%list_elem_of_filter. unfold J. rewrite Hpid.
  match goal with |- length (match ?F with _ => _ end) = _ =>
    assert (length F = k) as Hk;
      [unfold k; f_equal; apply list_filter_iff; intros r;
       split; [by intros [= ->]|by intros ->]|];
    destruct F as [|b bs] end; clearbody k.
  - cbn [length] in Hk |- *. lia.
  - rewrite length_fmap. cbn [length] in Hk |- *. lia.
Qed.

(** What [detectMedicineRepetition] lists when its query is answered: the
    medicines for which the number of prescriptions times the number of
    diagnoses on record (at least 1) exceeds 2, each with that product as
    its [prescription_count]. *)
Lemma detectMedicineRepetition_lists (pid : Z) (w : world) :
  faulty w (issued w) = false →
  let prescribed (m : string) :=
    count_rows (filter (λ x, Schema.medicine_name x.1 = m)
                  (prescriptions_with_appointment (db w) pid)) in
  let diagnoses :=
    count_rows (filter (λ r, dh_patient_id r = pid) (disease_history (db w))) in
  ∃ res,
    (detectMedicineRepetition pid w).1 = Returned res ∧
    (∀ m, m ∈ medicine_name <$> res ↔ 2 < prescribed m * Z.max 1 diagnoses) ∧
    (∀ e, e ∈ res →
          prescription_count e =
          prescribed (medicine_name e) * Z.max 1 diagnoses).
Proof.
  intros Hok prescribed diagnoses.
  rewrite detectMedicineRepetition_run, Hok. eexists. split; [reflexivity|].
  set (rows := prescriptions_with_diseases (db w) pid).
  assert (Hgroup : ∀ k g,
    (k, g) ∈ filter (λ g : string * list joined_row, 2 < count_rows g.2)
               (group_by (λ x : joined_row, Schema.medicine_name x.1.1) rows) ↔
    g = filter (λ x : joined_row, Schema.medicine_name x.1.1 = k) rows ∧
    2 < prescribed k * Z.max 1 diagnoses).
  { intros k g. rewrite list_elem_of_filter, elem_of_group_by. cbn [snd].
    unfold prescribed, diagnoses. rewrite <- prescription_count_fan_out.
    fold rows. split.
    - by intros (Hc & _ & ->).
    - intros [-> Hc]. split; [done|]. split; [|done].
      match type of Hc with
      | 2 < count_rows ?F =>
          destruct F as [|x xs] eqn:Hf;
            [unfold count_rows in Hc; cbn [length] in Hc; lia|];
          assert (x ∈ F) as Hx by (rewrite Hf; left)
      end.
      rewrite Hf in Hx. rewrite <- Hf in Hx.
      apply list_elem_of_filter in Hx as [<- Hx].
      by apply (list_elem_of_fmap_2
                  (λ x : joined_row, Schema.medicine_name x.1.1)). }
  split.
  - intros m. rewrite <- !list_fmap_compose, list_elem_of_fmap. split.
    + intros (r & -> & Hr). rewrite order_by_desc_perm in Hr.
      apply list_elem_of_fmap in Hr as ([k g] & -> & Hg).
      by apply Hgroup in Hg as [_ ?].
    + intros Hm. eexists. split; [|rewrite order_by_desc_perm;
        apply list_elem_of_fmap_2, Hgroup; split; [reflexivity|exact Hm]].
      done.
  - intros e (r & -> & Hr)%list_elem_of_fmap.
    rewrite order_by_desc_perm in Hr.
    apply list_elem_of_fmap in Hr as ([k g] & -> & Hg).
    apply Hgroup in Hg as [-> _]. cbn.
    unfold prescribed, diagnoses. by rewrite <- prescription_count_fan_out.
Qed.

(** Claim C2 at a failing input.  Patient 1 of [Examples.one_prescription]
    has one prescription (Aspirin) and three diagnoses on record;
    [detectMedicineRepetition] lists Aspirin, with [prescription_count] 3,
    the number of rows of the join with [disease_history], with risk level
    'moderate' and the warning of 3 prescriptions, although the medicine
    was prescribed once. *)
Theorem detectMedicineRepetition_counts_joined_rows :
  count_rows
    (prescriptions_with_appointment Examples.one_prescription 1) = 1 ∧
  ∃ e,
    (detectMedicineRepetition 1
       (Examples.healthy Examples.one_prescription)).1 = Returned [e] ∧
    medicine_name e = "Aspirin" ∧
    prescription_count e = 3 ∧
    risk_level e = "moderate" ∧
    warning e = "Aspirin prescribed 3 times – monitor usage.".
Proof.
  split; [by vm_compute|].
  eexists. split; [vm_compute; reflexivity|].
  cbn [medicine_name prescription_count risk_level warning]. by repeat split.
Qed.

End Repetition.

(* --------------------------------------------------------------------- *)
(** *** Risk score aggregator *)
(* --------------------------------------------------------------------- *)


Section RiskScore.
Import HealthIntelligence.





Lemma determineRiskLevel_thresholds (s : Z) :
  ((determineRiskLevel s).1 = "critical" ↔ 80 ≤ s) ∧
  ((determineRiskLevel s).1 = "high" ↔ 60 ≤ s < 80) ∧
  ((determineRiskLevel s).1 = "moderate" ↔ 40 ≤ s < 60) ∧
  ((determineRiskLevel s).1 = "low" ↔ s < 40) ∧
  (s < 20 → (determineRiskLevel s).2 = "✅ Your health is in good condition") ∧
  (20 ≤ s < 40 →
     (determineRiskLevel s).2 = "🟢 LOW RISK: Continue regular check-ups").
Proof.
  unfold determineRiskLevel.
  repeat (destruct (decide _)); cbn [fst snd];
    repeat split; intros; try done; try lia.
Qed.

(** The INSERT of [calculateHealthRiskScore] is rejected on every store and
    with every argument. *)
Lemma pool_query_upsert_health_risk_score pid s l f (w : world) :
  ∃ e, pool_query (upsert_health_risk_score pid s l f) w = (Thrown e, tick w).
Proof.
  unfold pool_query, upsert_health_risk_score.
  destruct (faulty w (issued w)); by eexists.
Qed.

(** Every call of [calculateHealthRiskScore] ends in the [catch] branch:
    it returns the result "Unable to calculate risk score" and leaves the
    store as it was, after one to five queries. *)
Lemma calculateHealthRiskScore_run (pid : Z) (w : world) :
  ∃ w', calculateHealthRiskScore pid w = (Returned unable_to_calculate, w') ∧
        db w' = db w ∧ now w' = now w ∧ faulty w' = faulty w ∧
        (issued w < issued w' ≤ issued w + 5)%nat.
Proof.
  unfold calculateHealthRiskScore, try_catch.
  unfold patient_age_query, medicine_freq_query, disease_freq_query,
    allergy_count_query.
  rewrite bind_select.
  destruct (faulty w (issued w)) eqn:F1;
    [eexists; split; [reflexivity|cbn; repeat split; lia]|].
  rewrite bind_select. cbn [faulty issued tick].
  destruct (faulty w (S (issued w))) eqn:F2;
    [eexists; split; [reflexivity|cbn; repeat split; lia]|].
  rewrite bind_select. cbn [faulty issued tick].
  destruct (faulty w (S (S (issued w)))) eqn:F3;
    [eexists; split; [reflexivity|cbn; repeat split; lia]|].
  rewrite bind_select. cbn [faulty issued tick].
  destruct (faulty w (S (S (S (issued w))))) eqn:F4;
    [eexists; split; [reflexivity|cbn; repeat split; lia]|].
  cbv zeta. unfold bind.
  match goal with
  | |- context [pool_query (upsert_health_risk_score ?p ?s ?l ?f) ?w4] =>
      destruct (pool_query_upsert_health_risk_score p s l f w4) as [e ->]
  end.
  eexists. split; [reflexivity|cbn; repeat split; lia].
Qed.

Lemma calculateHealthRiskScore_outcome (pid : Z) (w : world) :
  let out := calculateHealthRiskScore pid w in
  out.1 = Returned unable_to_calculate ∧ db out.2 = db w ∧
  now out.2 = now w ∧ faulty out.2 = faulty w ∧
  (issued w < issued out.2 ≤ issued w + 5)%nat.
Proof.
  destruct (calculateHealthRiskScore_run pid w) as (w' & Hrun & H).
  rewrite Hrun. cbn [fst snd]. by split.
Qed.

(** Claim C1, as the code behaves.  Let the risk score of a patient be
    requested twice, the second time at any later moment (of the same
    calendar day or not).  Both calls of [calculateHealthRiskScore] return
    the result "Unable to calculate risk score" (score 0, level 'unknown'),
    because the server rejects the INSERT with its conflict target
    [(patient_id, calculated_at::DATE)]; neither call changes
    [health_risk_score].  So a patient without a row for the day has none
    afterwards, not one: nothing is upserted and nothing is appended. *)
Theorem calculateHealthRiskScore_persists_nothing
    (pid : Z) (w : world) (later : Timestamp) :
  let first := calculateHealthRiskScore pid w in
  let second := calculateHealthRiskScore pid (at_time later first.2) in
  let day := date_of (now w) in
  first.1 = Returned unable_to_calculate ∧
  second.1 = Returned unable_to_calculate ∧
  health_risk_score (db first.2) = health_risk_score (db w) ∧
  health_risk_score (db second.2) = health_risk_score (db w) ∧
  (rows_of_day pid day (health_risk_score (db w)) = [] →
   rows_of_day pid day (health_risk_score (db second.2)) = []).
Proof.
  intros first second day.
  destruct (calculateHealthRiskScore_outcome pid w) as (Hr1 & Hdb1 & _).
  destruct (calculateHealthRiskScore_outcome pid (at_time later first.2))
    as (Hr2 & Hdb2 & _).
  fold first in Hr1, Hdb1. fold second in Hr2, Hdb2.
  cbn [db at_time] in Hdb2.
  split; [exact Hr1|]. split; [exact Hr2|].
  split; [by rewrite Hdb1|].
  split; [by rewrite Hdb2, Hdb1|].
  by rewrite Hdb2, Hdb1.
Qed.

Lemma calculateHealthRiskScore_persists_nothing_witness :
  date_of Examples.evening = date_of (now Examples.clinic_server) ∧
  Examples.first_score.1 = Returned unable_to_calculate ∧
  Examples.second_score.1 = Returned unable_to_calculate ∧
  length (rows_of_day 1 (date_of (now Examples.clinic_server))
            (health_risk_score (db Examples.second_score.2))) = 0%nat.
Proof.
  destruct (calculateHealthRiskScore_persists_nothing 1 Examples.clinic_server
              Examples.evening) as (Hfirst & Hsecond & _ & _ & Hnone).
  split; [reflexivity|]. split; [exact Hfirst|]. split; [exact Hsecond|].
  unfold Examples.second_score, Examples.first_score.
  rewrite Hnone; reflexivity.
Defined.

End RiskScore.

(* --------------------------------------------------------------------- *)
(** *** Enhanced risk score *)
(* --------------------------------------------------------------------- *)


Section Enhanced.
Import MedicineRepetition EnhancedHealthRisk.

Lemma determineLevel_known s : determineLevel s ≠ "unknown".
Proof. unfold determineLevel. by repeat (destruct (decide _)). Qed.

Lemma determineLevel_thresholds (s : Z) :
  (EnhancedHealthRisk.determineLevel s = "critical" ↔ 75 ≤ s) ∧
  (EnhancedHealthRisk.determineLevel s = "high" ↔ 50 ≤ s < 75) ∧
  (EnhancedHealthRisk.determineLevel s = "moderate" ↔ 25 ≤ s < 50) ∧
  (EnhancedHealthRisk.determineLevel s = "low" ↔ s < 25).
Proof.
  unfold EnhancedHealthRisk.determineLevel.
  repeat (destruct (decide _)); repeat split; intros; try done; try lia.
Qed.

(** [calculateEnhancedHealthRiskScore] always returns: the score is the
    capped sum of the points of the factors listed, and the level is either
    'unknown' (patient missing or query rejected, score 0, no factor) or
    the level of the score. *)
Lemma calculateEnhancedHealthRiskScore_outcome (pid : Z) (w : world) :
  ∃ v,
    (calculateEnhancedHealthRiskScore pid w).1 = Returned v ∧
    score v = Z.min (HealthIntelligence.sum_of (points <$> factors v)) 100 ∧
    Forall (λ f, 0 < points f ≤ 20) (factors v) ∧
    0 ≤ score v ≤ 90 ∧
    ((level v = "unknown" ∧ score v = 0 ∧ factors v = [] ∧
      ((pid ∉ Schema.patient_id <$> patients (db w)) ∨ fault_within w 5)) ∨
     (level v = determineLevel (score v) ∧
      pid ∈ Schema.patient_id <$> patients (db w))).
Proof.
  unfold calculateEnhancedHealthRiskScore, try_catch.
  unfold HealthIntelligence.patient_age_query, repeated_diseases_query,
    doctor_count_query.
  rewrite bind_select.
  destruct (faulty w (issued w)) eqn:F1.
  { eexists. cbn. repeat split; try done. left. repeat split; try done.
    right. exists 0%nat. split; [lia|]. by rewrite Nat.add_0_r. }
  set (patientRes := Schema.age <$> filter _ _).
  destruct (decide (length patientRes = 0%nat)) as [Hlen|Hlen].
  { eexists. cbn. repeat split; try done. left. repeat split; try done. left.
    intros (p & Hp & Hin)%list_elem_of_fmap.
    assert (p ∈ filter (λ p, Schema.patient_id p = pid) (patients (db w)))
      as Hin' by (by apply list_elem_of_filter).
    unfold patientRes in Hlen. rewrite length_fmap in Hlen.
    destruct (filter _ _); [by apply elem_of_nil in Hin'|done]. }
  assert (Hpid : pid ∈ Schema.patient_id <$> patients (db w)).
  { unfold patientRes in Hlen. rewrite length_fmap in Hlen.
    destruct (filter _ _) as [|p ps] eqn:Hf; [done|].
    assert (p ∈ filter (λ p, Schema.patient_id p = pid) (patients (db w)))
      as [Hp Hin]%list_elem_of_filter by (rewrite Hf; left).
    apply list_elem_of_fmap. by exists p. }
  set (a := js_or (head patientRes ≫= id) 0).
  rewrite bind_select. cbn [faulty issued tick].
  destruct (faulty w (S (issued w))) eqn:F2.
  { eexists. cbn. repeat split; try done. left. repeat split; try done.
    right. exists 1%nat. split; [lia|]. by rewrite Nat.add_1_r. }
  cbn [db now tick date_of].
  set (rd := Z.of_nat (length _)).
  assert (0 ≤ rd) as Hrd by (unfold rd; lia).
  rewrite (bind_returned _ _ _ _ _ (detectMedicineRepetition_run pid _)).
  cbn [faulty issued tick db now].
  set (hrm := length (filter _ _)).
  rewrite bind_select. cbn [faulty issued tick].
  destruct (faulty w (S (S (S (issued w))))) eqn:F4.
  { eexists. cbn. repeat split; try done. left. repeat split; try done.
    right. exists 3%nat. split; [lia|].
    by replace (issued w + 3)%nat with (S (S (S (issued w)))) by lia. }
  cbn [db now tick date_of head].
  set (dc := js_or _ 0).
  destruct (getMedicineUsageStats_run pid (tick (tick (tick (tick w)))))
    as (stats & Hstats & _).
  rewrite (bind_returned _ _ _ _ _ Hstats).
  set (tp := MedicineRepetition.total_prescriptions stats).
  unfold bind, new_Date, ret. cbn [fst snd].
  eexists. split; [reflexivity|].
  cbn [score level factors].
  destruct (decide (50 < a)), (decide (0 < rd)), (decide (0 < hrm)%nat),
    (decide (2 < dc)), (decide (2 < rd)), (decide (10 < tp));
    cbn [app fmap list_fmap points HealthIntelligence.sum_of foldr];
    (split; [lia|]); (split; [repeat constructor; cbn [points]; lia|]);
    (split; [lia|]); right; done.
Qed.

End Enhanced.

(* --------------------------------------------------------------------- *)
(** *** Both scorers *)
(* --------------------------------------------------------------------- *)


Section Scorers.
Import HealthIntelligence.

(** Claim C3.  For a patient id that is not in [patients], on a store whose
    risk-score rows reference existing patients (the foreign key), both
    [calculateHealthRiskScore] and [calculateEnhancedHealthRiskScore]
    return, without throwing, score 0, level 'unknown' and no factor. *)
Theorem missing_patient_scores_unknown (pid : Z) (w : world) :
  pid ∉ (patient_id <$> patients (db w)) →
  scores_reference_patients (db w) →
  (∃ v, (calculateHealthRiskScore pid w).1 = Returned v ∧
        score v = 0 ∧ level v = "unknown" ∧ factors v = []) ∧
  (∃ v, (EnhancedHealthRisk.calculateEnhancedHealthRiskScore pid w).1 =
          Returned v ∧
        EnhancedHealthRisk.score v = 0 ∧
        EnhancedHealthRisk.level v = "unknown" ∧
        EnhancedHealthRisk.factors v = []).
Proof.
  intros Habsent Hfk. split.
  - destruct (calculateHealthRiskScore_outcome pid w) as (Hu & _).
    by exists unable_to_calculate.
  - destruct (calculateEnhancedHealthRiskScore_outcome pid w)
      as (v & Hv & _ & _ & _ & [(Hl & Hs & Hf & _)|[_ Hin]]); [|done].
    by exists v.
Qed.

Lemma missing_patient_scores_unknown_witness :
  (99 ∉ patient_id <$> patients (db Examples.clinic_server)) ∧
  scores_reference_patients (db Examples.clinic_server) ∧
  (∃ v, (calculateHealthRiskScore 99 Examples.clinic_server).1 = Returned v ∧
        score v = 0 ∧ level v = "unknown" ∧ factors v = []) ∧
  (∃ v, (EnhancedHealthRisk.calculateEnhancedHealthRiskScore 99 Examples.clinic_server).1 =
          Returned v ∧
        EnhancedHealthRisk.score v = 0 ∧
        EnhancedHealthRisk.level v = "unknown" ∧
        EnhancedHealthRisk.factors v = []).
Proof.
  assert (99 ∉ (patient_id <$> patients (db Examples.clinic_server))) as Habsent
    by (apply (bool_decide_unpack _); by vm_compute).
  assert (scores_reference_patients (db Examples.clinic_server)) as Hfk
    by (intros r Hr; by apply elem_of_nil in Hr).
  split; [exact Habsent|]. split; [exact Hfk|].
  exact (missing_patient_scores_unknown 99 Examples.clinic_server Habsent Hfk).
Defined.

(** Claim C5.  The chain of comparisons with which
    [calculateHealthRiskScore] sets [riskLevel] and [riskDescription] from
    the final score gives 'critical' exactly from 80, 'high' exactly in
    60..79, 'moderate' exactly in 40..59 and 'low' exactly below 40, with
    the "good condition" description below 20 and the "LOW RISK"
    description in 20..39; whenever [calculateEnhancedHealthRiskScore]
    computes a score, its level is 'critical' exactly from 75, 'high'
    exactly in 50..74, 'moderate' exactly in 25..49 and 'low' exactly below
    25. *)
Theorem risk_level_thresholds (pid : Z) (w : world) :
  (∀ finalScore : Z,
     let riskLevel := (determineRiskLevel finalScore).1 in
     let riskDescription := (determineRiskLevel finalScore).2 in
     (riskLevel = "critical" ↔ 80 ≤ finalScore) ∧
     (riskLevel = "high" ↔ 60 ≤ finalScore < 80) ∧
     (riskLevel = "moderate" ↔ 40 ≤ finalScore < 60) ∧
     (riskLevel = "low" ↔ finalScore < 40) ∧
     (finalScore < 20 →
        riskDescription = "✅ Your health is in good condition") ∧
     (20 ≤ finalScore < 40 →
        riskDescription = "🟢 LOW RISK: Continue regular check-ups")) ∧
  (∀ v, (EnhancedHealthRisk.calculateEnhancedHealthRiskScore pid w).1 =
          Returned v →
        EnhancedHealthRisk.level v ≠ "unknown" →
        (EnhancedHealthRisk.level v = "critical" ↔
           75 ≤ EnhancedHealthRisk.score v) ∧
        (EnhancedHealthRisk.level v = "high" ↔
           50 ≤ EnhancedHealthRisk.score v < 75) ∧
        (EnhancedHealthRisk.level v = "moderate" ↔
           25 ≤ EnhancedHealthRisk.score v < 50) ∧
        (EnhancedHealthRisk.level v = "low" ↔
           EnhancedHealthRisk.score v < 25)).
Proof.
  split.
  - intros finalScore. cbv zeta. apply determineRiskLevel_thresholds.
  - intros v Hv Hknown.
    destruct (calculateEnhancedHealthRiskScore_outcome pid w)
      as (v' & Hv' & _ & _ & _ & [(Hl & _)|[Hl _]]);
      rewrite Hv' in Hv; injection Hv as <-; [done|].
    rewrite Hl. apply determineLevel_thresholds.
Qed.

Lemma risk_level_thresholds_witness :
  (determineRiskLevel 66).1 = "high" ∧
  (determineRiskLevel 100).1 = "critical" ∧
  ∃ e,
    (EnhancedHealthRisk.calculateEnhancedHealthRiskScore 1
       Examples.clinic_server).1 = Returned e ∧
    EnhancedHealthRisk.score e = 50 ∧
    EnhancedHealthRisk.level e ≠ "unknown" ∧
    (EnhancedHealthRisk.level e = "high" ↔
       50 ≤ EnhancedHealthRisk.score e < 75).
Proof.
  destruct (risk_level_thresholds 1 Examples.clinic_server) as [Hbasic Henh].
  split; [apply (Hbasic 66); lia|]. split; [apply (Hbasic 100); lia|].
  destruct (EnhancedHealthRisk.calculateEnhancedHealthRiskScore 1
              Examples.clinic_server) as [[e|?] w2] eqn:He;
    [|vm_compute in He; discriminate He].
  assert (EnhancedHealthRisk.score e = 50) as Hscore
    by (vm_compute in He; injection He as <- _; reflexivity).
  assert (EnhancedHealthRisk.level e ≠ "unknown") as Hle
    by (vm_compute in He; injection He as <- _; discriminate).
  cbn [fst] in Henh.
  destruct (Henh e eq_refl Hle) as (_ & Hhigh & _).
  exists e.
  split; [reflexivity|]. split; [exact Hscore|]. split; [exact Hle|exact Hhigh].
Defined.



End Scorers.

(* --------------------------------------------------------------------- *)
(** *** Fail-open boundary *)
(* --------------------------------------------------------------------- *)


Section FailOpen.
Import HealthIntelligence.

(** Claim C4.  [detectDiseasePatterns], [detectAllergyRisks],
    [detectMedicineRepetition] and [calculateHealthRiskScore] always return
    and never throw; and when one of the queries a call issues is rejected,
    the result is the default of the function: the empty list, the two
    empty risk lists, or score 0 with level 'unknown'. *)
Theorem detectors_fail_open (pid : Z) (w : world) :
  ((∃ v, (detectDiseasePatterns pid w).1 = Returned v) ∧
   (∃ v, (detectAllergyRisks pid w).1 = Returned v) ∧
   (∃ v, (MedicineRepetition.detectMedicineRepetition pid w).1 = Returned v) ∧
   (∃ v, (calculateHealthRiskScore pid w).1 = Returned v)) ∧
  (fault_within w 1 → (detectDiseasePatterns pid w).1 = Returned []) ∧
  (fault_within w 2 →
     (detectAllergyRisks pid w).1 =
     Returned {| prescriptionRisks := []; knownSideEffects := [] |}) ∧
  (fault_within w 1 → (MedicineRepetition.detectMedicineRepetition pid w).1 = Returned []) ∧
  (fault_within w 5 →
     (calculateHealthRiskScore pid w).1 = Returned unable_to_calculate ∧
     score unable_to_calculate = 0 ∧ level unable_to_calculate = "unknown").
Proof.
  split; [split; [|split; [|split]]|split; [|split; [|split]]].
  - rewrite detectDiseasePatterns_run. by eexists.
  - rewrite detectAllergyRisks_run.
    destruct (faulty w (issued w)); [by eexists|].
    destruct (faulty w (S (issued w))); by eexists.
  - rewrite detectMedicineRepetition_run. by eexists.
  - eexists. apply calculateHealthRiskScore_outcome.
  - intros Hf%fault_within_1. by rewrite detectDiseasePatterns_run, Hf.
  - intros Hf. rewrite detectAllergyRisks_run.
    apply fault_within_S in Hf as [->|Hf%fault_within_1]; [done|].
    cbn [faulty issued tick] in Hf. rewrite Hf.
    by destruct (faulty w (issued w)).
  - intros Hf%fault_within_1. by rewrite detectMedicineRepetition_run, Hf.
  - intros Hf. split; [|done]. apply calculateHealthRiskScore_outcome.
Qed.

Lemma detectors_fail_open_witness :
  fault_within Examples.clinic_server_down 1 ∧ fault_within Examples.clinic_server_down 2 ∧ fault_within Examples.clinic_server_down 5 ∧
  (detectDiseasePatterns 1 Examples.clinic_server_down).1 = Returned [] ∧
  (detectAllergyRisks 1 Examples.clinic_server_down).1 =
    Returned {| prescriptionRisks := []; knownSideEffects := [] |} ∧
  (MedicineRepetition.detectMedicineRepetition 1 Examples.clinic_server_down).1 = Returned [] ∧
  (calculateHealthRiskScore 1 Examples.clinic_server_down).1 = Returned unable_to_calculate.
Proof.
  assert (∀ n, fault_within Examples.clinic_server_down (S n)) as Hf
    by (intros n; exists 0%nat; split; [lia|reflexivity]).
  destruct (detectors_fail_open 1 Examples.clinic_server_down) as (_ & Hd & Ha & Hm & Hc).
  split; [apply Hf|]. split; [apply Hf|]. split; [apply Hf|].
  split; [apply Hd, Hf|]. split; [apply Ha, Hf|]. split; [apply Hm, Hf|].
  apply Hc, Hf.
Defined.

End FailOpen.

(* --------------------------------------------------------------------- *)
(** *** Chat authorisation *)
(* --------------------------------------------------------------------- *)


Section ChatAuthorisation.
Import Chat.

(** Every row of the SELECT of [sendMessage] stems from an appointment row
    of the given id whose patient and doctor ids bound the parties read. *)
Lemma appointment_query_rows (appointmentId : Z) (d : database) (t : Timestamp)
    (rows : list appointment_with_parties) (d' : database) :
  appointment_query appointmentId d t = Returned (rows, d') →
  d' = d ∧
  (∀ row, row ∈ rows →
     ∃ a, a ∈ appointments d ∧ Schema.appointment_id a = appointmentId ∧
          (∀ p, patient_id row = Some p → a_patient_id a = p) ∧
          (∀ p, doctor_id row = Some p → a_doctor_id a = p)) ∧
  (appointmentId ∈ Schema.appointment_id <$> appointments d → rows ≠ []).
Proof.
  unfold appointment_query, select. intros [= <- <-].
  split; [done|]. split.
  - intros row ([[a op] od] & -> & Hx)%list_elem_of_fmap.
    apply list_elem_of_filter in Hx as [Hid Hx]. cbn [fst snd] in Hid.
    apply elem_of_left_join in Hx as [Hx Hod]. cbn [fst snd] in Hod.
    apply elem_of_left_join in Hx as [Ha Hop].
    exists a. split; [done|]. split; [done|].
    cbn [patient_id doctor_id fst snd]. split.
    + intros p Hp. destruct op as [pr|]; [|done].
      destruct Hop as [_ [= ->]]. by injection Hp.
    + intros p Hp. destruct od as [dr|]; [|done].
      destruct Hod as [_ [= ->]]. by injection Hp.
  - intros (a & Hid & Ha)%list_elem_of_fmap Hnil.
    destruct (left_join_total (λ a, Some (a_patient_id a)) Schema.patient_id
                (appointments d) (patients d) a Ha) as [op Hop].
    destruct (left_join_total
                (λ x : appointment_row * option patient_row, Some (a_doctor_id x.1))
                Schema.doctor_id _ (doctors d) (a, op) Hop) as [od Hod].
    apply fmap_nil_inv in Hnil.
    assert ((a, op, od) ∈ @nil (appointment_row * option patient_row * option doctor_row))
      as Hin; [|by apply elem_of_nil in Hin].
    rewrite <- Hnil. apply list_elem_of_filter. split; [done|]. exact Hod.
Qed.

(** Claim C9.  When the sender is, in the role given, neither the patient
    nor the doctor of any appointment row with the given id, [sendMessage]
    throws to its caller and leaves the store, and with it the messages,
    unchanged; when moreover the appointment exists and the query is
    answered, the error thrown is the "Unauthorized" one. *)
Theorem sendMessage_rejects_outsiders
    (appointmentId senderId : Z) (senderRole : string)
    (messageText : option string) (w : world) :
  (∀ a, a ∈ appointments (db w) →
        Schema.appointment_id a = appointmentId →
        ¬ is_party a senderId senderRole) →
  let out := sendMessage appointmentId senderId senderRole messageText w in
  (∃ e, out.1 = Thrown e) ∧
  db out.2 = db w ∧
  (faulty w (issued w) = false →
   appointmentId ∈ Schema.appointment_id <$> appointments (db w) →
   out.1 = Thrown (Error "Unauthorized: sender not part of this appointment")).
Proof.
  intros Houtsider. unfold sendMessage, try_catch, bind, pool_query, throw.
  destruct (faulty w (issued w)) eqn:F1.
  { cbn. split; [by eexists|]. done. }
  destruct (appointment_query appointmentId (db w) (now w))
    as [[rows d']|e] eqn:Hq; [|done].
  apply appointment_query_rows in Hq as (-> & Hrows & Hsome).
  destruct rows as [|appointment rows].
  { cbn. split; [by eexists|]. split; [done|].
    intros _ Hin. by destruct (Hsome Hin). }
  destruct (Hrows appointment) as (a & Ha & Hid & Hp & Hd); [left|].
  specialize (Houtsider a Ha Hid).
  assert (Hinvalid :
    bool_decide (senderRole = "patient" ∧ patient_id appointment = Some senderId)
    || bool_decide (senderRole = "doctor" ∧ doctor_id appointment = Some senderId)
    = false).
  { apply orb_false_iff. split; apply bool_decide_eq_false; intros [Hr Hs];
      apply Houtsider; [left|right]; split; auto. }
  rewrite Hinvalid. cbn. split; [by eexists|]. done.
Qed.

Lemma sendMessage_rejects_outsiders_witness :
  (∀ a, a ∈ appointments (db Examples.clinic_server) →
        Schema.appointment_id a = 10 → ¬ is_party a 999 "patient") ∧
  faulty Examples.clinic_server (issued Examples.clinic_server) = false ∧
  10 ∈ Schema.appointment_id <$> appointments (db Examples.clinic_server) ∧
  Examples.outsider_message.1 =
    Thrown (Error "Unauthorized: sender not part of this appointment") ∧
  db Examples.outsider_message.2 = db Examples.clinic_server.
Proof.
  assert (∀ a, a ∈ appointments (db Examples.clinic_server) →
               Schema.appointment_id a = 10 → ¬ is_party a 999 "patient")
    as Houtsider.
  { intros a Ha Hid [[_ Hp]|[Hr _]]; [|done]. cbn in Ha.
    repeat (apply elem_of_cons in Ha as [->|Ha]; [by cbn in *|]).
    by apply elem_of_nil in Ha. }
  assert (10 ∈ Schema.appointment_id <$> appointments (db Examples.clinic_server))
    as Hin by (apply (bool_decide_unpack _); by vm_compute).
  destruct (sendMessage_rejects_outsiders 10 999 "patient" (Some "Hello")
              Examples.clinic_server Houtsider) as (_ & Hdb & Hthrown).
  split; [exact Houtsider|]. split; [reflexivity|]. split; [exact Hin|].
  split; [exact (Hthrown eq_refl Hin)|exact Hdb].
Defined.

End ChatAuthorisation.

(* --------------------------------------------------------------------- *)
(** *** The reference codec *)
(* --------------------------------------------------------------------- *)

Section Codec.
Import Cache.

Lemma append_nil_l (s : string) : "" +:+ s = s.
Proof. reflexivity. Qed.

Lemma append_cons (c : ascii) (s t : string) :
  String c s +:+ t = String c (s +:+ t).
Proof. reflexivity. Qed.

Lemma strip_prefix_app (p rest : string) :
  strip_prefix p (p +:+ rest) = Some rest.
Proof.
  induction p as [|c p IH]; [done|].
  rewrite append_cons. cbn [strip_prefix]. by rewrite decide_True.
Qed.

Lemma parse_chars_escape (s rest : string) :
  parse_chars (escape s +:+ String dquote rest) = Some (s, rest).
Proof.
  induction s as [|c s IH]; [done|].
  cbn [escape]. unfold escape_char.
  destruct (decide (c = dquote ∨ c = backslash)) as [Hc|Hc];
    rewrite ?append_cons, append_nil_l; cbn [parse_chars].
  - rewrite (decide_False (P := backslash = dquote)) by done.
    rewrite (decide_True (P := backslash = backslash)) by done.
    rewrite (decide_True (P := c = dquote ∨ c = backslash)) by done.
    by rewrite IH.
  - rewrite (decide_False (P := c = dquote)) by tauto.
    rewrite (decide_False (P := c = backslash)) by tauto.
    by rewrite IH.
Qed.

Lemma pretty_N_char_digit (d : N) :
  (d < 10)%N →
  is_digit (pretty_N_char d) = true ∧
  digit_value (pretty_N_char d) = Z.of_N d ∧
  (d ≠ 0%N → pretty_N_char d ≠ "0"%char).
Proof.
  intros Hd.
  assert (d = 0 ∨ d = 1 ∨ d = 2 ∨ d = 3 ∨ d = 4 ∨ d = 5 ∨ d = 6 ∨ d = 7 ∨
          d = 8 ∨ d = 9)%N as Hcases by lia.
  repeat (destruct Hcases as [->|Hcases]); try subst d;
    (split; [by vm_compute|]; split; [by vm_compute|]; intros Hne; vm_compute;
     congruence).
Qed.

Lemma pretty_N_go_app (x : N) (s rest : string) :
  pretty_N_go x s +:+ rest = pretty_N_go x (s +:+ rest).
Proof.
  revert s. induction (N.lt_wf_0 x) as [x _ IH]; intros s.
  destruct (decide (x = 0%N)) as [->|Hx]; [by rewrite !pretty_N_go_0|].
  rewrite (pretty_N_go_step x s) by lia.
  rewrite (pretty_N_go_step x (s +:+ rest)) by lia.
  rewrite IH; [done|]. apply N.div_lt; lia.
Qed.

Lemma parse_digits_pretty (x : N) (s : string) :
  ∃ k : Z, ∀ acc,
    parse_digits acc (pretty_N_go x s) =
    parse_digits (acc * k + Z.of_N x) s.
Proof.
  revert s. induction (N.lt_wf_0 x) as [x _ IH]; intros s.
  destruct (decide (x = 0%N)) as [->|Hx].
  { exists 1%Z. intros acc. rewrite pretty_N_go_0. f_equal. lia. }
  rewrite pretty_N_go_step by lia.
  destruct (IH (x `div` 10)%N ltac:(apply N.div_lt; lia)
              (String (pretty_N_char (x `mod` 10)) s)) as [k Hk].
  exists (k * 10)%Z. intros acc. rewrite Hk. cbn [parse_digits].
  destruct (pretty_N_char_digit (x `mod` 10)%N) as (-> & -> & _).
  { apply N.mod_lt. lia. }
  f_equal. pose proof (N.div_mod x 10 ltac:(lia)). lia.
Qed.

Lemma pretty_N_go_head (x : N) (s : string) :
  (0 < x)%N →
  ∃ c r, pretty_N_go x s = String c r ∧ is_digit c = true ∧ c ≠ "0"%char.
Proof.
  revert s. induction (N.lt_wf_0 x) as [x _ IH]; intros s Hx.
  rewrite pretty_N_go_step by lia.
  destruct (decide (x `div` 10 = 0)%N) as [Hq|Hq].
  - rewrite Hq, pretty_N_go_0.
    destruct (pretty_N_char_digit (x `mod` 10)%N) as (Hd & _ & Hnz).
    { apply N.mod_lt. lia. }
    eexists _, _. split; [done|]. split; [done|]. apply Hnz.
    pose proof (N.div_mod x 10 ltac:(lia)). lia.
  - apply IH; [apply N.div_lt; lia|]. by apply N.neq_0_lt_0.
Qed.

Lemma parse_digits_delimited (acc : Z) (rest : string) :
  delimited rest → parse_digits acc rest = (acc, rest).
Proof. destruct rest as [|c r]; cbn; [done|]. by intros ->. Qed.

Lemma parse_natural_pretty (x : N) (rest : string) :
  delimited rest →
  parse_natural (pretty x +:+ rest) = Some (Z.of_N x, rest).
Proof.
  intros Hrest. unfold pretty, pretty_N.
  destruct (decide (x = 0%N)) as [->|Hx].
  - change ("0" +:+ rest) with (String "0" rest). cbn [parse_natural].
    replace (is_digit "0") with true by (by vm_compute). cbn [negb].
    rewrite decide_True by done.
    destruct rest as [|c r]; [done|]. cbn in Hrest. by rewrite Hrest.
  - rewrite pretty_N_go_app, append_nil_l.
    destruct (pretty_N_go_head x rest ltac:(lia)) as (c & r & Heq & Hc & Hnz).
    destruct (parse_digits_pretty x rest) as [k Hk].
    unfold parse_natural. rewrite Heq, Hc. cbn [negb].
    rewrite decide_False by done. rewrite <- Heq, Hk.
    rewrite parse_digits_delimited by done. do 2 f_equal.
Qed.

Lemma digit_not_special (c : ascii) :
  is_digit c = true →
  c ≠ "n"%char ∧ c ≠ "t"%char ∧ c ≠ "f"%char ∧ c ≠ dquote ∧ c ≠ "-"%char ∧
  c ≠ "]"%char ∧ c ≠ "}"%char.
Proof.
  intros Hc. repeat split; intros ->; by vm_compute in Hc.
Qed.

Lemma parse_value_number (fuel : nat) (c : ascii) (r : string) :
  is_digit c = true →
  parse_value (S fuel) (String c r) =
  (λ x, (JNumber x.1, x.2)) <$> parse_natural (String c r).
Proof.
  intros Hc. destruct (digit_not_special c Hc) as (? & ? & ? & ? & ? & _).
  cbn [parse_value]. rewrite !decide_False by done. by rewrite Hc.
Qed.

Lemma parse_value_array (fuel : nat) (c : ascii) (r : string) :
  c ≠ "]"%char →
  parse_value (S fuel) (String "[" (String c r)) =
  (λ x, (JArray x.1, x.2)) <$> parse_items (parse_value fuel) fuel (String c r).
Proof.
  intros Hc. cbn [parse_value].
  rewrite (decide_False (P := "["%char = "n"%char)) by done.
  rewrite (decide_False (P := "["%char = "t"%char)) by done.
  rewrite (decide_False (P := "["%char = "f"%char)) by done.
  rewrite (decide_False (P := "["%char = dquote)) by done.
  rewrite (decide_False (P := "["%char = "-"%char)) by done.
  replace (is_digit "[") with false by (by vm_compute).
  rewrite (decide_True (P := "["%char = "["%char)) by done.
  by rewrite (decide_False (P := c = "]"%char)) by done.
Qed.

Lemma parse_value_object (fuel : nat) (c : ascii) (r : string) :
  c ≠ "}"%char →
  parse_value (S fuel) (String "{" (String c r)) =
  (λ x, (JObject x.1, x.2)) <$>
    parse_members (parse_value fuel) fuel (String c r).
Proof.
  intros Hc. cbn [parse_value].
  rewrite (decide_False (P := "{"%char = "n"%char)) by done.
  rewrite (decide_False (P := "{"%char = "t"%char)) by done.
  rewrite (decide_False (P := "{"%char = "f"%char)) by done.
  rewrite (decide_False (P := "{"%char = dquote)) by done.
  rewrite (decide_False (P := "{"%char = "-"%char)) by done.
  replace (is_digit "{") with false by (by vm_compute).
  rewrite (decide_False (P := "{"%char = "["%char)) by done.
  rewrite (decide_True (P := "{"%char = "{"%char)) by done.
  by rewrite (decide_False (P := c = "}"%char)) by done.
Qed.

Lemma stringify_head (v : json) :
  ∃ c r, stringify v = String c r ∧ c ≠ "]"%char ∧ c ≠ "}"%char.
Proof.
  destruct v as [|[]|n|s|items|fields]; cbn [stringify];
    try (by eexists _, _).
  unfold pretty, pretty_Z. destruct n as [|p|p].
  - by eexists _, _.
  - unfold pretty, pretty_positive, pretty, pretty_N.
    rewrite decide_False by done.
    destruct (pretty_N_go_head (N.pos p) "" ltac:(lia)) as (c & r & -> & Hc & _).
    destruct (digit_not_special c Hc) as (_ & _ & _ & _ & _ & ? & ?).
    by eexists _, _.
  - by eexists _, _.
Qed.

Lemma parse_items_stringify (element : string → option (json * string))
    (items : list json) (x : json) (n : nat) (rest : string) :
  (∀ v r, v ∈ x :: items → delimited r →
          element (stringify v +:+ r) = Some (v, r)) →
  (length items < n)%nat →
  parse_items element n
    (join_with "," (map stringify (x :: items)) +:+ String "]" rest) =
  Some (x :: items, rest).
Proof.
  revert x n. induction items as [|y items IH]; intros x n Helem Hn.
  - destruct n as [|n]; [lia|]. cbn [map join_with parse_items].
    rewrite Helem; [|by apply elem_of_cons; left|done].
    rewrite decide_False by done. by rewrite decide_True.
  - destruct n as [|n]; [cbn in Hn; lia|].
    change (join_with "," (map stringify (x :: y :: items)))
      with (stringify x +:+ "," +:+ join_with "," (map stringify (y :: items))).
    rewrite !string_append_assoc, append_cons, append_nil_l.
    cbn [parse_items]. rewrite Helem; [|by apply elem_of_cons; left|done].
    rewrite decide_True by done.
    rewrite IH; [done| |cbn in Hn; lia].
    intros v r Hv. apply Helem. apply elem_of_cons. by right.
Qed.

Lemma parse_members_stringify (element : string → option (json * string))
    (fields : list (string * json)) (kx : string * json) (n : nat)
    (rest : string) :
  (∀ kv r, kv ∈ kx :: fields → delimited r →
           element (stringify kv.2 +:+ r) = Some (kv.2, r)) →
  (length fields < n)%nat →
  parse_members element n
    (join_with "," (map member_text (kx :: fields)) +:+ String "}" rest) =
  Some (kx :: fields, rest).
Proof.
  revert kx n. induction fields as [|ky fields IH]; intros [k x] n Helem Hn.
  - destruct n as [|n]; [lia|]. cbn [map join_with member_text].
    unfold quote. rewrite !append_cons, !string_append_assoc.
    rewrite !append_cons, !append_nil_l.
    cbn [parse_members]. rewrite decide_True by done.
    rewrite parse_chars_escape. rewrite decide_True by done.
    rewrite (Helem (k, x)); [|by apply elem_of_cons; left|done].
    rewrite decide_False by done. by rewrite decide_True.
  - destruct n as [|n]; [cbn in Hn; lia|].
    change (join_with "," (map member_text ((k, x) :: ky :: fields)))
      with (member_text (k, x) +:+ "," +:+
            join_with "," (map member_text (ky :: fields))).
    cbn [member_text]. unfold quote at 1.
    rewrite !append_cons, !string_append_assoc.
    rewrite !append_cons, !append_nil_l.
    cbn [parse_members]. rewrite decide_True by done.
    rewrite parse_chars_escape. rewrite decide_True by done.
    rewrite (Helem (k, x)); [|by apply elem_of_cons; left|done].
    rewrite decide_True by done.
    rewrite IH; [done| |cbn in Hn; lia].
    intros v r Hv. apply Helem. apply elem_of_cons. by right.
Qed.

Lemma json_size_pos (v : json) : (1 ≤ json_size v)%nat.
Proof. destruct v; cbn; lia. Qed.

Lemma length_le_sum_sizes {A} (size : A → nat) (l : list A) :
  (∀ a, 1 ≤ size a)%nat → (length l ≤ sum_list_with size l)%nat.
Proof.
  intros Hpos. induction l as [|a l IH]; cbn; [lia|].
  specialize (Hpos a). lia.
Qed.

Lemma size_le_sum_sizes {A} (size : A → nat) (l : list A) (a : A) :
  a ∈ l → (size a ≤ sum_list_with size l)%nat.
Proof.
  induction 1 as [a l|a b l _ IH]; cbn; lia.
Qed.

(** The parser reads a printed value back and stops right after it. *)
Lemma parse_value_stringify (fuel : nat) (v : json) (rest : string) :
  (json_size v ≤ fuel)%nat →
  delimited rest →
  parse_value fuel (stringify v +:+ rest) = Some (v, rest).
Proof.
  revert v rest. induction fuel as [|fuel IH]; intros v rest Hsize Hrest.
  { pose proof (json_size_pos v). lia. }
  destruct v as [|[]|n|s|items|fields].
  - reflexivity.
  - reflexivity.
  - reflexivity.
  - cbn [stringify]. unfold pretty, pretty_Z. destruct n as [|p|p].
    + change ("0" +:+ rest) with (pretty 0%N +:+ rest).
      change (pretty 0%N +:+ rest) with (String "0" rest) at 1.
      rewrite parse_value_number by done.
      change (String "0" rest) with (pretty 0%N +:+ rest).
      by rewrite parse_natural_pretty.
    + change (pretty p) with (pretty (N.pos p)).
      pose proof (parse_natural_pretty (N.pos p) rest Hrest) as Hnat.
      unfold pretty, pretty_N in Hnat |- *.
      rewrite decide_False in Hnat |- * by done.
      rewrite pretty_N_go_app, append_nil_l in Hnat |- *.
      destruct (pretty_N_go_head (N.pos p) rest ltac:(lia))
        as (c & r & Heq & Hc & _).
      rewrite Heq in Hnat |- *. rewrite parse_value_number by done.
      by rewrite Hnat.
    + change (pretty p) with (pretty (N.pos p)).
      rewrite append_cons, append_nil_l, append_cons.
      pose proof (parse_natural_pretty (N.pos p) rest Hrest) as Hnat.
      cbn [parse_value].
      rewrite (decide_False (P := "-"%char = "n"%char)) by done.
      rewrite (decide_False (P := "-"%char = "t"%char)) by done.
      rewrite (decide_False (P := "-"%char = "f"%char)) by done.
      rewrite (decide_False (P := "-"%char = dquote)) by done.
      rewrite (decide_True (P := "-"%char = "-"%char)) by done.
      by rewrite Hnat.
  - cbn [stringify]. unfold quote.
    rewrite append_cons, string_append_assoc, append_cons, append_nil_l.
    cbn [parse_value].
    rewrite (decide_False (P := dquote = "n"%char)) by done.
    rewrite (decide_False (P := dquote = "t"%char)) by done.
    rewrite (decide_False (P := dquote = "f"%char)) by done.
    rewrite (decide_True (P := dquote = dquote)) by done.
    by rewrite parse_chars_escape.
  - cbn [stringify json_size] in Hsize |- *.
    destruct items as [|x items]; [reflexivity|].
    rewrite append_cons, append_nil_l, append_cons, string_append_assoc.
    rewrite append_cons, append_nil_l.
    destruct (stringify_head x) as (c & r & Hhead & Hc & _).
    pose proof (length_le_sum_sizes json_size items json_size_pos) as Hlen.
    pose proof (json_size_pos x) as Hx.
    cbn [sum_list_with] in Hsize.
    assert (parse_items (parse_value fuel) fuel
              (join_with "," (map stringify (x :: items)) +:+ String "]" rest)
            = Some (x :: items, rest)) as Hitems.
    { apply parse_items_stringify; [|lia].
      intros v tail Hv Htail. apply IH; [|done].
      pose proof (size_le_sum_sizes json_size (x :: items) v Hv) as Hle.
      cbn [sum_list_with] in Hle. lia. }
    revert Hitems.
    assert (∃ r', join_with "," (map stringify (x :: items)) +:+
                    String "]" rest = String c r') as [r' ->].
    { destruct items as [|y items].
      - cbn [map join_with]. rewrite Hhead. by eexists.
      - change (join_with "," (map stringify (x :: y :: items)))
          with (stringify x +:+ "," +:+
                join_with "," (map stringify (y :: items))).
        rewrite Hhead. by eexists. }
    intros Hitems. rewrite parse_value_array by done. by rewrite Hitems.
  - cbn [stringify json_size] in Hsize |- *.
    destruct fields as [|kx fields]; [reflexivity|].
    change (map (λ kv : string * json,
                   match kv with
                   | (k, x) => quote k +:+ ":" +:+ stringify x
                   end) (kx :: fields))
      with (map member_text (kx :: fields)).
    rewrite append_cons, append_nil_l, append_cons, string_append_assoc.
    rewrite append_cons, append_nil_l.
    set (size := λ kv : string * json, match kv with (_, x) => json_size x end)
      in Hsize.
    assert (∀ kv, (1 ≤ size kv)%nat) as Hpos.
    { intros [k x]. apply json_size_pos. }
    pose proof (length_le_sum_sizes size fields Hpos) as Hlen.
    pose proof (Hpos kx) as Hx.
    cbn [sum_list_with] in Hsize.
    assert (parse_members (parse_value fuel) fuel
              (join_with "," (map member_text (kx :: fields)) +:+
               String "}" rest)
            = Some (kx :: fields, rest)) as Hfields.
    { apply parse_members_stringify; [|lia].
      intros kv r Hkv Hr. apply IH; [|done].
      pose proof (size_le_sum_sizes size (kx :: fields) kv Hkv) as Hle.
      cbn [sum_list_with] in Hle. destruct kv as [k x]. cbn in Hle |- *. lia. }
    revert Hfields.
    assert (∃ r', join_with "," (map member_text (kx :: fields)) +:+
                    String "}" rest = String dquote r') as [r' ->].
    { destruct kx as [k x]. destruct fields as [|ky fields].
      - cbn [map join_with member_text]. unfold quote. by eexists.
      - change (join_with "," (map member_text ((k, x) :: ky :: fields)))
          with (member_text (k, x) +:+ "," +:+
                join_with "," (map member_text (ky :: fields))).
        cbn [member_text]. unfold quote at 1. by eexists. }
    intros Hfields. rewrite parse_value_object by done. by rewrite Hfields.
Qed.

Lemma append_nil_r (s : string) : s +:+ "" = s.
Proof.
  induction s as [|c s IH]; [done|]. by rewrite append_cons, IH.
Qed.

Lemma length_append (a b : string) :
  String.length (a +:+ b) = (String.length a + String.length b)%nat.
Proof.
  induction a as [|c a IH]; [done|].
  rewrite append_cons. cbn [String.length]. by rewrite IH.
Qed.

Lemma length_join_with (sep : string) (l : list string) :
  (sum_list_with String.length l ≤ String.length (join_with sep l))%nat.
Proof.
  induction l as [|x l IH]; [done|].
  destruct l as [|y l].
  - cbn [join_with sum_list_with]. lia.
  - change (join_with sep (x :: y :: l))
      with (x +:+ sep +:+ join_with sep (y :: l)).
    rewrite !length_append. cbn [sum_list_with] in IH |- *. lia.
Qed.

Lemma sum_list_with_le {A B} (f : A → nat) (g : B → nat) (h : A → B)
    (l : list A) :
  (∀ a, a ∈ l → f a ≤ g (h a))%nat →
  (sum_list_with f l ≤ sum_list_with g (map h l))%nat.
Proof.
  induction l as [|a l IH]; intros Hle; [done|]. cbn [map sum_list_with].
  pose proof (Hle a ltac:(by apply elem_of_cons; left)).
  assert (sum_list_with f l ≤ sum_list_with g (map h l))%nat; [|lia].
  apply IH. intros b Hb. apply Hle. apply elem_of_cons. by right.
Qed.

Lemma stringify_nonempty (v : json) : (1 ≤ String.length (stringify v))%nat.
Proof. destruct (stringify_head v) as (c & r & -> & _). cbn. lia. Qed.

(** A printed value is at least as long as the value is large. *)
Lemma json_size_le_length (n : nat) (v : json) :
  (json_size v ≤ n)%nat → (json_size v ≤ String.length (stringify v))%nat.
Proof.
  revert v. induction n as [|n IH]; intros v Hn.
  { pose proof (json_size_pos v). lia. }
  destruct v as [| | | |items|fields]; try apply stringify_nonempty.
  - cbn [json_size stringify] in Hn |- *.
    rewrite !length_append. cbn [String.length].
    pose proof (length_join_with "," (map stringify items)).
    assert (sum_list_with json_size items ≤
            sum_list_with String.length (map stringify items))%nat; [|lia].
    apply sum_list_with_le. intros a Ha. apply IH.
    pose proof (size_le_sum_sizes json_size items a Ha). lia.
  - cbn [json_size stringify] in Hn |- *.
    change (map (λ kv : string * json,
                   match kv with
                   | (k, x) => quote k +:+ ":" +:+ stringify x
                   end) fields)
      with (map member_text fields).
    set (size := λ kv : string * json, match kv with (_, x) => json_size x end)
      in Hn |- *.
    rewrite !length_append. cbn [String.length].
    pose proof (length_join_with "," (map member_text fields)).
    assert (sum_list_with size fields ≤
            sum_list_with String.length (map member_text fields))%nat; [|lia].
    apply sum_list_with_le. intros [k x] Hkx.
    pose proof (size_le_sum_sizes size fields (k, x) Hkx) as Hle.
    cbn [member_text]. rewrite !length_append.
    assert (json_size x ≤ String.length (stringify x))%nat; [|cbn; lia].
    apply IH. cbn in Hle. lia.
Qed.

(** The reference codec is lawful: parsing a printed value gives the value. *)
Lemma reference_codec_round_trip (v : json) : parse (stringify v) = Some v.
Proof.
  unfold parse.
  rewrite <- (append_nil_r (stringify v)) at 2.
  rewrite parse_value_stringify; [done| |done].
  pose proof (json_size_le_length (json_size v) v ltac:(lia)). lia.
Qed.

End Codec.

(* --------------------------------------------------------------------- *)
(** *** Cache *)
(* --------------------------------------------------------------------- *)


Section CacheRoundTrip.
Import Cache.

Lemma redis_get_set (t0 t1 : Z) (k v : string) (ex : option Z)
    (store : gmap string redis_entry) :
  (∀ ttl, ex = Some ttl → t1 < t0 + ttl) →
  redis_get t1 k (redis_set t0 k v ex store) = Some v.
Proof.
  intros Hlive. unfold redis_get, redis_set. rewrite lookup_insert_eq.
  cbn [expires_at payload]. destruct ex as [ttl|]; cbn; [|done].
  rewrite decide_False; [done|]. specialize (Hlive ttl eq_refl). lia.
Qed.

Lemma getCache_setCache `{JSON} (key : string) (v : json)
    (ttlSeconds : option Z) (store : gmap string redis_entry) (t0 t1 : Z) :
  (0 < default 600 ttlSeconds → t1 < t0 + default 600 ttlSeconds) →
  getCache t1 key (setCache t0 key v ttlSeconds store) =
  let text := match v with JString s => s | _ => JSON_stringify v end in
  match JSON_parse text with
  | Some parsed => parsed
  | None => JString text
  end.
Proof.
  intros Hlive. unfold getCache, setCache.
  destruct (decide (default 600 ttlSeconds ≠ 0 ∧ 0 < default 600 ttlSeconds))
    as [[_ Hpos]|_].
  - rewrite redis_get_set; [done|]. intros ttl [= <-]. by apply Hlive.
  - by rewrite redis_get_set.
Qed.

(** Claim C10.  For every key and every value that is not a bare string (an
    object, an array, a number, a boolean or null) and that the platform's
    JSON functions reproduce, [getCache] after [setCache] returns the value
    itself, as long as the entry has not expired. *)
Theorem cache_round_trip `{JSON} (key : string) (v : json)
    (ttlSeconds : option Z) (store : gmap string redis_entry) (t0 t1 : Z) :
  is_string v = false →
  JSON_parse (JSON_stringify v) = Some v →
  t0 ≤ t1 →
  (0 < default 600 ttlSeconds → t1 < t0 + default 600 ttlSeconds) →
  getCache t1 key (setCache t0 key v ttlSeconds store) = v.
Proof.
  intros Hv Hjson _ Hlive. rewrite getCache_setCache by done.
  destruct v; try discriminate Hv; cbn zeta; by rewrite Hjson.
Qed.

Lemma cache_round_trip_witness :
  is_string Examples.summary = false ∧
  JSON_parse (JSON_stringify Examples.summary) = Some Examples.summary ∧
  0 ≤ 59 ∧
  (0 < default 600 (Some 60) → 59 < 0 + default 600 (Some 60)) ∧
  getCache 59 "patient_summary_1"
    (setCache 0 "patient_summary_1" Examples.summary (Some 60) ∅) =
  Examples.summary.
Proof.
  assert (JSON_parse (JSON_stringify Examples.summary) = Some Examples.summary)
    as Hjson by (by vm_compute).
  assert (0 < default 600 (Some 60) → 59 < 0 + default 600 (Some 60))
    as Hlive by (cbn; lia).
  split; [reflexivity|]. split; [exact Hjson|]. split; [lia|].
  split; [exact Hlive|].
  apply (cache_round_trip "patient_summary_1" Examples.summary (Some 60) ∅ 0 59
           eq_refl Hjson ltac:(lia) Hlive).
Defined.

(** With the reference codec every value is reproduced, so the round trip
    holds for every value that is not a bare string. *)
Corollary cache_round_trip_reference (key : string) (v : json)
    (ttlSeconds : option Z) (store : gmap string redis_entry) (t0 t1 : Z) :
  is_string v = false →
  (0 < default 600 ttlSeconds → t1 < t0 + default 600 ttlSeconds) →
  getCache t1 key (setCache t0 key v ttlSeconds store) = v.
Proof.
  intros Hv Hlive. rewrite getCache_setCache by done.
  destruct v; try discriminate Hv; cbn zeta;
    match goal with
    | |- context [JSON_parse (JSON_stringify ?x)] =>
        change (JSON_parse (JSON_stringify x)) with (parse (stringify x))
    end; by rewrite reference_codec_round_trip.
Qed.

(** A bare string is stored as it is and comes back as the same string when
    it is not itself JSON text. *)
Lemma cache_plain_string `{JSON} (key s : string)
    (ttlSeconds : option Z) (store : gmap string redis_entry) (t0 t1 : Z) :
  JSON_parse s = None →
  (0 < default 600 ttlSeconds → t1 < t0 + default 600 ttlSeconds) →
  getCache t1 key (setCache t0 key (JString s) ttlSeconds store) = JString s.
Proof.
  intros Hs Hlive. rewrite getCache_setCache by done. cbn zeta. by rewrite Hs.
Qed.

(** ...and comes back as the parsed value when it is: the string "123"
    is read back as the number 123. *)
Remark cache_numeric_string :
  getCache 5 "foo" (setCache 0 "foo" (JString "123") (Some 600) ∅) =
  JNumber 123.
Proof. by vm_compute. Qed.

End CacheRoundTrip.

(* ===================================================================== *)
(** ** Further properties of the code                                     *)
(* ===================================================================== *)

(* --------------------------------------------------------------------- *)
(** *** Lists, filters and the stable sort of arrays *)

Lemma filter_ext_elem {A} (P Q : A → Prop) `{∀ x, Decision (P x)}
    `{∀ x, Decision (Q x)} (l : list A) :
  (∀ x, x ∈ l → P x ↔ Q x) → filter P l = filter Q l.
Proof.
  induction l as [|x l IH]; intros Heq; [done|].
  rewrite !filter_cons, IH by (intros y Hy; apply Heq; by right).
  specialize (Heq x ltac:(left)).
  destruct (decide (P x)), (decide (Q x)); tauto.
Qed.

Lemma filter_all {A} (P : A → Prop) `{∀ x, Decision (P x)} (l : list A) :
  (∀ x, x ∈ l → P x) → filter P l = l.
Proof.
  induction l as [|x l IH]; intros Hall; [done|].
  rewrite filter_cons_True by (apply Hall; left).
  f_equal. apply IH. intros y Hy. apply Hall. by right.
Qed.

Lemma filter_none {A} (P : A → Prop) `{∀ x, Decision (P x)} (l : list A) :
  (∀ x, x ∈ l → ¬ P x) → filter P l = [].
Proof.
  intros Hnone. apply list_nil_iff. intros x [HP Hx]%list_elem_of_filter.
  by apply (Hnone x).
Qed.

Section ArraySort.
Context {A : Type} (key : A → Z).


Lemma sort_insert_perm (x : A) (l : list A) :
  sort_insert (λ a b, key a - key b) x l ≡ₚ x :: l.
Proof.
  induction l as [|y l IH]; [done|]. cbn [sort_insert].
  destruct (decide _); [done|]. by rewrite IH, Permutation_swap.
Qed.

Lemma Array_sort_perm (l : list A) : Array_sort (λ a b, key a - key b) l ≡ₚ l.
Proof.
  induction l as [|x l IH]; [done|]. unfold Array_sort in *. cbn [foldr].
  by rewrite sort_insert_perm, IH.
Qed.

Lemma sort_insert_sorted (x : A) (l : list A) :
  StronglySorted (λ a b, key a ≤ key b) l → StronglySorted (λ a b, key a ≤ key b) (sort_insert (λ a b, key a - key b) x l).
Proof.
  induction 1 as [|y l Hsorted IH Hall]; cbn [sort_insert].
  { repeat constructor. }
  destruct (decide (key x - key y ≤ 0)) as [Hle|Hgt].
  - constructor; [by constructor|]. constructor; [lia|].
    eapply Forall_impl; [exact Hall|]. cbn. intros z Hz. lia.
  - constructor; [exact IH|]. rewrite sort_insert_perm.
    constructor; [lia|exact Hall].
Qed.

Lemma Array_sort_sorted (l : list A) :
  StronglySorted (λ a b, key a ≤ key b) (Array_sort (λ a b, key a - key b) l).
Proof.
  induction l as [|x l IH]; [constructor|]. by apply sort_insert_sorted.
Qed.

(** The sort is stable: the elements of one key keep their order. *)
Lemma sort_insert_stable (k : Z) (x : A) (l : list A) :
  filter (λ a, key a = k) (sort_insert (λ a b, key a - key b) x l) =
  filter (λ a, key a = k) (x :: l).
Proof.
  induction l as [|y l IH]; [done|]. cbn [sort_insert].
  destruct (decide (key x - key y ≤ 0)) as [Hle|Hgt]; [done|].
  rewrite filter_cons, IH, !filter_cons.
  destruct (decide (key y = k)), (decide (key x = k)); try done. lia.
Qed.

Lemma Array_sort_stable (k : Z) (l : list A) :
  filter (λ a, key a = k) (Array_sort (λ a b, key a - key b) l) = filter (λ a, key a = k) l.
Proof.
  induction l as [|x l IH]; [done|]. unfold Array_sort in *. cbn [foldr].
  by rewrite sort_insert_stable, !filter_cons, IH.
Qed.

(** A list in (λ a b, key a ≤ key b) order of the key splits at every key. *)
Lemma sorted_split (k : Z) (l : list A) :
  StronglySorted (λ a b, key a ≤ key b) l →
  l = filter (λ a, key a < k) l ++ filter (λ a, ¬ key a < k) l.
Proof.
  induction 1 as [|x l Hsorted IH Hall]; [done|].
  rewrite !filter_cons. destruct (decide (key x < k)) as [Hlt|Hge].
  - rewrite decide_False by tauto. cbn [app]. by rewrite <- IH.
  - rewrite decide_True by done.
    assert (filter (λ a, key a < k) l = []) as ->.
    { apply list_nil_iff. intros y [Hy Hin]%list_elem_of_filter.
      rewrite Forall_forall in Hall. specialize (Hall y Hin). cbn in Hall. lia. }
    cbn [app]. f_equal.
    rewrite IH at 1.
    assert (filter (λ a, key a < k) l = []) as ->; [|done].
    apply list_nil_iff. intros y [Hy Hin]%list_elem_of_filter.
    rewrite Forall_forall in Hall. specialize (Hall y Hin). cbn in Hall. lia.
Qed.

(** With four keys, the sorted list is the four classes of the unsorted
    one, each in its original order. *)
Lemma Array_sort_by_four_keys (l : list A) :
  (∀ a, a ∈ l → 0 ≤ key a ≤ 3) →
  Array_sort (λ a b, key a - key b) l =
  filter (λ a, key a = 0) l ++ filter (λ a, key a = 1) l ++
  filter (λ a, key a = 2) l ++ filter (λ a, key a = 3) l.
Proof.
  intros Hrange.
  rewrite <- !(Array_sort_stable _ l).
  pose proof (Array_sort_sorted l) as Hsorted.
  assert (Hrange' : ∀ a, a ∈ Array_sort (λ a b, key a - key b) l → 0 ≤ key a ≤ 3).
  { intros a Ha. apply Hrange. by rewrite <- (Array_sort_perm l). }
  revert Hsorted Hrange'. generalize (Array_sort (λ a b, key a - key b) l). clear l Hrange.
  intros l Hsorted Hrange.
  assert (Hclass : ∀ k, filter (λ a, key a = k) l =
                        filter (λ a, ¬ key a < k)
                          (filter (λ a, key a < k + 1) l)).
  { intros k. rewrite list_filter_filter. apply list_filter_iff. intros a. lia. }
  assert (Hbelow : ∀ k, StronglySorted (λ a b, key a ≤ key b) (filter (λ a, key a < k) l)).
  { intros k. eapply StronglySorted_app_1_l. rewrite <- sorted_split; done. }
  rewrite !Hclass.
  assert (filter (λ a, key a < 0 + 1) l =
          filter (λ a, ¬ key a < 0) (filter (λ a, key a < 0 + 1) l)) as H0.
  { rewrite list_filter_filter. apply filter_ext_elem.
    intros a Ha. specialize (Hrange a Ha). lia. }
  rewrite <- H0.
  assert (Hstep : ∀ k, filter (λ a, key a < k + 1) l =
                       filter (λ a, key a < k) l ++
                       filter (λ a, ¬ key a < k) (filter (λ a, key a < k + 1) l)).
  { intros k. rewrite (sorted_split k _ (Hbelow (k + 1))) at 1. f_equal.
    rewrite list_filter_filter. apply list_filter_iff. intros a. lia. }
  assert (l = filter (λ a, key a < 3 + 1) l) as Hall.
  { symmetry. apply filter_all. intros a Ha. specialize (Hrange a Ha). lia. }
  pose proof (Hstep 3) as H3. pose proof (Hstep 2) as H2.
  pose proof (Hstep 1) as H1. clear Hstep Hclass Hbelow.
  change (2 + 1) with 3 in *. change (1 + 1) with 2 in *.
  change (0 + 1) with 1 in *.
  set (C3 := filter (λ a, ¬ key a < 3) (filter (λ a, key a < 3 + 1) l)) in *.
  set (C2 := filter (λ a, ¬ key a < 2) (filter (λ a, key a < 3) l)) in *.
  set (C1 := filter (λ a, ¬ key a < 1) (filter (λ a, key a < 2) l)) in *.
  set (C0 := filter (λ a, ¬ key a < 0) (filter (λ a, key a < 1) l)) in *.
  rewrite Hall at 1. rewrite H3, H2, H1. by rewrite <- !app_assoc.
Qed.

End ArraySort.

(* --------------------------------------------------------------------- *)
(** *** Occurrence dates of disease patterns *)

Lemma date_le_refl (a : Date) : date_le a a.
Proof. by left. Qed.

Lemma date_le_total (a b : Date) : date_le a b ∨ date_le b a.
Proof.
  destruct a as [ya ma da], b as [yb mb db]. unfold date_le, date_lt. simpl.
  destruct (decide (ya = yb)) as [->|]; [|lia].
  destruct (decide (ma = mb)) as [->|]; [|lia].
  destruct (decide (da = db)) as [->|]; [by left; left|lia].
Qed.

Lemma date_le_trans (a b c : Date) : date_le a b → date_le b c → date_le a c.
Proof.
  intros [->|Hab] [->|Hbc]; [by left|by right|by right|].
  right. unfold date_lt in *. lia.
Qed.

Lemma foldl_date_min (x : Date) (l : list Date) :
  foldl date_min x l ∈ x :: l ∧
  ∀ y, y ∈ x :: l → date_le (foldl date_min x l) y.
Proof.
  revert x. induction l as [|z l IH]; intros x; simpl.
  - split; [apply list_elem_of_here|].
    intros y ->%list_elem_of_singleton. apply date_le_refl.
  - destruct (IH (date_min x z)) as [Hin Hle]. split.
    + apply elem_of_cons in Hin as [->|Hin].
      * unfold date_min. destruct (decide _); rewrite !elem_of_cons; auto.
      * rewrite !elem_of_cons; auto.
    + intros y Hy.
      assert (Hm : date_le (foldl date_min (date_min x z) l) (date_min x z)).
      { apply Hle, list_elem_of_here. }
      rewrite !elem_of_cons in Hy. destruct Hy as [->|[->|Hy]].
      * eapply date_le_trans; [exact Hm|].
        unfold date_min. destruct (decide _) as [|Hn]; [apply date_le_refl|].
        by destruct (date_le_total x z).
      * eapply date_le_trans; [exact Hm|].
        unfold date_min. destruct (decide _); [done|apply date_le_refl].
      * apply Hle. rewrite elem_of_cons; auto.
Qed.

Lemma foldl_date_max (x : Date) (l : list Date) :
  foldl date_max x l ∈ x :: l ∧
  ∀ y, y ∈ x :: l → date_le y (foldl date_max x l).
Proof.
  revert x. induction l as [|z l IH]; intros x; simpl.
  - split; [apply list_elem_of_here|].
    intros y ->%list_elem_of_singleton. apply date_le_refl.
  - destruct (IH (date_max x z)) as [Hin Hle]. split.
    + apply elem_of_cons in Hin as [->|Hin].
      * unfold date_max. destruct (decide _); rewrite !elem_of_cons; auto.
      * rewrite !elem_of_cons; auto.
    + intros y Hy.
      assert (Hm : date_le (date_max x z) (foldl date_max (date_max x z) l)).
      { apply Hle, list_elem_of_here. }
      rewrite !elem_of_cons in Hy. destruct Hy as [->|[->|Hy]].
      * eapply date_le_trans; [|exact Hm].
        unfold date_max. destruct (decide _) as [|Hn]; [done|apply date_le_refl].
      * eapply date_le_trans; [|exact Hm].
        unfold date_max. destruct (decide _) as [|Hn]; [apply date_le_refl|].
        by destruct (date_le_total x z).
      * apply Hle. rewrite elem_of_cons; auto.
Qed.

Lemma sql_fold_date_min (l : list Date) (y : Date) :
  y ∈ l → ∃ m, sql_fold date_min l = Some m ∧ m ∈ l ∧ ∀ z, z ∈ l → date_le m z.
Proof.
  destruct l as [|x l]; [by intros ?%elem_of_nil|]. intros _.
  exists (foldl date_min x l). split; [done|]. apply foldl_date_min.
Qed.

Lemma sql_fold_date_max (l : list Date) (y : Date) :
  y ∈ l → ∃ m, sql_fold date_max l = Some m ∧ m ∈ l ∧ ∀ z, z ∈ l → date_le z m.
Proof.
  destruct l as [|x l]; [by intros ?%elem_of_nil|]. intros _.
  exists (foldl date_max x l). split; [done|]. apply foldl_date_max.
Qed.

Section Occurrences.
Import HealthIntelligence.

(** Property X1.  When its query is answered, every entry returned by
    [detectDiseasePatterns] carries a first and a last occurrence, never
    NULL: both are diagnosis dates of that disease for the patient within
    the window of six months, the first is not after the last, and every
    diagnosis of the disease in the window lies between them. *)
Theorem detectDiseasePatterns_occurrences (pid : Z) (w : world) :
  faulty w (issued w) = false →
  let window := recent_diseases (db w) (date_of (now w)) pid in
  ∃ res : list disease_pattern,
    (detectDiseasePatterns pid w).1 = Returned res ∧
    ∀ p, p ∈ res →
      let dates :=
        diagnosed_date <$>
          filter (λ r, disease_name r = disease_of_pattern p) window in
      ∃ first last,
        first_occurrence (disease p) = Some first ∧
        last_occurrence (disease p) = Some last ∧
        first ∈ dates ∧ last ∈ dates ∧
        date_within_months (date_of (now w)) 6 first ∧
        date_le first last ∧
        ∀ d, d ∈ dates → date_le first d ∧ date_le d last.
Proof.
  intros Hok window. rewrite detectDiseasePatterns_run, Hok.
  eexists. split; [reflexivity|].
  intros p (r & -> & Hr)%list_elem_of_fmap.
  rewrite order_by_desc_perm in Hr.
  apply list_elem_of_fmap in Hr as ([k g] & -> & Hg).
  apply elem_of_group_by in Hg as [Hk ->].
  unfold disease_of_pattern. cbn [disease classify_disease disease_frequency_of
    df_disease_name first_occurrence last_occurrence fst snd].
  fold window. cbv zeta.
  set (dates := diagnosed_date <$> filter _ window).
  apply list_elem_of_fmap in Hk as (r & -> & Hr).
  assert (Hd : diagnosed_date r ∈ dates).
  { apply list_elem_of_fmap. exists r. split; [done|].
    by apply list_elem_of_filter. }
  destruct (sql_fold_date_min dates _ Hd) as (first & Hfirst & Hfin & Hfle).
  destruct (sql_fold_date_max dates _ Hd) as (last & Hlast & Hlin & Hlle).
  exists first, last. repeat split; auto.
  apply list_elem_of_fmap in Hfin as (r' & -> & Hr').
  apply list_elem_of_filter in Hr' as [_ Hr'].
  unfold window, recent_diseases in Hr'.
  apply list_elem_of_filter in Hr' as [[_ Hw] _]. exact Hw.
Qed.

Lemma detectDiseasePatterns_occurrences_witness :
  faulty Examples.clinic_server (issued Examples.clinic_server) = false ∧
  ∃ res : list disease_pattern,
    (detectDiseasePatterns 1 Examples.clinic_server).1 = Returned res ∧
    ∀ p, p ∈ res →
      ∃ first last,
        first_occurrence (disease p) = Some first ∧
        last_occurrence (disease p) = Some last ∧
        date_le first last.
Proof.
  split; [reflexivity|].
  destruct (detectDiseasePatterns_occurrences 1 Examples.clinic_server eq_refl)
    as (res & Hres & Hentries).
  exists res. split; [exact Hres|].
  intros p Hp. destruct (Hentries p Hp) as (first & last & H1 & H2 & _ & _ & _ & H3 & _).
  exists first, last. auto.
Defined.

End Occurrences.

(* --------------------------------------------------------------------- *)
(** *** Recommendations of the report *)

(** What [forEach] with a guarded [push] collects: one element per member
    that passes the guard, in order. *)
Lemma guarded_push_filter {A B} (p : A → bool) (f : A → B) (l : list A) :
  (a ← l; if p a then [f a] else []) = f <$> filter (λ a, p a = true) l.
Proof.
  induction l as [|a l IH]; [done|].
  rewrite bind_cons, filter_cons, IH.
  destruct (p a); [by rewrite decide_True|by rewrite decide_False].
Qed.

Lemma fmap_const_replicate {A B} (f : A → B) (c : B) (l : list A) :
  (∀ a, f a = c) → f <$> l = replicate (length l) c.
Proof.
  intros Hc. induction l as [|a l IH]; [done|].
  by rewrite fmap_cons, Hc, IH.
Qed.

Section Recommendations.
Import HealthIntelligence HealthReport.

(** Property X4.  For a score that carries a breakdown,
    [generateRecommendations] returns its recommendations in order of
    priority, and within one priority in the order in which they were
    pushed: first one ALLERGY_WARNING for each prescription risk of level
    ALLERGY_ALERT, then CRITICAL_HEALTH if the level is critical (both
    CRITICAL), then one CHRONIC_DISEASE for each chronic disease pattern,
    then HIGH_RISK if the level is high (both HIGH), and last
    HIGH_MEDICINE_USE (MEDIUM) if the medicine factor exceeds 20. *)
Theorem generateRecommendations_order (dp : list disease_pattern)
    (ar : allergy_risks) (hs : risk_score_result) (b : breakdown_t) :
  breakdown hs = Some b →
  ∃ recs,
    generateRecommendations dp ar hs = Returned recs ∧
    StronglySorted
      (λ x y, priorityMap (priority x) ≤ priorityMap (priority y)) recs ∧
    type <$> recs =
      replicate
        (length (filter (λ r, HealthIntelligence.risk_level r = "ALLERGY_ALERT")
                   (prescriptionRisks ar)))
        "ALLERGY_WARNING" ++
      (if decide (level hs = "critical") then ["CRITICAL_HEALTH"] else []) ++
      replicate (length (filter (λ d, is_chronic d = true) dp))
        "CHRONIC_DISEASE" ++
      (if decide (level hs = "high") then ["HIGH_RISK"] else []) ++
      (if decide (20 < medicine_factor b) then ["HIGH_MEDICINE_USE"] else []).
Proof.
  intros Hb. unfold generateRecommendations. rewrite Hb.
  eexists. split; [reflexivity|]. split; [apply Array_sort_sorted|].
  rewrite (Array_sort_by_four_keys (λ r, priorityMap (priority r)))
    by (intros r _; destruct (priority r); cbn; lia).
  rewrite (guarded_push_filter is_chronic).
  set (chronic := _ <$> filter (λ d, is_chronic d = true) dp).
  assert (Hallergy :
    (risk ← prescriptionRisks ar;
     if decide (HealthIntelligence.risk_level risk = "ALLERGY_ALERT")
     then [ {| type := "ALLERGY_WARNING"; priority := CRITICAL;
               message := "⚠️ ALERT: " +:+
                 risk_medicine_name (HealthIntelligence.risk risk) +:+
                 " has triggered allergic reactions. Inform your doctor before it's prescribed again.";
               icon := "⚠️" |} ]
     else []) =
    (λ risk, {| type := "ALLERGY_WARNING"; priority := CRITICAL;
               message := "⚠️ ALERT: " +:+
                 risk_medicine_name (HealthIntelligence.risk risk) +:+
                 " has triggered allergic reactions. Inform your doctor before it's prescribed again.";
               icon := "⚠️" |}) <$>
      filter (λ r, HealthIntelligence.risk_level r = "ALLERGY_ALERT")
        (prescriptionRisks ar)).
  { induction (prescriptionRisks ar) as [|r l IH]; [done|].
    rewrite bind_cons, filter_cons, IH. by destruct (decide _). }
  rewrite Hallergy.
  set (allergic := _ <$> filter _ (prescriptionRisks ar)).
  assert (Hchronic : Forall (λ r, type r = "CHRONIC_DISEASE" ∧ priority r = HIGH) chronic).
  { unfold chronic. apply Forall_fmap, Forall_forall. by intros. }
  assert (Hallergic : Forall (λ r, type r = "ALLERGY_WARNING" ∧ priority r = CRITICAL) allergic).
  { unfold allergic. apply Forall_fmap, Forall_forall. by intros. }
  assert (type <$> chronic =
          replicate (length (filter (λ d, is_chronic d = true) dp)) "CHRONIC_DISEASE")
    as Htc.
  { unfold chronic. rewrite <- list_fmap_compose.
    by rewrite (fmap_const_replicate _ "CHRONIC_DISEASE"). }
  assert (type <$> allergic =
          replicate (length (filter (λ r, HealthIntelligence.risk_level r = "ALLERGY_ALERT")
                               (prescriptionRisks ar))) "ALLERGY_WARNING")
    as Hta.
  { unfold allergic. rewrite <- list_fmap_compose.
    by rewrite (fmap_const_replicate _ "ALLERGY_WARNING"). }
  rewrite <- Htc, <- Hta.
  assert (Hfc : ∀ k, filter (λ r, priorityMap (priority r) = k) chronic =
                     if decide (k = 1) then chronic else []).
  { intros k. destruct (decide (k = 1)) as [->|Hk].
    - apply filter_all. intros r Hr. rewrite Forall_forall in Hchronic.
      by destruct (Hchronic r Hr) as [_ ->].
    - apply filter_none. intros r Hr. rewrite Forall_forall in Hchronic.
      destruct (Hchronic r Hr) as [_ ->]. cbn. lia. }
  assert (Hfa : ∀ k, filter (λ r, priorityMap (priority r) = k) allergic =
                     if decide (k = 0) then allergic else []).
  { intros k. destruct (decide (k = 0)) as [->|Hk].
    - apply filter_all. intros r Hr. rewrite Forall_forall in Hallergic.
      by destruct (Hallergic r Hr) as [_ ->].
    - apply filter_none. intros r Hr. rewrite Forall_forall in Hallergic.
      destruct (Hallergic r Hr) as [_ ->]. cbn. lia. }
  clearbody chronic allergic.
  destruct (decide (0 < length (prescriptionRisks ar))%nat) as [Hsome|Hnone].
  - destruct (decide (level hs = "critical")) as [Hc|Hc];
      [rewrite (decide_False (P := level hs = "high")) by congruence
      |destruct (decide (level hs = "high"))];
      destruct (decide (20 < medicine_factor b));
      rewrite !filter_app, !Hfc, !Hfa; cbn;
      by rewrite ?fmap_app, ?app_nil_r, <- ?app_assoc.
  - assert (allergic = []) as ->.
    { assert (type <$> allergic = []) as Hnil; [|by destruct allergic].
      rewrite Hta.
      destruct (prescriptionRisks ar); [done|cbn in Hnone; lia]. }
    destruct (decide (level hs = "critical")) as [Hc|Hc];
      [rewrite (decide_False (P := level hs = "high")) by congruence
      |destruct (decide (level hs = "high"))];
      destruct (decide (20 < medicine_factor b));
      rewrite !filter_app, !Hfc; cbn;
      by rewrite ?fmap_app, ?app_nil_r, <- ?app_assoc.
Qed.

End Recommendations.

(* --------------------------------------------------------------------- *)
(** *** The health intelligence report *)

Lemma js_or_count (c : Z) : js_or (Some c) 0 = c.
Proof. unfold js_or. by destruct (decide (c = 0)) as [->|]. Qed.

Section Report.
Import HealthIntelligence HealthReport.

Lemma detectAllergyRisks_returns (pid : Z) (w : world) :
  ∃ ar w', detectAllergyRisks pid w = (Returned ar, w') ∧
           db w' = db w ∧ now w' = now w.
Proof.
  rewrite detectAllergyRisks_run.
  destruct (faulty w (issued w)); [by eexists _, _|].
  destruct (faulty w (S (issued w))); by eexists _, _.
Qed.

(** Property X5.  [getHealthIntelligenceReport] returns the empty report of
    its catch branch on every call, whatever the two detectors have found:
    the result of [calculateHealthRiskScore] never carries a [breakdown], so
    reading [breakdown.age_factor] throws.  The report holds no disease
    pattern, no allergy risk, score 0 with level 'unknown' at the current
    time, and no recommendation; the store is left as it was. *)
Theorem report_is_always_empty (pid : Z) (w : world) :
  let out := getHealthIntelligenceReport pid w in
  out.1 = Returned (empty_report (now w)) ∧ db out.2 = db w.
Proof.
  pose proof (detectDiseasePatterns_run pid w) as Hdp.
  destruct (detectAllergyRisks_returns pid (tick w))
    as (ar & w2 & Har & Hdb & Hnow).
  destruct (calculateHealthRiskScore_run pid w2)
    as (w3 & Hcalc & Hdb3 & Hnow3 & _).
  unfold getHealthIntelligenceReport, try_catch.
  rewrite (bind_returned _ _ _ _ _ Hdp).
  rewrite (bind_returned _ _ _ _ _ Har).
  rewrite (bind_returned _ _ _ _ _ Hcalc).
  cbn [breakdown unable_to_calculate].
  unfold throw, bind, EnhancedHealthRisk.new_Date, ret. cbn [fst snd].
  rewrite Hnow3, Hnow, Hdb3, Hdb. done.
Qed.

End Report.

Section KnownSideEffects.
Import HealthIntelligence.

(** Property X2.  When both queries of [detectAllergyRisks] are answered,
    [knownSideEffects] holds, without repetition, exactly the triples
    (medicine, side effect, severity) that pair a medicine prescribed to the
    patient with a row of [medicine_side_effects] of the same medicine
    name.  The list is in descending order of severity (entries without a
    severity first, then severe, moderate, mild), and the [alert_level] of
    an entry is CRITICAL exactly when its severity is severe, WARNING
    exactly when it is moderate and INFO exactly when it is mild or
    missing. *)
Theorem known_side_effects_listed (pid : Z) (w : world) :
  no_fault w 2 →
  ∃ res,
    (detectAllergyRisks pid w).1 = Returned res ∧
    NoDup (effect <$> knownSideEffects res) ∧
    (∀ r, r ∈ effect <$> knownSideEffects res ↔
       ∃ x m, x ∈ prescriptions_of (db w) pid ∧
              m ∈ medicine_side_effects (db w) ∧
              medicine_name x.1 = mse_medicine_name m ∧
              r = {| kse_medicine_name := medicine_name x.1;
                     kse_side_effect := side_effect m;
                     kse_severity := severity m |}) ∧
    StronglySorted
      (λ a b, severity_rank (kse_severity (effect b)) ≤
              severity_rank (kse_severity (effect a)))
      (knownSideEffects res) ∧
    (∀ e, e ∈ knownSideEffects res →
       (alert_level e = "CRITICAL" ↔ kse_severity (effect e) = Some severe) ∧
       (alert_level e = "WARNING" ↔ kse_severity (effect e) = Some moderate) ∧
       (alert_level e = "INFO" ↔
          kse_severity (effect e) = Some mild ∨ kse_severity (effect e) = None)).
Proof.
  intros Hnf.
  pose proof (Hnf 0%nat ltac:(lia)) as F1.
  pose proof (Hnf 1%nat ltac:(lia)) as F2.
  rewrite Nat.add_0_r in F1. rewrite Nat.add_1_r in F2.
  rewrite detectAllergyRisks_run, F1, F2.
  unfold prescription_risks_query, known_side_effects_query, select.
  cbn [fst snd]. eexists. split; [reflexivity|].
  cbn [knownSideEffects].
  set (joined := filter _ (inner_join _ appointment_id _ (appointments (db w)))).
  set (rows := remove_dups (_ <$> joined)).
  assert (Heffects :
    effect <$> (flag_effect <$>
                  order_by_desc (λ r, severity_rank (kse_severity r)) rows)
    = order_by_desc (λ r, severity_rank (kse_severity r)) rows).
  { rewrite <- list_fmap_compose.
    induction (order_by_desc _ rows) as [|r l IH]; [done|].
    rewrite fmap_cons. by f_equal. }
  rewrite Heffects. split; [|split; [|split]].
  - rewrite order_by_desc_perm. apply NoDup_remove_dups.
  - intros r. rewrite order_by_desc_perm. unfold rows.
    rewrite elem_of_remove_dups, list_elem_of_fmap. split.
    + intros ([[pr m] a] & -> & Hx).
      apply list_elem_of_filter in Hx as [Hpid Hx].
      apply elem_of_inner_join in Hx as (Hprm & Ha & Hid).
      apply elem_of_inner_join in Hprm as (Hpr & Hm & Hname).
      exists (pr, a), m. split; [|done].
      apply list_elem_of_filter. split; [done|]. by apply elem_of_inner_join.
    + intros ([pr a] & m & Hx & Hm & Hname & ->).
      apply list_elem_of_filter in Hx as [Hpid Hx].
      apply elem_of_inner_join in Hx as (Hpr & Ha & Hid).
      exists ((pr, m), a). split; [done|].
      apply list_elem_of_filter. split; [done|].
      apply elem_of_inner_join. split; [|done]. by apply elem_of_inner_join.
  - apply (StronglySorted_fmap _
             (desc_by (λ r, severity_rank (kse_severity r)))); [done|].
    apply order_by_desc_sorted.
  - intros e (r & -> & _)%list_elem_of_fmap.
    cbn [flag_effect alert_level effect].
    destruct (kse_severity r) as [[]|]; repeat split;
      try done; auto; by intros [|].
Qed.

End KnownSideEffects.

(* --------------------------------------------------------------------- *)
(** *** Medicine repetition, dependency warnings and usage statistics *)

Lemma length_filter_le {A} (P : A → Prop) `{∀ x, Decision (P x)} (l : list A) :
  (length (filter P l) ≤ length l)%nat.
Proof. apply sublist_length, sublist_filter. Qed.

Lemma filter_nonempty {A} (P : A → Prop) `{∀ x, Decision (P x)} (l : list A) :
  (0 < length (filter P l))%nat ↔ ∃ x, x ∈ l ∧ P x.
Proof.
  split.
  - destruct (filter P l) as [|x xs] eqn:Hf; [cbn; lia|]. intros _.
    assert (x ∈ filter P l) as [? ?]%list_elem_of_filter by (rewrite Hf; left).
    by exists x.
  - intros (x & Hx & HP).
    assert (x ∈ filter P l) as Hin by (by apply list_elem_of_filter).
    destruct (filter P l); [by apply elem_of_nil in Hin|cbn; lia].
Qed.

Section DependencyWarnings.
Import MedicineRepetition.

Lemma getMedicineDependencyWarnings_run (pid : Z) (w : world) (reps : list medicine_repetition) :
  (detectMedicineRepetition pid w).1 = Returned reps →
  getMedicineDependencyWarnings pid w =
  (Returned
     {| total_repeated_medicines := Z.of_nat (length reps);
        high_risk_count :=
          Z.of_nat (length (filter (λ m, risk_level m = "high") reps));
        warnings := filter (λ m, risk_level m = "high") reps;
        recommendation :=
          if decide (0 < length (filter (λ m, risk_level m = "high") reps))%nat
          then "Consult doctor about medicine dependency risks"
          else "No high-risk medicine dependencies detected" |},
   tick w).
Proof.
  rewrite detectMedicineRepetition_run. cbn [fst]. intros [= <-].
  unfold getMedicineDependencyWarnings, try_catch.
  by rewrite (bind_returned _ _ _ _ _ (detectMedicineRepetition_run pid w)).
Qed.

(** Property X8.  [getMedicineDependencyWarnings] always returns, and
    never with the recommendation 'Unable to assess' of its catch branch:
    [detectMedicineRepetition] catches its own errors, so a rejected query
    gives zero counts, no warnings and the recommendation
    'No high-risk medicine dependencies detected'. *)
Theorem dependency_warnings_never_unable (pid : Z) (w : world) :
  ∃ r,
    (getMedicineDependencyWarnings pid w).1 = Returned r ∧
    recommendation r ≠ "Unable to assess" ∧
    (faulty w (issued w) = true →
     r = {| total_repeated_medicines := 0;
            high_risk_count := 0;
            warnings := [];
            recommendation := "No high-risk medicine dependencies detected" |}).
Proof.
  destruct (detectMedicineRepetition pid w) as [[reps|e] w'] eqn:Hrun;
    [|by rewrite detectMedicineRepetition_run in Hrun].
  rewrite (getMedicineDependencyWarnings_run pid w reps) by (by rewrite Hrun).
  eexists. split; [reflexivity|]. cbn [recommendation]. split.
  - by destruct (decide _).
  - intros Hf. rewrite detectMedicineRepetition_run, Hf in Hrun.
    by injection Hrun as <- _.
Qed.

(** Property X9.  The warnings of [getMedicineDependencyWarnings] are the
    entries of [detectMedicineRepetition] with more than 4 prescriptions, in
    the same order; [total_repeated_medicines] and [high_risk_count] are the
    lengths of the two lists, so that
    0 <= high_risk_count <= total_repeated_medicines.  The recommendation
    is to consult a doctor exactly when there is such an entry, and
    'No high-risk medicine dependencies detected' exactly when there is
    none. *)
Theorem dependency_warnings_are_high_risk (pid : Z) (w : world) :
  ∃ reps r,
    (detectMedicineRepetition pid w).1 = Returned reps ∧
    (getMedicineDependencyWarnings pid w).1 = Returned r ∧
    warnings r = filter (λ m, 4 < prescription_count m) reps ∧
    total_repeated_medicines r = Z.of_nat (length reps) ∧
    high_risk_count r = Z.of_nat (length (warnings r)) ∧
    0 ≤ high_risk_count r ≤ total_repeated_medicines r ∧
    (recommendation r = "Consult doctor about medicine dependency risks" ↔
     ∃ m, m ∈ reps ∧ 4 < prescription_count m) ∧
    (recommendation r = "No high-risk medicine dependencies detected" ↔
     ∀ m, m ∈ reps → prescription_count m ≤ 4).
Proof.
  destruct (detectMedicineRepetition pid w) as [[reps|e] w'] eqn:Hrun;
    [|by rewrite detectMedicineRepetition_run in Hrun].
  exists reps. eexists. split; [done|].
  rewrite (getMedicineDependencyWarnings_run pid w reps) by (by rewrite Hrun).
  split; [reflexivity|].
  cbn [warnings total_repeated_medicines high_risk_count recommendation].
  assert (Hhigh : ∀ m, m ∈ reps → risk_level m = "high" ↔ 4 < prescription_count m).
  { intros m Hm. rewrite detectMedicineRepetition_run in Hrun.
    injection Hrun as Hreps _. subst reps.
    destruct (faulty w (issued w)); [by apply elem_of_nil in Hm|].
    apply list_elem_of_fmap in Hm as (row & -> & _).
    destruct (describe_repetition_spec row) as (_ & -> & Hh & _). exact Hh. }
  rewrite (filter_ext_elem _ (λ m, 4 < prescription_count m) reps Hhigh).
  split; [done|]. split; [done|]. split; [done|].
  pose proof (length_filter_le (λ m, 4 < prescription_count m) reps).
  split; [lia|].
  destruct (decide (0 < length (filter (λ m, (4 < prescription_count m)%Z) reps))%nat)
    as [Hsome|Hnone].
  - apply filter_nonempty in Hsome. split; [done|]. split; [done|].
    intros Hall. destruct Hsome as (m & Hm & Hc). specialize (Hall m Hm). lia.
  - rewrite filter_nonempty in Hnone. split.
    + split; [done|]. intros Hsome. by destruct Hnone.
    + split; [|done]. intros _ m Hm.
      destruct (decide (prescription_count m ≤ 4)); [done|].
      destruct Hnone. exists m. split; [done|lia].
Qed.

End DependencyWarnings.

Lemma length_remove_dups_le {A} `{EqDecision A} (l : list A) :
  (length (remove_dups l) ≤ length l)%nat.
Proof.
  induction l as [|x l IH]; [done|]. cbn [remove_dups].
  destruct (decide_rel _ x l); cbn [length]; lia.
Qed.

(** A key that is unique in a table selects at most one row. *)
Lemma filter_unique_key {A K} `{EqDecision K} (key : A → K) (l : list A)
    (k : K) :
  NoDup (key <$> l) → (length (filter (λ a, key a = k) l) ≤ 1)%nat.
Proof.
  induction l as [|a l IH]; [cbn; lia|].
  rewrite fmap_cons, NoDup_cons. intros [Hnotin Hnodup].
  rewrite filter_cons. destruct (decide (key a = k)) as [Hk|Hk]; [|by apply IH].
  assert (filter (λ a, key a = k) l = []) as ->; [|done].
  apply list_nil_iff. intros b [Hb Hin]%list_elem_of_filter.
  apply Hnotin. rewrite Hk, <- Hb. by apply list_elem_of_fmap_2.
Qed.

Section UsageStats.
Import MedicineRepetition.

(** With unique appointment ids, the LEFT JOIN and the WHERE of
    [getMedicineUsageStats] keep each prescription written in an
    appointment of the patient, once. *)
Lemma prescriptions_with_appointment_fst (d : database) (pid : Z) :
  NoDup (appointment_id <$> appointments d) →
  (prescriptions_with_appointment d pid).*1 =
  filter (λ p, pr_appointment_id p ∈
               appointment_id <$>
                 filter (λ a, a_patient_id a = pid) (appointments d))
    (prescriptions d).
Proof.
  intros Hkey. unfold prescriptions_with_appointment, left_join.
  induction (prescriptions d) as [|p l IH]; [done|].
  rewrite bind_cons, filter_app, fmap_app, IH, filter_cons. clear IH.
  set (Q := λ p, pr_appointment_id p ∈ _).
  assert (Hmatches :
    filter (λ b, Some (pr_appointment_id p) = Some (appointment_id b))
      (appointments d) =
    filter (λ b, appointment_id b = pr_appointment_id p) (appointments d)).
  { apply list_filter_iff. intros b. split; [by intros [= ->]|by intros ->]. }
  rewrite Hmatches.
  pose proof (filter_unique_key appointment_id (appointments d)
                (pr_appointment_id p) Hkey) as Hone.
  destruct (filter (λ b, appointment_id b = pr_appointment_id p)
              (appointments d)) as [|a [|a' rest]] eqn:Hf;
    [| |cbn in Hone; lia].
  - rewrite (filter_singleton_False _ _ []) by (by cbn).
    rewrite decide_False; [done|]. unfold Q.
    intros (a & Hid & [Hpid Ha]%list_elem_of_filter)%list_elem_of_fmap.
    assert (a ∈ filter (λ b, appointment_id b = pr_appointment_id p)
                  (appointments d)) as Hin by (by apply list_elem_of_filter).
    rewrite Hf in Hin. by apply elem_of_nil in Hin.
  - assert (a ∈ filter (λ b, appointment_id b = pr_appointment_id p)
                  (appointments d)) as [Hid Ha]%list_elem_of_filter
      by (rewrite Hf; left).
    cbn [fmap list_fmap].
    destruct (decide (a_patient_id a = pid)) as [Hpid|Hpid].
    + rewrite (filter_singleton_True _ _ []) by (cbn; by rewrite Hpid).
      rewrite decide_True; [done|]. unfold Q.
      apply list_elem_of_fmap. exists a. split; [done|].
      by apply list_elem_of_filter.
    + rewrite (filter_singleton_False _ _ []) by (cbn; congruence).
      rewrite decide_False; [done|]. unfold Q.
      intros (a' & Hid' & [Hpid' Ha']%list_elem_of_filter)%list_elem_of_fmap.
      assert (a' ∈ filter (λ b, appointment_id b = pr_appointment_id p)
                     (appointments d)) as Hin by (by apply list_elem_of_filter).
      rewrite Hf in Hin. apply list_elem_of_singleton in Hin. congruence.
Qed.

(** Property X10.  When its query is answered and appointment ids are
    unique, [getMedicineUsageStats] counts every prescription written in an
    appointment of the patient once; the number of distinct medicines lies
    between 0 and that count; the dates of the latest and of the first
    prescription are NULL exactly when the count is 0. *)
Theorem usage_stats_count_each_prescription_once (pid : Z) (w : world) :
  faulty w (issued w) = false →
  NoDup (appointment_id <$> appointments (db w)) →
  ∃ stats,
    (getMedicineUsageStats pid w).1 = Returned stats ∧
    total_prescriptions stats =
      count_rows
        (filter (λ p, pr_appointment_id p ∈
                      appointment_id <$>
                        filter (λ a, a_patient_id a = pid)
                          (appointments (db w)))
           (prescriptions (db w))) ∧
    0 ≤ total_unique_medicines stats ≤ total_prescriptions stats ∧
    (total_prescriptions stats = 0 ↔ latest_prescription stats = None) ∧
    (total_prescriptions stats = 0 ↔ first_prescription stats = None).
Proof.
  intros Hok Hkey.
  unfold getMedicineUsageStats, medicine_usage_query.
  rewrite guarded_select, Hok. eexists. split; [reflexivity|].
  cbn [head from_option id total_prescriptions total_unique_medicines
       latest_prescription first_prescription].
  rewrite <- (prescriptions_with_appointment_fst (db w) pid Hkey).
  set (rows := prescriptions_with_appointment (db w) pid).
  unfold count_rows, count_distinct. rewrite !length_fmap.
  split; [done|]. split.
  - pose proof (length_remove_dups_le
                  ((λ x : prescription_row * option appointment_row,
                      Schema.medicine_name x.1) <$> rows)) as Hle.
    rewrite length_fmap in Hle. lia.
  - destruct rows; cbn; split; split; intros; (done || lia).
Qed.

End UsageStats.

Section RepetitionEntries.
Import MedicineRepetition.

(** Property X7.  When its query is answered, [detectMedicineRepetition]
    returns at most one entry for a medicine, in descending order of the
    count.  The count of an entry is the number of prescription rows of the
    patient for that medicine multiplied by the number of rows of the
    patient in the disease history (by 1 when there are none), as the
    query joins every prescription with every disease row of the patient;
    it is at least 3, and the entry is of high risk exactly when the count
    exceeds 4, and moderate exactly when it does not. *)
Theorem repetition_entries (pid : Z) (w : world) :
  faulty w (issued w) = false →
  let prescribed (m : string) :=
    count_rows (filter (λ x, Schema.medicine_name x.1 = m)
                  (prescriptions_with_appointment (db w) pid)) in
  let diagnoses :=
    count_rows (filter (λ r, dh_patient_id r = pid) (disease_history (db w))) in
  ∃ res,
    (detectMedicineRepetition pid w).1 = Returned res ∧
    NoDup (medicine_name <$> res) ∧
    StronglySorted (λ a b, prescription_count b ≤ prescription_count a) res ∧
    (∀ e, e ∈ res →
       prescription_count e = prescribed (medicine_name e) * Z.max 1 diagnoses ∧
       3 ≤ prescription_count e ∧
       (risk_level e = "high" ↔ 4 < prescription_count e) ∧
       (risk_level e = "moderate" ↔ prescription_count e ≤ 4)).
Proof.
  intros Hok prescribed diagnoses.
  rewrite detectMedicineRepetition_run, Hok. eexists. split; [reflexivity|].
  set (rows := prescriptions_with_diseases (db w) pid).
  set (groups := filter (λ g : string * list joined_row, 2 < count_rows g.2)
                   (group_by (λ x : joined_row, Schema.medicine_name x.1.1) rows)).
  split; [|split].
  - assert (medicine_name <$>
              (describe_repetition <$>
                 order_by_desc row_prescription_count (repetition_of <$> groups))
            ≡ₚ groups.*1) as ->.
    { rewrite <- !list_fmap_compose, order_by_desc_perm.
      rewrite <- list_fmap_compose. done. }
    eapply sublist_NoDup; [|apply fmap_sublist, sublist_filter].
    rewrite group_by_keys. apply NoDup_remove_dups.
  - apply (StronglySorted_fmap _ (desc_by row_prescription_count)); [done|].
    apply order_by_desc_sorted.
  - intros e (r & -> & Hr)%list_elem_of_fmap.
    rewrite order_by_desc_perm in Hr.
    apply list_elem_of_fmap in Hr as ([k g] & -> & Hg).
    apply list_elem_of_filter in Hg as [Hcount Hg]. cbn [snd] in Hcount.
    apply elem_of_group_by in Hg as [_ ->].
    destruct (describe_repetition_spec
                (repetition_of
                   (k, filter (λ x : joined_row, Schema.medicine_name x.1.1 = k) rows)))
      as (-> & -> & Hhigh & Hmoderate & _).
    cbn [repetition_of row_prescription_count row_medicine_name fst snd] in *.
    unfold prescribed, diagnoses. rewrite <- prescription_count_fan_out.
    fold rows. split; [done|]. split; [lia|]. done.
Qed.

End RepetitionEntries.

(* --------------------------------------------------------------------- *)
(** *** The enhanced score, its advice and its colours *)

Section EnhancedAdvice.
Import MedicineRepetition EnhancedHealthRisk.

(** Case analysis on a condition that the code tests with [if] and the
    statement records as a flag. *)
Ltac decide_flag P :=
  destruct (decide P);
  [rewrite ?(bool_decide_eq_true_2 P) by assumption
  |rewrite ?(bool_decide_eq_false_2 P) by assumption].

(** The factors that [calculateEnhancedHealthRiskScore] can list, in the
    order in which it pushes them, with their points; the two factors on
    repeated diseases hang together. *)
Lemma calculateEnhancedHealthRiskScore_factors (pid : Z) (w : world) :
  ∃ v (older diseases medicines doctors chronic usage : bool),
    (calculateEnhancedHealthRiskScore pid w).1 = Returned v ∧
    (λ f, (name f, points f)) <$> factors v =
      (if older then [("Age Factor", 10)] else []) ++
      (if diseases then [("Repeated Diseases", 20)] else []) ++
      (if medicines then [("Repeated Medicines", 20)] else []) ++
      (if doctors then [("Multiple Doctors", 10)] else []) ++
      (if chronic then [("Chronic Conditions", 15)] else []) ++
      (if usage then [("High Medicine Usage", 15)] else []) ∧
    (chronic = true → diseases = true) ∧
    score v = Z.min (HealthIntelligence.sum_of (points <$> factors v)) 100 ∧
    (details v = None ↔ level v = "unknown") ∧
    (∀ d, details v = Some d →
       older = bool_decide (50 < age d) ∧
       diseases = bool_decide (0 < repeated_diseases d) ∧
       medicines = bool_decide (0 < high_risk_medicines d) ∧
       doctors = bool_decide (2 < doctor_count d) ∧
       chronic = bool_decide (2 < repeated_diseases d) ∧
       usage = bool_decide (10 < total_prescriptions d)).
Proof.
  unfold calculateEnhancedHealthRiskScore, try_catch.
  unfold HealthIntelligence.patient_age_query, repeated_diseases_query,
    doctor_count_query.
  rewrite bind_select.
  destruct (faulty w (issued w)) eqn:F1.
  { eexists _, false, false, false, false, false, false.
    by repeat split. }
  set (patientRes := Schema.age <$> filter _ _).
  destruct (decide (length patientRes = 0%nat)) as [Hlen|Hlen].
  { eexists _, false, false, false, false, false, false.
    by repeat split. }
  set (a := js_or (head patientRes ≫= id) 0).
  rewrite bind_select. cbn [faulty issued tick].
  destruct (faulty w (S (issued w))) eqn:F2.
  { eexists _, false, false, false, false, false, false.
    by repeat split. }
  cbn [db now tick date_of].
  set (rd := Z.of_nat (length _)).
  rewrite (bind_returned _ _ _ _ _ (detectMedicineRepetition_run pid _)).
  cbn [faulty issued tick db now].
  set (hrm := length (filter _ _)).
  rewrite bind_select. cbn [faulty issued tick].
  destruct (faulty w (S (S (S (issued w))))) eqn:F4.
  { eexists _, false, false, false, false, false, false.
    by repeat split. }
  cbn [db now tick date_of head].
  set (dc := js_or _ 0).
  destruct (getMedicineUsageStats_run pid (tick (tick (tick (tick w)))))
    as (stats & Hstats & _).
  rewrite (bind_returned _ _ _ _ _ Hstats).
  set (tp := MedicineRepetition.total_prescriptions stats).
  unfold bind, new_Date, ret. cbn [fst snd].
  eexists _, (bool_decide (50 < a)), (bool_decide (0 < rd)),
    (bool_decide (0 < hrm)%nat), (bool_decide (2 < dc)),
    (bool_decide (2 < rd)), (bool_decide (10 < tp)).
  split; [reflexivity|]. cbn [score level factors details].
  rewrite !bool_decide_eq_true. split; [|split; [lia|split; [|split]]].
  - decide_flag (50 < a); decide_flag (0 < rd); decide_flag (0 < hrm)%nat;
      decide_flag (2 < dc); decide_flag (2 < rd); decide_flag (10 < tp);
      reflexivity.
  - decide_flag (50 < a); decide_flag (0 < rd); decide_flag (0 < hrm)%nat;
      decide_flag (2 < dc); decide_flag (2 < rd); decide_flag (10 < tp);
      reflexivity.
  - split; [done|]. intros Hunknown. by apply determineLevel_known in Hunknown.
  - intros d [= <-].
    cbn [age repeated_diseases high_risk_medicines doctor_count
         total_prescriptions].
    repeat split. apply bool_decide_ext. lia.
Qed.


(** Property X11.  [calculateEnhancedHealthRiskScore] always returns, and
    its score is the sum of the points of the factors it lists: the cap at
    100 never applies, and the score is a multiple of 5 between 0 and 90.
    The factors are listed in a fixed order (Age Factor, Repeated Diseases,
    Repeated Medicines, Multiple Doctors, Chronic Conditions, High Medicine
    Usage), each at most once; Chronic Conditions is never listed without
    Repeated Diseases, and then the score is at least 35. *)
Theorem enhanced_score_sums_points (pid : Z) (w : world) :
  ∃ v,
    (calculateEnhancedHealthRiskScore pid w).1 = Returned v ∧
    score v = HealthIntelligence.sum_of (points <$> factors v) ∧
    0 ≤ score v ≤ 90 ∧
    score v `mod` 5 = 0 ∧
    sublist (name <$> factors v)
      [ "Age Factor"; "Repeated Diseases"; "Repeated Medicines";
        "Multiple Doctors"; "Chronic Conditions"; "High Medicine Usage" ] ∧
    ("Chronic Conditions" ∈ name <$> factors v →
     "Repeated Diseases" ∈ name <$> factors v ∧ 35 ≤ score v).
Proof.
  destruct (calculateEnhancedHealthRiskScore_factors pid w)
    as (v & older & diseases & medicines & doctors & chronic & usage &
        Hv & Hpairs & Hchronic & Hscore & _).
  exists v. split; [exact Hv|].
  assert (name <$> factors v = ((λ f, (name f, points f)) <$> factors v).*1)
    as -> by (by rewrite <- list_fmap_compose).
  assert (points <$> factors v = ((λ f, (name f, points f)) <$> factors v).*2)
    as Hpoints by (by rewrite <- list_fmap_compose).
  rewrite Hpoints in Hscore |- *. rewrite Hscore, Hpairs. clear -Hchronic.
  destruct older, diseases, medicines, doctors, chronic, usage;
    try (by specialize (Hchronic eq_refl));
    cbn [app fmap list_fmap fst snd HealthIntelligence.sum_of foldr];
    (split; [reflexivity|]); (split; [lia|]); (split; [reflexivity|]);
    (split;
     [repeat first [apply sublist_nil | apply sublist_skip | apply sublist_cons]
     |rewrite ?elem_of_cons, ?elem_of_nil; intros Hin; split;
      [intuition congruence|]]);
    first [lia | exfalso; intuition congruence].
Qed.

Lemma elem_of_guarded {A} (P : Prop) `{Decision P} (x : A) (l : list A) :
  x ∈ (if decide P then l else []) ↔ P ∧ x ∈ l.
Proof.
  destruct (decide P); [tauto|]. rewrite elem_of_nil. tauto.
Qed.

(** The advice of [getRiskRecommendations], block by block. *)
Lemma getRiskRecommendations_blocks (s : Z) (fs : list factor) :
  getRiskRecommendations s fs =
  (if decide (s = 0)
   then ["Continue maintaining good health practices"] else []) ++
  (if decide (25 ≤ s) then ["Schedule regular health checkups"] else []) ++
  (if decide (50 ≤ s)
   then [ "Consider comprehensive health evaluation";
          "Review current medications with doctor";
          "Increase frequency of medical visits" ] else []) ++
  (if decide (75 ≤ s)
   then [ "⚠️ Urgent health intervention needed";
          "Schedule immediate consultation with specialist";
          "Consider hospitalization/detailed testing" ] else []) ++
  (if decide (0 < length (filter (λ f, name f = "Age Factor") fs))%nat
   then ["Age-appropriate preventive screening recommended"] else []) ++
  (if decide (0 < length (filter (λ f, name f = "Repeated Medicines") fs))%nat
   then [ "Review medicine dependency risks with healthcare provider";
          "Consider medicine rotation or alternatives" ] else []).
Proof.
  unfold getRiskRecommendations.
  set (older := filter (λ f, name f = "Age Factor") fs).
  set (medicines := filter (λ f, name f = "Repeated Medicines") fs).
  by destruct (decide (s = 0)), (decide (25 ≤ s)), (decide (50 ≤ s)),
    (decide (75 ≤ s)), (decide (0 < length older)%nat),
    (decide (0 < length medicines)%nat).
Qed.

(** ... and text by text. *)
Lemma elem_of_getRiskRecommendations (x : string) (s : Z) (fs : list factor) :
  x ∈ getRiskRecommendations s fs ↔
  (s = 0 ∧ x ∈ ["Continue maintaining good health practices"]) ∨
  (25 ≤ s ∧ x ∈ ["Schedule regular health checkups"]) ∨
  (50 ≤ s ∧ x ∈ [ "Consider comprehensive health evaluation";
                  "Review current medications with doctor";
                  "Increase frequency of medical visits" ]) ∨
  (75 ≤ s ∧ x ∈ [ "⚠️ Urgent health intervention needed";
                  "Schedule immediate consultation with specialist";
                  "Consider hospitalization/detailed testing" ]) ∨
  ((∃ f, f ∈ fs ∧ name f = "Age Factor") ∧
   x ∈ ["Age-appropriate preventive screening recommended"]) ∨
  ((∃ f, f ∈ fs ∧ name f = "Repeated Medicines") ∧
   x ∈ [ "Review medicine dependency risks with healthcare provider";
         "Consider medicine rotation or alternatives" ]).
Proof.
  rewrite getRiskRecommendations_blocks, !elem_of_app, !elem_of_guarded.
  by rewrite !filter_nonempty.
Qed.

Lemma settled_true (P : Prop) `{Decision P} : bool_decide P = true → P ↔ True.
Proof. intros HP%bool_decide_eq_true. tauto. Qed.

Lemma settled_false (P : Prop) `{Decision P} :
  bool_decide P = false → P ↔ False.
Proof. intros HP%bool_decide_eq_false. tauto. Qed.

(** Membership of a given text in a given list of texts is settled by
    evaluation. *)
Ltac settle_membership :=
  repeat match goal with
  | |- context [@elem_of string (list string) _ ?x ?l] =>
      first [ rewrite (settled_true (x ∈ l)) by (by vm_compute)
            | rewrite (settled_false (x ∈ l)) by (by vm_compute) ]
  end.

(** Property X13.  [getRiskRecommendations], applied to the score and the
    factors of a result of [calculateEnhancedHealthRiskScore] as the risk
    route does, gives the advice of urgent intervention exactly at level
    critical, that of a comprehensive evaluation exactly at the levels
    critical and high, that of regular checkups exactly at critical, high
    and moderate, and 'Continue maintaining good health practices' exactly
    at score 0; for a result of level unknown this last one is the only
    advice. *)
Theorem advice_follows_level (pid : Z) (w : world) :
  ∃ v,
    (calculateEnhancedHealthRiskScore pid w).1 = Returned v ∧
    let advice := getRiskRecommendations (score v) (factors v) in
    ("⚠️ Urgent health intervention needed" ∈ advice ↔ level v = "critical") ∧
    ("Consider comprehensive health evaluation" ∈ advice ↔
       level v = "critical" ∨ level v = "high") ∧
    ("Schedule regular health checkups" ∈ advice ↔
       level v = "critical" ∨ level v = "high" ∨ level v = "moderate") ∧
    ("Continue maintaining good health practices" ∈ advice ↔ score v = 0) ∧
    (level v = "unknown" →
       advice = ["Continue maintaining good health practices"]).
Proof.
  destruct (calculateEnhancedHealthRiskScore_outcome pid w)
    as (v & Hv & _ & _ & Hrange & Hlevel).
  exists v. split; [exact Hv|]. cbn zeta.
  rewrite !elem_of_getRiskRecommendations. settle_membership.
  destruct Hlevel as [(Hl & Hs & Hf & _)|[Hl _]].
  - rewrite Hl, Hs, Hf.
    repeat split; try (intuition (try congruence; try lia)).
  - pose proof (determineLevel_thresholds (score v)) as (Hc & Hh & Hm & Hlow).
    pose proof (determineLevel_known (score v)) as Hk.
    rewrite Hl, Hc, Hh, Hm.
    repeat split; try (intuition (try congruence; try lia)).
Qed.

(** Property X14.  For a positive score, raising the score with the same
    factors never removes an advice of [getRiskRecommendations]; and the
    list is empty exactly when the score is below 25 and neither an Age
    Factor nor a Repeated Medicines factor is listed. *)
Theorem advice_grows_with_score (s s' : Z) (fs : list factor) :
  0 < s ≤ s' →
  (∀ x, x ∈ getRiskRecommendations s fs → x ∈ getRiskRecommendations s' fs) ∧
  (getRiskRecommendations s fs = [] ↔
     s < 25 ∧
     ∀ f, f ∈ fs → name f ≠ "Age Factor" ∧ name f ≠ "Repeated Medicines").
Proof.
  intros Hs. split.
  - intros x. rewrite !elem_of_getRiskRecommendations.
    intuition (try lia).
  - rewrite getRiskRecommendations_blocks.
    rewrite (decide_False (P := s = 0)) by lia. cbn [app].
    destruct (decide (25 ≤ s)) as [H25|H25]; [split; [done|lia]|].
    rewrite (decide_False (P := 50 ≤ s)) by lia.
    rewrite (decide_False (P := 75 ≤ s)) by lia. cbn [app].
    destruct (decide (0 < length (filter (λ f, name f = "Age Factor") fs))%nat)
      as [Ha|Ha]; rewrite filter_nonempty in Ha.
    { split; [done|]. intros [_ Hno]. destruct Ha as (f & Hf & Hn).
      by destruct (Hno f Hf). }
    destruct (decide (0 < length (filter (λ f, name f = "Repeated Medicines") fs))%nat)
      as [Hm|Hm]; rewrite filter_nonempty in Hm.
    { split; [done|]. intros [_ Hno]. destruct Hm as (f & Hf & Hn).
      by destruct (Hno f Hf). }
    split; [|done]. intros _. split; [lia|]. intros f Hf.
    split; intros Hn; [apply Ha|apply Hm]; by exists f.
Qed.

Lemma advice_grows_with_score_witness :
  0 < 10 ≤ 80 ∧
  getRiskRecommendations 10 [] = [] ∧
  "Schedule regular health checkups" ∈ getRiskRecommendations 80 [].
Proof.
  assert (0 < 10 ≤ 80) as Hs by lia.
  destruct (advice_grows_with_score 10 80 [] Hs) as [_ Hempty].
  split; [exact Hs|]. split.
  - apply Hempty. split; [lia|]. by intros f ?%elem_of_nil.
  - apply (bool_decide_unpack _). by vm_compute.
Defined.

(** Property X15.  On the levels that [calculateEnhancedHealthRiskScore]
    returns, [getRiskLevelColor] is injective: two results have the same
    colour only when they have the same level.  The grey #6c757d of the
    fallback is the colour of level unknown only, and the red #dc3545 that
    of level critical only. *)
Theorem colour_identifies_level (pid pid' : Z) (w w' : world) :
  ∃ v v',
    (calculateEnhancedHealthRiskScore pid w).1 = Returned v ∧
    (calculateEnhancedHealthRiskScore pid' w').1 = Returned v' ∧
    (getRiskLevelColor (level v) = "#6c757d" ↔ level v = "unknown") ∧
    (getRiskLevelColor (level v) = "#dc3545" ↔ level v = "critical") ∧
    (getRiskLevelColor (level v) = getRiskLevelColor (level v') →
     level v = level v').
Proof.
  assert (Hlevels : ∀ p u, ∃ r,
    (calculateEnhancedHealthRiskScore p u).1 = Returned r ∧
    level r ∈ ["unknown"; "critical"; "high"; "moderate"; "low"]).
  { intros p u.
    destruct (calculateEnhancedHealthRiskScore_outcome p u)
      as (r & Hr & _ & _ & _ & [(Hl & _)|[Hl _]]);
      exists r; (split; [exact Hr|]); rewrite Hl; [by left|].
    unfold determineLevel. repeat case_decide;
      rewrite !elem_of_cons; auto 10. }
  destruct (Hlevels pid w) as (v & Hv & Hl).
  destruct (Hlevels pid' w') as (v' & Hv' & Hl').
  exists v, v'. split; [exact Hv|]. split; [exact Hv'|].
  rewrite !elem_of_cons, elem_of_nil in Hl, Hl'.
  destruct Hl as [->|[->|[->|[->|[->|[]]]]]];
    (split; [by vm_compute|]); (split; [by vm_compute|]);
    destruct Hl' as [->|[->|[->|[->|[->|[]]]]]]; by vm_compute.
Qed.

(** A factor that is pushed under a condition is listed under its name
    exactly when the condition holds. *)
Lemma elem_of_optional_entry (b : bool) (s n : string) (p : Z) :
  n ∈ (if b then [(s, p)] else []).*1 ↔ b = true ∧ n = s.
Proof.
  destruct b; cbn [fmap list_fmap fst].
  - rewrite list_elem_of_singleton. intuition.
  - rewrite elem_of_nil. intuition discriminate.
Qed.

(** Property X12.  The result of [calculateEnhancedHealthRiskScore] lacks
    the detail fields exactly when its level is unknown.  When it has them,
    they explain the factors listed: Age Factor is listed exactly when
    [age] is above 50, Repeated Diseases exactly when [repeated_diseases]
    is positive, Repeated Medicines exactly when [high_risk_medicines] is
    positive, Multiple Doctors exactly when [doctor_count] is above 2,
    Chronic Conditions exactly when [repeated_diseases] is above 2, and
    High Medicine Usage exactly when [total_prescriptions] is above 10. *)
Theorem enhanced_factors_match_details (pid : Z) (w : world) :
  ∃ v,
    (calculateEnhancedHealthRiskScore pid w).1 = Returned v ∧
    (details v = None ↔ level v = "unknown") ∧
    ∀ d, details v = Some d →
      let listed (n : string) := n ∈ name <$> factors v in
      (listed "Age Factor" ↔ 50 < age d) ∧
      (listed "Repeated Diseases" ↔ 0 < repeated_diseases d) ∧
      (listed "Repeated Medicines" ↔ 0 < high_risk_medicines d) ∧
      (listed "Multiple Doctors" ↔ 2 < doctor_count d) ∧
      (listed "Chronic Conditions" ↔ 2 < repeated_diseases d) ∧
      (listed "High Medicine Usage" ↔ 10 < total_prescriptions d).
Proof.
  destruct (calculateEnhancedHealthRiskScore_factors pid w)
    as (v & older & diseases & medicines & doctors & chronic & usage &
        Hv & Hpairs & _ & _ & Hnone & Hdetails).
  exists v. split; [exact Hv|]. split; [exact Hnone|].
  intros d Hd listed. unfold listed. clear listed.
  destruct (Hdetails d Hd) as (Ho & Hdi & Hme & Hdo & Hch & Hus).
  assert (name <$> factors v = ((λ f, (name f, points f)) <$> factors v).*1)
    as -> by (by rewrite <- list_fmap_compose).
  rewrite Hpairs, !fmap_app, !elem_of_app.
  rewrite <- (bool_decide_eq_true (50 < age d)), <- Ho.
  rewrite <- (bool_decide_eq_true (0 < repeated_diseases d)), <- Hdi.
  rewrite <- (bool_decide_eq_true (0 < high_risk_medicines d)), <- Hme.
  rewrite <- (bool_decide_eq_true (2 < doctor_count d)), <- Hdo.
  rewrite <- (bool_decide_eq_true (2 < repeated_diseases d)), <- Hch.
  rewrite <- (bool_decide_eq_true (10 < total_prescriptions d)), <- Hus.
  rewrite !elem_of_optional_entry.
  clear. repeat split; intuition discriminate.
Qed.

End EnhancedAdvice.

(* --------------------------------------------------------------------- *)
(** *** Chat: sending, reading, counting and deleting messages *)

(** Two rows of a table with the same value of a unique key are one row. *)
Lemma unique_key_inj {A K} (key : A → K) (l : list A) (a b : A) :
  NoDup (key <$> l) → a ∈ l → b ∈ l → key a = key b → a = b.
Proof.
  induction l as [|x l IH]; [by intros _ ?%elem_of_nil|].
  rewrite fmap_cons, NoDup_cons. intros [Hx Hl] Ha Hb Hk.
  apply elem_of_cons in Ha as [->|Ha]; apply elem_of_cons in Hb as [->|Hb].
  - done.
  - exfalso. apply Hx. rewrite Hk. by apply list_elem_of_fmap_2.
  - exfalso. apply Hx. rewrite <- Hk. by apply list_elem_of_fmap_2.
  - by apply IH.
Qed.

Section ChatSend.
Import Chat.

(** With unique appointment ids and the two foreign keys of the
    appointment in place, the SELECT of [sendMessage] reads the parties of
    that appointment. *)
Lemma appointment_query_parties (d : database) (t : Timestamp)
    (a : appointment_row) :
  NoDup (Schema.appointment_id <$> appointments d) →
  a ∈ appointments d →
  a_patient_id a ∈ Schema.patient_id <$> patients d →
  a_doctor_id a ∈ Schema.doctor_id <$> doctors d →
  ∃ rows,
    appointment_query (Schema.appointment_id a) d t = Returned (rows, d) ∧
    rows ≠ [] ∧
    ∀ row, row ∈ rows →
      patient_id row = Some (a_patient_id a) ∧
      doctor_id row = Some (a_doctor_id a).
Proof.
  intros Hkey Ha Hp Hd.
  destruct (appointment_query (Schema.appointment_id a) d t)
    as [[rows d']|e] eqn:Hq; [|done].
  pose proof (appointment_query_rows _ _ _ _ _ Hq) as (-> & _ & Hsome).
  exists rows. split; [done|].
  split; [apply Hsome; by apply list_elem_of_fmap_2|].
  unfold appointment_query, select in Hq. injection Hq as <-.
  intros row ([[a' op] od] & -> & Hx)%list_elem_of_fmap.
  apply list_elem_of_filter in Hx as [Hid Hx]. cbn [fst snd] in Hid.
  apply elem_of_left_join in Hx as [Hx Hod]. cbn [fst snd] in Hod.
  apply elem_of_left_join in Hx as [Ha' Hop].
  assert (a' = a) as -> by (by eapply unique_key_inj).
  cbn [patient_id doctor_id fst snd]. split.
  - destruct op as [p|]; [by destruct Hop as [_ [= ->]]|].
    apply list_elem_of_fmap in Hp as (p & Hp & Hin).
    destruct (Hop p Hin). by rewrite Hp.
  - destruct od as [dr|]; [by destruct Hod as [_ [= ->]]|].
    apply list_elem_of_fmap in Hd as (dr & Hd & Hin).
    destruct (Hod dr Hin). by rewrite Hd.
Qed.

(** What [sendMessage] does for a party of the appointment. *)
Lemma sendMessage_by_party
    (a : appointment_row) (senderId : Z) (senderRole : string)
    (messageText : option string) (w : world) :
  no_fault w 2 →
  NoDup (Schema.appointment_id <$> appointments (db w)) →
  a ∈ appointments (db w) →
  a_patient_id a ∈ Schema.patient_id <$> patients (db w) →
  a_doctor_id a ∈ Schema.doctor_id <$> doctors (db w) →
  is_party a senderId senderRole →
  sendMessage (Schema.appointment_id a) senderId senderRole messageText w =
  match messageText with
  | Some text =>
      let new :=
        {| message_id := messages_message_id_seq (db w);
           m_appointment_id := Schema.appointment_id a;
           sender_id := senderId;
           sender_role := senderRole;
           message := text;
           is_read := false;
           timestamp := now w |} in
      (Returned {| success := true; sent := Some new |},
       with_db
         (with_messages (messages (db w) ++ [new])
            (messages_message_id_seq (db w) + 1) (db w))
         (tick (tick w)))
  | None =>
      (Thrown (ConstraintViolation "messages_message_not_null"),
       tick (tick w))
  end.
Proof.
  intros Hnf Hkey Ha Hp Hd Hparty.
  pose proof (Hnf 0%nat ltac:(lia)) as F1.
  pose proof (Hnf 1%nat ltac:(lia)) as F2.
  rewrite Nat.add_0_r in F1. rewrite Nat.add_1_r in F2.
  destruct (appointment_query_parties (db w) (now w) a Hkey Ha Hp Hd)
    as (rows & Hq & Hne & Hrows).
  unfold sendMessage, try_catch, bind, pool_query.
  rewrite F1, Hq. destruct rows as [|row rows]; [done|].
  destruct (Hrows row ltac:(left)) as [-> ->].
  assert (Hvalid :
    bool_decide (senderRole = "patient" ∧ Some (a_patient_id a) = Some senderId)
    || bool_decide (senderRole = "doctor" ∧ Some (a_doctor_id a) = Some senderId)
    = true).
  { apply orb_true_iff. destruct Hparty as [[-> <-]|[-> <-]]; [left|right];
      by apply bool_decide_eq_true. }
  rewrite Hvalid. cbn [negb faulty issued tick with_db db now].
  rewrite F2. destruct messageText as [text|]; [|done].
  unfold insert_message.
  rewrite decide_False.
  2:{ intros Hrole. apply Hrole.
      destruct Hparty as [[-> _]|[-> _]]; rewrite !elem_of_cons; auto. }
  rewrite decide_False.
  2:{ intros Hfk. apply Hfk. by apply list_elem_of_fmap_2. }
  done.
Qed.

(** Property X16.  When both queries are answered, appointment ids are
    unique and the appointment refers to an existing patient and doctor, a
    message sent by the patient or the doctor of the appointment in their
    own role is stored as one new row at the end of [messages]: it has the
    next id of the sequence, which advances by one, the appointment, the
    sender, the role and the text given, the current time, and is unread;
    the appointments are unchanged.  Sending no text (NULL) throws the NOT
    NULL violation of the table. *)
Theorem sendMessage_appends_one_unread_message
    (a : appointment_row) (senderId : Z) (senderRole text : string)
    (w : world) :
  no_fault w 2 →
  NoDup (Schema.appointment_id <$> appointments (db w)) →
  a ∈ appointments (db w) →
  a_patient_id a ∈ Schema.patient_id <$> patients (db w) →
  a_doctor_id a ∈ Schema.doctor_id <$> doctors (db w) →
  is_party a senderId senderRole →
  let out :=
    sendMessage (Schema.appointment_id a) senderId senderRole (Some text) w in
  ∃ new,
    out.1 = Returned {| success := true; sent := Some new |} ∧
    messages (db out.2) = messages (db w) ++ [new] ∧
    message_id new = messages_message_id_seq (db w) ∧
    messages_message_id_seq (db out.2) = messages_message_id_seq (db w) + 1 ∧
    m_appointment_id new = Schema.appointment_id a ∧
    sender_id new = senderId ∧ sender_role new = senderRole ∧
    message new = text ∧ is_read new = false ∧ timestamp new = now w ∧
    appointments (db out.2) = appointments (db w) ∧
    (sendMessage (Schema.appointment_id a) senderId senderRole None w).1 =
      Thrown (ConstraintViolation "messages_message_not_null").
Proof.
  intros Hnf Hkey Ha Hp Hd Hparty. cbn zeta.
  rewrite !(sendMessage_by_party a senderId senderRole _ w
              Hnf Hkey Ha Hp Hd Hparty).
  eexists. split; [reflexivity|]. by repeat split.
Qed.

End ChatSend.

Section ChatRead.
Import Chat.

Lemma markMessagesAsRead_run (appointmentId userId : Z) (userRole : string)
    (w : world) :
  markMessagesAsRead appointmentId userId userRole w =
  if faulty w (issued w) then (Returned [], tick w)
  else
    (Returned (mark_read <$>
                 filter (to_mark appointmentId userRole) (messages (db w))),
     with_db
       (with_messages
          ((λ m, if decide (to_mark appointmentId userRole m)
                 then mark_read m else m) <$> messages (db w))
          (messages_message_id_seq (db w)) (db w))
       (tick w)).
Proof.
  unfold markMessagesAsRead, try_catch, bind, pool_query, mark_read_update, ret.
  by destruct (faulty w (issued w)).
Qed.

(** Property X17.  When its query is answered, [markMessagesAsRead]
    returns the rows it has marked, all read now: the unread messages of the
    appointment whose sender role is not the role given (the user id is not
    consulted).  Afterwards every message of the appointment from another
    role is read; no message has been added, removed or moved; the messages
    that were not marked are unchanged; and a second call in the same role,
    by any user, returns the empty list and changes no message. *)
Theorem markMessagesAsRead_marks_the_other_side
    (appointmentId userId : Z) (userRole : string) (w : world) :
  faulty w (issued w) = false →
  let out := markMessagesAsRead appointmentId userId userRole w in
  let before := messages (db w) in
  let after := messages (db out.2) in
  (∃ rows, out.1 = Returned rows ∧
           message_id <$> rows =
           message_id <$> filter (to_mark appointmentId userRole) before ∧
           Forall (λ m, is_read m = true) rows) ∧
  message_id <$> after = message_id <$> before ∧
  (∀ m, m ∈ after → m_appointment_id m = appointmentId →
        sender_role m ≠ userRole → is_read m = true) ∧
  (∀ m, m ∈ before → ¬ to_mark appointmentId userRole m → m ∈ after) ∧
  (∀ m, m ∈ after → (m ∈ before ∨
                     ∃ m0, m0 ∈ before ∧ to_mark appointmentId userRole m0 ∧
                           m = mark_read m0)) ∧
  (∀ userId', faulty out.2 (issued out.2) = false →
     let again := markMessagesAsRead appointmentId userId' userRole out.2 in
     again.1 = Returned [] ∧ messages (db again.2) = after).
Proof.
  intros Hok. cbn zeta. rewrite markMessagesAsRead_run, Hok.
  cbn [fst snd db with_db messages with_messages].
  set (hit := to_mark appointmentId userRole).
  set (f := λ m, if decide (hit m) then mark_read m else m).
  assert (Hf_id : ∀ m, message_id (f m) = message_id m).
  { intros m. unfold f. by destruct (decide _). }
  assert (Hf_hit : ∀ m, ¬ hit (f m)).
  { intros m. unfold f. destruct (decide (hit m)) as [Hm|Hm]; [|done].
    by intros (_ & _ & Hread). }
  split; [|split; [|split; [|split; [|split]]]].
  - eexists. split; [reflexivity|]. split.
    + rewrite <- list_fmap_compose. by apply list_fmap_ext.
    + apply Forall_fmap, Forall_forall. by intros.
  - rewrite <- list_fmap_compose. apply list_fmap_ext. intros ? m _. apply Hf_id.
  - intros m (m0 & -> & Hm0)%list_elem_of_fmap Happ Hrole.
    destruct (is_read (f m0)) eqn:Hread; [done|].
    by destruct (Hf_hit m0).
  - intros m Hm Hnot. apply list_elem_of_fmap. exists m. split; [|done].
    unfold f. by rewrite decide_False.
  - intros m (m0 & -> & Hm0)%list_elem_of_fmap. unfold f.
    destruct (decide (hit m0)); [right; by exists m0|by left].
  - intros userId' Hok'. rewrite markMessagesAsRead_run, Hok'.
    cbn [fst snd db with_db messages with_messages messages_message_id_seq].
    fold hit. fold f.
    assert (filter hit (f <$> messages (db w)) = []) as Hnone.
    { apply list_nil_iff. intros m [Hm Hin]%list_elem_of_filter.
      apply list_elem_of_fmap in Hin as (m0 & -> & _). by destruct (Hf_hit m0). }
    rewrite Hnone. split; [done|].
    rewrite <- list_fmap_compose. apply list_fmap_ext. intros ? m _.
    unfold compose. unfold f at 1. by rewrite decide_False by apply Hf_hit.
Qed.

End ChatRead.

Section JoinUpdates.
Context {A B K : Type} `{EqDecision K}.

(** An update of the left table that keeps the join key updates the join
    row by row. *)
Lemma inner_join_fmap_l (ka : A → K) (kb : B → K) (f : A → A)
    (l : list A) (r : list B) :
  (∀ a, ka (f a) = ka a) →
  inner_join ka kb (f <$> l) r = (λ x, (f x.1, x.2)) <$> inner_join ka kb l r.
Proof.
  intros Hf. unfold inner_join. induction l as [|a l IH]; [done|].
  rewrite fmap_cons, !bind_cons, fmap_app, IH. f_equal.
  rewrite <- list_fmap_compose.
  rewrite (list_filter_iff (λ b, ka (f a) = kb b) (λ b, ka a = kb b))
    by (intros b; by rewrite Hf).
  done.
Qed.

Lemma inner_join_app_l (ka : A → K) (kb : B → K) (l1 l2 : list A)
    (r : list B) :
  inner_join ka kb (l1 ++ l2) r =
  inner_join ka kb l1 r ++ inner_join ka kb l2 r.
Proof. unfold inner_join. by rewrite bind_app. Qed.

End JoinUpdates.

Lemma filter_fmap_pre {A B} (P : B → Prop) `{∀ x, Decision (P x)}
    (g : A → B) (l : list A) :
  filter P (g <$> l) = g <$> filter (λ a, P (g a)) l.
Proof.
  induction l as [|a l IH]; [done|].
  rewrite fmap_cons, !filter_cons, IH. by destruct (decide (P (g a))).
Qed.

Section ChatUnread.
Import Chat.

Lemma getUnreadMessageCount_run (userId : Z) (userRole : string) (w : world) :
  getUnreadMessageCount userId userRole w =
  if decide (userRole = "patient") then
    (Returned (if faulty w (issued w) then 0
               else count_rows (unread_messages (db w) a_patient_id userId "doctor")),
     tick w)
  else if decide (userRole = "doctor") then
    (Returned (if faulty w (issued w) then 0
               else count_rows (unread_messages (db w) a_doctor_id userId "patient")),
     tick w)
  else (Returned 0, w).
Proof.
  unfold getUnreadMessageCount.
  destruct (decide (userRole = "patient")); [|destruct (decide (userRole = "doctor"))].
  - unfold unread_count_query. rewrite guarded_select.
    destruct (faulty w (issued w)); [done|].
    cbn [head]. by rewrite js_or_count.
  - unfold unread_count_query. rewrite guarded_select.
    destruct (faulty w (issued w)); [done|].
    cbn [head]. by rewrite js_or_count.
  - done.
Qed.

Lemma getUnreadMessageCount_patient (userId : Z) (w : world) :
  getUnreadMessageCount userId "patient" w =
  (Returned (if faulty w (issued w) then 0
             else count_rows (unread_messages (db w) a_patient_id userId "doctor")),
   tick w).
Proof. rewrite getUnreadMessageCount_run. by rewrite decide_True. Qed.

Lemma getUnreadMessageCount_doctor (userId : Z) (w : world) :
  getUnreadMessageCount userId "doctor" w =
  (Returned (if faulty w (issued w) then 0
             else count_rows (unread_messages (db w) a_doctor_id userId "patient")),
   tick w).
Proof.
  rewrite getUnreadMessageCount_run.
  rewrite decide_False by done. by rewrite decide_True.
Qed.

(** The unread messages of a user after the other side's messages of one
    appointment have been marked as read. *)
Lemma unread_messages_after_marking (d : database)
    (party : appointment_row → Z) (userId appointmentId : Z)
    (reader sender : string) :
  sender ≠ reader →
  length (unread_messages
            (with_messages
               ((λ m, if decide (to_mark appointmentId reader m)
                      then mark_read m else m) <$> messages d)
               (messages_message_id_seq d) d)
            party userId sender) =
  length (filter (λ x, m_appointment_id x.1 ≠ appointmentId)
            (unread_messages d party userId sender)).
Proof.
  intros Hne. unfold unread_messages.
  cbn [messages appointments with_messages].
  set (f := λ m, if decide (to_mark appointmentId reader m)
                 then mark_read m else m).
  rewrite (inner_join_fmap_l _ _ f)
    by (intros m; unfold f; by destruct (decide _)).
  rewrite filter_fmap_pre, length_fmap, list_filter_filter.
  f_equal. apply list_filter_iff. intros [m a]. cbn [fst snd].
  unfold f, to_mark.
  destruct (decide (m_appointment_id m = appointmentId ∧
                    sender_role m ≠ reader ∧ is_read m = false))
    as [(Happ & Hrole & Hread)|Hnot]; cbn [mark_read sender_role is_read].
  - split; [by intros (_ & _ & ?)|]. by intros [? _].
  - split.
    + intros (Hp & Hs & Hr). split; [|done]. intros Happ. apply Hnot.
      split; [done|]. split; [congruence|done].
    + by intros [_ ?].
Qed.

(** Property X18.  After [markMessagesAsRead] for an appointment in a
    role, [getUnreadMessageCount] of a user in that role counts the unread
    messages of the other side in the other appointments of the user only:
    no message of the appointment just read is counted.  For a role other
    than patient and doctor the count is 0. *)
Theorem unread_count_after_reading (userId appointmentId reader : Z)
    (w : world) :
  no_fault w 2 →
  let count (userRole : string) :=
    (getUnreadMessageCount userId userRole
       (markMessagesAsRead appointmentId reader userRole w).2).1 in
  count "patient" =
    Returned (count_rows
                (filter (λ x, m_appointment_id x.1 ≠ appointmentId)
                   (unread_messages (db w) a_patient_id userId "doctor"))) ∧
  count "doctor" =
    Returned (count_rows
                (filter (λ x, m_appointment_id x.1 ≠ appointmentId)
                   (unread_messages (db w) a_doctor_id userId "patient"))) ∧
  (∀ userRole, userRole ≠ "patient" → userRole ≠ "doctor" →
     (getUnreadMessageCount userId userRole w).1 = Returned 0).
Proof.
  intros Hnf.
  pose proof (Hnf 0%nat ltac:(lia)) as F1.
  pose proof (Hnf 1%nat ltac:(lia)) as F2.
  rewrite Nat.add_0_r in F1. rewrite Nat.add_1_r in F2.
  intros count. unfold count. clear count.
  rewrite !markMessagesAsRead_run, F1. cbn [snd].
  rewrite getUnreadMessageCount_patient, getUnreadMessageCount_doctor.
  cbn [faulty issued tick with_db db fst]. rewrite F2.
  split; [|split].
  - cbn [fst]. f_equal. unfold count_rows.
    f_equal. by apply unread_messages_after_marking.
  - cbn [fst]. f_equal. unfold count_rows. f_equal.
    by apply unread_messages_after_marking.
  - intros userRole H1 H2. rewrite getUnreadMessageCount_run.
    by rewrite !decide_False.
Qed.

End ChatUnread.

Lemma filter_unique_key_eq {A K} `{EqDecision K} (key : A → K) (l : list A)
    (a : A) :
  NoDup (key <$> l) → a ∈ l → filter (λ b, key b = key a) l = [a].
Proof.
  intros Hkey Ha.
  pose proof (filter_unique_key key l (key a) Hkey) as Hone.
  assert (a ∈ filter (λ b, key b = key a) l) as Hin
    by (by apply list_elem_of_filter).
  destruct (filter (λ b, key b = key a) l) as [|b [|c rest]];
    [by apply elem_of_nil in Hin| |cbn in Hone; lia].
  by apply list_elem_of_singleton in Hin as ->.
Qed.

Section ChatNotify.
Import Chat.

(** The unread messages of a user after one more unread message has been
    written into an appointment. *)
Lemma unread_messages_after_insert (d : database) (seq : Z)
    (party : appointment_row → Z) (userId : Z) (sender : string)
    (m : message_row) (a : appointment_row) :
  NoDup (Schema.appointment_id <$> appointments d) →
  a ∈ appointments d →
  m_appointment_id m = Schema.appointment_id a →
  is_read m = false →
  unread_messages (with_messages (messages d ++ [m]) seq d) party userId sender =
  unread_messages d party userId sender ++
  (if decide (party a = userId ∧ sender_role m = sender) then [(m, a)] else []).
Proof.
  intros Hkey Ha Hm Hread. unfold unread_messages.
  cbn [messages appointments with_messages].
  rewrite inner_join_app_l, filter_app. f_equal.
  unfold inner_join. cbn [mbind list_bind]. rewrite app_nil_r.
  rewrite (list_filter_iff _ (λ b, Schema.appointment_id b = Schema.appointment_id a))
    by (intros b; rewrite Hm; split; congruence).
  rewrite (filter_unique_key_eq Schema.appointment_id _ a Hkey Ha).
  cbn [fmap list_fmap]. rewrite filter_cons, filter_nil. cbn [fst snd].
  destruct (decide (party a = userId ∧ sender_role m = sender)) as [[? ?]|Hno].
  - by rewrite decide_True.
  - rewrite decide_False; [done|]. intros (? & ? & _). by apply Hno.
Qed.

(** Property X19.  When the queries are answered, appointment ids are
    unique and the appointment refers to an existing patient and doctor: a
    message sent by the doctor of an appointment raises the unread count of
    its patient by one, a message sent by the patient raises that of its
    doctor by one, and the unread count of the sender is unchanged. *)
Theorem sendMessage_raises_unread_count
    (a : appointment_row) (senderId : Z) (senderRole text : string)
    (w : world) :
  no_fault w 3 →
  NoDup (Schema.appointment_id <$> appointments (db w)) →
  a ∈ appointments (db w) →
  a_patient_id a ∈ Schema.patient_id <$> patients (db w) →
  a_doctor_id a ∈ Schema.doctor_id <$> doctors (db w) →
  is_party a senderId senderRole →
  let w' :=
    (sendMessage (Schema.appointment_id a) senderId senderRole (Some text) w).2 in
  (senderRole = "doctor" →
     (getUnreadMessageCount (a_patient_id a) "patient" w').1 =
     Returned (count_rows (unread_messages (db w) a_patient_id
                             (a_patient_id a) "doctor") + 1)) ∧
  (senderRole = "patient" →
     (getUnreadMessageCount (a_doctor_id a) "doctor" w').1 =
     Returned (count_rows (unread_messages (db w) a_doctor_id
                             (a_doctor_id a) "patient") + 1)) ∧
  (getUnreadMessageCount senderId senderRole w').1 =
  (getUnreadMessageCount senderId senderRole w).1.
Proof.
  intros Hnf Hkey Ha Hp Hd Hparty.
  assert (no_fault w 2) as Hnf2 by (intros k Hk; apply Hnf; lia).
  cbn zeta.
  rewrite (sendMessage_by_party a senderId senderRole (Some text) w
             Hnf2 Hkey Ha Hp Hd Hparty).
  cbn [snd].
  pose proof (Hnf 0%nat ltac:(lia)) as F1. rewrite Nat.add_0_r in F1.
  pose proof (Hnf 2%nat ltac:(lia)) as F3.
  replace (issued w + 2)%nat with (S (S (issued w))) in F3 by lia.
  split; [|split].
  - intros ->. rewrite getUnreadMessageCount_patient.
    cbn [faulty issued tick with_db db fst]. rewrite F3.
    rewrite (unread_messages_after_insert _ _ _ _ _ _ a) by done.
    rewrite decide_True by done. unfold count_rows.
    rewrite length_app. cbn [length]. f_equal. lia.
  - intros ->. rewrite getUnreadMessageCount_doctor.
    cbn [faulty issued tick with_db db fst]. rewrite F3.
    rewrite (unread_messages_after_insert _ _ _ _ _ _ a) by done.
    rewrite decide_True by done. unfold count_rows.
    rewrite length_app. cbn [length]. f_equal. lia.
  - destruct Hparty as [[-> <-]|[-> <-]].
    + rewrite !getUnreadMessageCount_patient.
      cbn [faulty issued tick with_db db fst]. rewrite F3, F1.
      rewrite (unread_messages_after_insert _ _ _ _ _ _ a) by done.
      rewrite decide_False by (by intros [_ ?]). by rewrite app_nil_r.
    + rewrite !getUnreadMessageCount_doctor.
      cbn [faulty issued tick with_db db fst]. rewrite F3, F1.
      rewrite (unread_messages_after_insert _ _ _ _ _ _ a) by done.
      rewrite decide_False by (by intros [_ ?]). by rewrite app_nil_r.
Qed.

End ChatNotify.

Section ChatDelete.
Import Chat.

Lemma deleteMessage_run (messageId userId : Z) (userRole : string) (w : world) :
  no_fault w 2 →
  deleteMessage messageId userId userRole w =
  match filter (λ m, message_id m = messageId) (messages (db w)) with
  | [] => (Thrown (Error "Message not found"), tick w)
  | message :: _ =>
      if decide (sender_id message ≠ userId ∧ userRole ≠ "admin")
      then (Thrown (Error "Unauthorized: can only delete own messages"), tick w)
      else (Returned {| deleted := true |},
            with_db
              (with_messages
                 (filter (λ m, message_id m ≠ messageId) (messages (db w)))
                 (messages_message_id_seq (db w)) (db w))
              (tick (tick w)))
  end.
Proof.
  intros Hnf.
  pose proof (Hnf 0%nat ltac:(lia)) as F1.
  pose proof (Hnf 1%nat ltac:(lia)) as F2.
  rewrite Nat.add_0_r in F1. rewrite Nat.add_1_r in F2.
  unfold deleteMessage, try_catch, message_query. rewrite bind_select, F1.
  cbn [db tick now].
  destruct (filter _ (messages (db w))) as [|message rest]; [done|].
  destruct (decide _); [done|].
  unfold bind, pool_query, delete_message, ret.
  cbn [faulty issued tick db now]. by rewrite F2.
Qed.

(** Property X20.  With unique message ids and both queries answered,
    [deleteMessage] succeeds exactly when the message exists and the id of
    the caller is the sender id of the message or the role of the caller is
    admin; the sender role of the message plays no part.  On success
    exactly that message is removed; otherwise the store is unchanged, and
    the error is 'Message not found' for an unknown id and
    'Unauthorized: can only delete own messages' for a message of another
    sender.  Every other message is kept in either case. *)
Theorem deleteMessage_checks_the_sender_id (messageId userId : Z)
    (userRole : string) (w : world) :
  no_fault w 2 →
  NoDup (message_id <$> messages (db w)) →
  let out := deleteMessage messageId userId userRole w in
  let before := messages (db w) in
  let after := messages (db out.2) in
  ((∃ r, out.1 = Returned r) ↔
   ∃ m, m ∈ before ∧ message_id m = messageId ∧
        (sender_id m = userId ∨ userRole = "admin")) ∧
  ((∃ r, out.1 = Returned r) →
     after = filter (λ m, message_id m ≠ messageId) before) ∧
  ((∀ r, out.1 ≠ Returned r) → db out.2 = db w) ∧
  (messageId ∉ message_id <$> before →
     out.1 = Thrown (Error "Message not found")) ∧
  (∀ m, m ∈ before → message_id m = messageId →
        sender_id m ≠ userId → userRole ≠ "admin" →
        out.1 = Thrown (Error "Unauthorized: can only delete own messages")) ∧
  (∀ m, message_id m ≠ messageId → m ∈ after ↔ m ∈ before).
Proof.
  intros Hnf Hkey. cbn zeta. rewrite (deleteMessage_run _ _ _ _ Hnf).
  destruct (filter (λ m, message_id m = messageId) (messages (db w)))
    as [|message rest] eqn:Hf.
  - cbn [fst snd db tick].
    assert (Hnone : ∀ m, m ∈ messages (db w) → message_id m ≠ messageId).
    { intros m Hm Hid.
      assert (m ∈ filter (λ m, message_id m = messageId) (messages (db w)))
        as Hin by (by apply list_elem_of_filter).
      rewrite Hf in Hin. by apply elem_of_nil in Hin. }
    split; [split; [by intros [r ?]|intros (m & Hm & Hid & _); by destruct (Hnone m Hm)]|].
    split; [by intros [r ?]|]. split; [done|]. split; [done|].
    split; [intros m Hm Hid; by destruct (Hnone m Hm)|done].
  - assert (message ∈ filter (λ m, message_id m = messageId) (messages (db w)))
      as [Hid Hin]%list_elem_of_filter by (rewrite Hf; left).
    assert (Hsame : ∀ m, m ∈ messages (db w) → message_id m = messageId →
                         m = message).
    { intros m Hm Hm_id. apply (unique_key_inj message_id (messages (db w)));
        [done|done|done|congruence]. }
    assert (Hpresent : messageId ∈ message_id <$> messages (db w)).
    { rewrite <- Hid. by apply list_elem_of_fmap_2. }
    destruct (decide (sender_id message ≠ userId ∧ userRole ≠ "admin"))
      as [[Hs Hr]|Hallowed]; cbn [fst snd db tick with_db messages with_messages].
    + split; [split; [by intros [r ?]|]|].
      { intros (m & Hm & Hm_id & Hok). rewrite (Hsame m Hm Hm_id) in Hok.
        by destruct Hok. }
      split; [by intros [r ?]|]. split; [done|].
      split; [by intros ?|]. split; [done|done].
    + assert (sender_id message = userId ∨ userRole = "admin") as Hok.
      { destruct (decide (sender_id message = userId)); [by left|].
        destruct (decide (userRole = "admin")); [by right|].
        by destruct Hallowed. }
      split; [split; [intros _; by exists message|by eexists]|].
      split; [done|]. split; [intros Hno; by destruct (Hno {| deleted := true |})|].
      split; [by intros ?|]. split.
      * intros m Hm Hm_id Hs Hr. rewrite (Hsame m Hm Hm_id) in Hs.
        by destruct Hok.
      * intros m Hm. rewrite list_elem_of_filter. tauto.
Qed.

(** Property X21.  A party of an appointment who sends a message and then
    deletes it, by the id the message got, succeeds and leaves the messages
    as they were before; the id is not given out again, as the sequence
    stays advanced.  This needs the four queries answered, unique
    appointment ids, an existing patient and doctor, and the ids of the
    stored messages below the value of the sequence. *)
Theorem sendMessage_then_deleteMessage
    (a : appointment_row) (senderId : Z) (senderRole text : string)
    (w : world) :
  no_fault w 4 →
  NoDup (Schema.appointment_id <$> appointments (db w)) →
  a ∈ appointments (db w) →
  a_patient_id a ∈ Schema.patient_id <$> patients (db w) →
  a_doctor_id a ∈ Schema.doctor_id <$> doctors (db w) →
  is_party a senderId senderRole →
  (∀ m, m ∈ messages (db w) → message_id m < messages_message_id_seq (db w)) →
  let sent :=
    sendMessage (Schema.appointment_id a) senderId senderRole (Some text) w in
  let out :=
    deleteMessage (messages_message_id_seq (db w)) senderId senderRole sent.2 in
  out.1 = Returned {| deleted := true |} ∧
  messages (db out.2) = messages (db w) ∧
  messages_message_id_seq (db out.2) = messages_message_id_seq (db w) + 1.
Proof.
  intros Hnf Hkey Ha Hp Hd Hparty Hseq.
  assert (no_fault w 2) as Hnf2 by (intros k Hk; apply Hnf; lia).
  cbn zeta.
  rewrite (sendMessage_by_party a senderId senderRole (Some text) w
             Hnf2 Hkey Ha Hp Hd Hparty).
  cbn [snd]. rewrite deleteMessage_run.
  2:{ intros k Hk. cbn [faulty issued with_db tick].
      replace (S (S (issued w)) + k)%nat with (issued w + (2 + k))%nat by lia.
      apply Hnf. lia. }
  cbn [db with_db messages with_messages messages_message_id_seq].
  assert (Hold : ∀ P `{∀ m, Decision (P m)},
            (∀ m, m ∈ messages (db w) → ¬ P m) → filter P (messages (db w)) = []).
  { intros P ? HP. by apply filter_none. }
  rewrite filter_app, (Hold (λ m, message_id m = messages_message_id_seq (db w))).
  2:{ intros m Hm Hid. specialize (Hseq m Hm). lia. }
  rewrite (filter_singleton_True _ _ []) by done.
  cbn [app sender_id]. rewrite decide_False by (by intros [? _]).
  cbn [fst snd db with_db messages with_messages messages_message_id_seq].
  split; [done|]. split; [|done].
  rewrite filter_app, (filter_singleton_False _ _ []) by (by intros ?).
  rewrite app_nil_r. apply filter_all. intros m Hm. specialize (Hseq m Hm). lia.
Qed.

End ChatDelete.

(* --------------------------------------------------------------------- *)
(** *** Cache: deleting, expiry and strings *)

Section CacheKeys.
Import Cache.

Lemma prefixed_key_inj (k k' : string) : PREFIX +:+ k = PREFIX +:+ k' → k = k'.
Proof. unfold PREFIX. intros Heq. cbn in Heq. by simplify_eq. Qed.

Lemma redis_get_other (t0 t1 : Z) (k k' v : string) (ex : option Z)
    (store : gmap string redis_entry) :
  k' ≠ k → redis_get t1 k' (redis_set t0 k v ex store) = redis_get t1 k' store.
Proof. intros Hne. unfold redis_get, redis_set. by rewrite lookup_insert_ne. Qed.

(** Property X22.  After [delCache] of a key, [getCache] of that key is
    null, whatever was stored and at any time; and [delCache] and
    [setCache] of one key leave what [getCache] returns for every other key
    unchanged. *)
Theorem delCache_forgets_one_key `{JSON} (key key' : string) (v : json)
    (ttlSeconds : option Z) (store : gmap string redis_entry) (t0 t1 : Z) :
  getCache t1 key (delCache key store) = JNull ∧
  (key' ≠ key →
     getCache t1 key' (delCache key store) = getCache t1 key' store ∧
     getCache t1 key' (setCache t0 key v ttlSeconds store) =
     getCache t1 key' store).
Proof.
  split.
  - unfold getCache, delCache, redis_get, redis_del. by rewrite lookup_delete_eq.
  - intros Hne.
    assert (PREFIX +:+ key' ≠ PREFIX +:+ key) as Hk
      by (intros Heq; by apply Hne, prefixed_key_inj).
    split.
    + unfold getCache, delCache, redis_get, redis_del.
      by rewrite lookup_delete_ne.
    + unfold getCache, setCache.
      destruct (decide _); by rewrite redis_get_other.
Qed.

(** Property X23.  A value stored with a positive time to live (600
    seconds when none is given) is gone once that many seconds have passed:
    [getCache] returns null.  With a time to live of zero or less the value
    is stored without expiry, and [getCache] returns it at any time. *)
Theorem setCache_expiry `{JSON} (key : string) (v : json)
    (ttlSeconds : option Z) (store : gmap string redis_entry) (t0 t1 : Z) :
  let ttl := default 600 ttlSeconds in
  let text := match v with JString s => s | _ => JSON_stringify v end in
  (0 < ttl → t0 + ttl ≤ t1 →
     getCache t1 key (setCache t0 key v ttlSeconds store) = JNull) ∧
  (ttl ≤ 0 →
     getCache t1 key (setCache t0 key v ttlSeconds store) =
     match JSON_parse text with
     | Some parsed => parsed
     | None => JString text
     end).
Proof.
  intros ttl text. split.
  - intros Hpos Hlate. unfold getCache, setCache. fold ttl.
    rewrite decide_True by lia.
    unfold redis_get, redis_set. rewrite lookup_insert_eq.
    cbn [expires_at payload fmap option_fmap option_map].
    by rewrite decide_True by lia.
  - intros Hneg. apply getCache_setCache. fold ttl. lia.
Qed.

(** Property X24.  A string is stored as it is, without quotes, and read
    back through [JSON.parse]: while the entry is live, [getCache] returns
    the parsed value when the text of the string is JSON (the string 123
    comes back as the number 123), and the string itself only when it is
    not. *)
Theorem cache_string_is_reparsed `{JSON} (key s : string)
    (ttlSeconds : option Z) (store : gmap string redis_entry) (t0 t1 : Z) :
  (0 < default 600 ttlSeconds → t1 < t0 + default 600 ttlSeconds) →
  getCache t1 key (setCache t0 key (JString s) ttlSeconds store) =
  match JSON_parse s with
  | Some parsed => parsed
  | None => JString s
  end.
Proof. intros Hlive. by rewrite getCache_setCache. Qed.

Lemma cache_string_is_reparsed_witness :
  (0 < default 600 (Some 600) → 5 < 0 + default 600 (Some 600)) ∧
  getCache 5 "foo" (setCache 0 "foo" (JString "123") (Some 600) ∅) =
  JNumber 123.
Proof.
  assert (0 < default 600 (Some 600) → 5 < 0 + default 600 (Some 600))
    as Hlive by (cbn; lia).
  split; [exact Hlive|].
  rewrite (cache_string_is_reparsed "foo" "123" (Some 600) ∅ 0 5 Hlive).
  by vm_compute.
Defined.

End CacheKeys.

(* --------------------------------------------------------------------- *)
(** *** The properties at the example clinic *)

Ltac by_evaluation := apply (bool_decide_unpack _); vm_compute; exact I.

Section ClinicScores.
Import HealthIntelligence.

Lemma known_side_effects_listed_witness :
  no_fault Examples.clinic_server 2 ∧
  ∃ res,
    (detectAllergyRisks 2 Examples.clinic_server).1 = Returned res ∧
    NoDup (effect <$> knownSideEffects res) ∧
    (∀ e, e ∈ knownSideEffects res →
       alert_level e = "WARNING" ↔ kse_severity (effect e) = Some moderate).
Proof.
  assert (Hok : no_fault Examples.clinic_server 2) by (intros k _; reflexivity).
  split; [exact Hok|].
  destruct (known_side_effects_listed 2 Examples.clinic_server Hok)
    as (res & Hres & Hnodup & _ & _ & Hlevels).
  exists res. split; [exact Hres|]. split; [exact Hnodup|].
  intros e He. destruct (Hlevels e He) as (_ & Hwarning & _). exact Hwarning.
Defined.

End ClinicScores.

Section ClinicReport.
Import HealthIntelligence HealthReport.

Lemma generateRecommendations_order_witness :
  breakdown Examples.score_66 = Some Examples.breakdown_66 ∧
  ∃ recs,
    generateRecommendations Examples.patterns_1 Examples.risks_1
      Examples.score_66 = Returned recs ∧
    type <$> recs =
      ["ALLERGY_WARNING"; "CHRONIC_DISEASE"; "HIGH_RISK"; "HIGH_MEDICINE_USE"].
Proof.
  split; [reflexivity|].
  destruct (generateRecommendations_order Examples.patterns_1 Examples.risks_1
              Examples.score_66 Examples.breakdown_66 eq_refl)
    as (recs & Hrecs & _ & Htypes).
  exists recs. split; [exact Hrecs|].
  rewrite Htypes. vm_compute. reflexivity.
Defined.

End ClinicReport.

Section ClinicMedicines.
Import MedicineRepetition.

Lemma repetition_entries_witness :
  faulty Examples.clinic_server (issued Examples.clinic_server) = false ∧
  ∃ res,
    (detectMedicineRepetition 1 Examples.clinic_server).1 = Returned res ∧
    NoDup (medicine_name <$> res) ∧
    ∀ e, e ∈ res →
      3 ≤ prescription_count e ∧
      (risk_level e = "high" ↔ 4 < prescription_count e).
Proof.
  split; [reflexivity|].
  pose proof (repetition_entries 1 Examples.clinic_server eq_refl) as H.
  cbv zeta in H. destruct H as (res & Hres & Hnodup & _ & Hentries).
  exists res. split; [exact Hres|]. split; [exact Hnodup|].
  intros e He. destruct (Hentries e He) as (_ & Hmin & Hhigh & _).
  split; [exact Hmin|exact Hhigh].
Defined.

Lemma usage_stats_count_each_prescription_once_witness :
  NoDup (appointment_id <$> appointments (db Examples.clinic_server)) ∧
  ∃ stats,
    (getMedicineUsageStats 1 Examples.clinic_server).1 = Returned stats ∧
    total_prescriptions stats = 7 ∧
    0 ≤ total_unique_medicines stats ≤ total_prescriptions stats.
Proof.
  assert (Hids : NoDup (appointment_id <$> appointments (db Examples.clinic_server)))
    by by_evaluation.
  split; [exact Hids|].
  destruct (usage_stats_count_each_prescription_once 1 Examples.clinic_server
              eq_refl Hids) as (stats & Hstats & Htotal & Hunique & _).
  exists stats. split; [exact Hstats|]. split; [|exact Hunique].
  rewrite Htotal. vm_compute. reflexivity.
Defined.

End ClinicMedicines.

Section WardChat.
Import Chat.

Lemma ward_server_no_fault n : no_fault Examples.ward_server n.
Proof. intros k _. reflexivity. Qed.

Lemma ward_appointments :
  NoDup (Schema.appointment_id <$> appointments (db Examples.ward_server)).
Proof. by_evaluation. Qed.

Lemma ward_appointment_10 :
  Examples.appointment_10 ∈ appointments (db Examples.ward_server) ∧
  a_patient_id Examples.appointment_10 ∈
    Schema.patient_id <$> patients (db Examples.ward_server) ∧
  a_doctor_id Examples.appointment_10 ∈
    Schema.doctor_id <$> doctors (db Examples.ward_server).
Proof. repeat split; by_evaluation. Qed.

Lemma sendMessage_appends_one_unread_message_witness :
  is_party Examples.appointment_10 1 "patient" ∧
  ∃ new,
    (sendMessage 10 1 "patient" (Some "Hello") Examples.ward_server).1 =
      Returned {| success := true; sent := Some new |} ∧
    message_id new = 4 ∧ is_read new = false ∧
    (sendMessage 10 1 "patient" None Examples.ward_server).1 =
      Thrown (ConstraintViolation "messages_message_not_null").
Proof.
  assert (Hparty : is_party Examples.appointment_10 1 "patient")
    by (left; split; reflexivity).
  split; [exact Hparty|].
  destruct ward_appointment_10 as (Ha & Hp & Hd).
  pose proof (sendMessage_appends_one_unread_message Examples.appointment_10
                1 "patient" "Hello" Examples.ward_server
                (ward_server_no_fault 2) ward_appointments Ha Hp Hd Hparty)
    as H.
  cbv zeta in H.
  destruct H as (new & Hnew & _ & Hid & _ & _ & _ & _ & _ & Hread & _ & _ & Hnull).
  exists new. split; [exact Hnew|]. split; [exact Hid|].
  split; [exact Hread|exact Hnull].
Defined.

Lemma markMessagesAsRead_marks_the_other_side_witness :
  faulty Examples.ward_server (issued Examples.ward_server) = false ∧
  ∃ rows,
    (markMessagesAsRead 10 1 "patient" Examples.ward_server).1 = Returned rows ∧
    message_id <$> rows = [1] ∧
    Forall (λ m, is_read m = true) rows.
Proof.
  split; [reflexivity|].
  pose proof (markMessagesAsRead_marks_the_other_side 10 1 "patient"
                Examples.ward_server eq_refl) as H.
  cbv zeta in H. destruct H as ((rows & Hrows & Hids & Hread) & _).
  exists rows. split; [exact Hrows|]. split; [|exact Hread].
  rewrite Hids. vm_compute. reflexivity.
Defined.

Lemma unread_count_after_reading_witness :
  no_fault Examples.ward_server 2 ∧
  (getUnreadMessageCount 1 "patient" Examples.ward_server).1 = Returned 1 ∧
  (getUnreadMessageCount 1 "patient"
     (markMessagesAsRead 10 1 "patient" Examples.ward_server).2).1 = Returned 0.
Proof.
  split; [exact (ward_server_no_fault 2)|].
  split; [vm_compute; reflexivity|].
  pose proof (unread_count_after_reading 1 10 1 Examples.ward_server
                (ward_server_no_fault 2)) as H.
  cbv zeta in H. destruct H as (Hpatient & _).
  rewrite Hpatient. vm_compute. reflexivity.
Defined.

Lemma sendMessage_raises_unread_count_witness :
  is_party Examples.appointment_10 7 "doctor" ∧
  (getUnreadMessageCount 1 "patient" Examples.ward_server).1 = Returned 1 ∧
  (getUnreadMessageCount 1 "patient"
     (sendMessage 10 7 "doctor" (Some "See you on Monday")
        Examples.ward_server).2).1 = Returned 2.
Proof.
  assert (Hparty : is_party Examples.appointment_10 7 "doctor")
    by (right; split; reflexivity).
  split; [exact Hparty|].
  split; [vm_compute; reflexivity|].
  destruct ward_appointment_10 as (Ha & Hp & Hd).
  pose proof (sendMessage_raises_unread_count Examples.appointment_10
                7 "doctor" "See you on Monday" Examples.ward_server
                (ward_server_no_fault 3) ward_appointments Ha Hp Hd Hparty)
    as H.
  cbv zeta in H. destruct H as (Hdoctor & _).
  specialize (Hdoctor eq_refl).
  etransitivity; [exact Hdoctor|]. vm_compute. reflexivity.
Defined.

Lemma ward_messages :
  NoDup (message_id <$> messages (db Examples.ward_server)) ∧
  Forall (λ m, message_id m < messages_message_id_seq (db Examples.ward_server))
    (messages (db Examples.ward_server)).
Proof. split; by_evaluation. Qed.

Lemma deleteMessage_checks_the_sender_id_witness :
  NoDup (message_id <$> messages (db Examples.ward_server)) ∧
  (deleteMessage 1 1 "patient" Examples.ward_server).1 =
    Thrown (Error "Unauthorized: can only delete own messages") ∧
  db (deleteMessage 1 1 "patient" Examples.ward_server).2 =
    db Examples.ward_server.
Proof.
  destruct ward_messages as [Hids _].
  split; [exact Hids|].
  pose proof (deleteMessage_checks_the_sender_id 1 1 "patient"
                Examples.ward_server (ward_server_no_fault 2) Hids) as H.
  cbv zeta in H. destruct H as (_ & _ & Hkept & _ & Hother & _).
  assert (Hthrown : (deleteMessage 1 1 "patient" Examples.ward_server).1 =
                    Thrown (Error "Unauthorized: can only delete own messages")).
  { apply (Hother (Examples.chat_line 1 10 7 "doctor" "Your results are in" false)).
    - by_evaluation.
    - reflexivity.
    - discriminate.
    - discriminate. }
  split; [exact Hthrown|].
  apply Hkept. intros r Hr. rewrite Hthrown in Hr. discriminate.
Defined.

Lemma sendMessage_then_deleteMessage_witness :
  is_party Examples.appointment_10 1 "patient" ∧
  let sent := sendMessage 10 1 "patient" (Some "Hello") Examples.ward_server in
  let out := deleteMessage 4 1 "patient" sent.2 in
  out.1 = Returned {| deleted := true |} ∧
  messages (db out.2) = messages (db Examples.ward_server).
Proof.
  assert (Hparty : is_party Examples.appointment_10 1 "patient")
    by (left; split; reflexivity).
  split; [exact Hparty|].
  destruct ward_appointment_10 as (Ha & Hp & Hd).
  destruct ward_messages as [_ Hbelow].
  pose proof (sendMessage_then_deleteMessage Examples.appointment_10
                1 "patient" "Hello" Examples.ward_server
                (ward_server_no_fault 4) ward_appointments Ha Hp Hd Hparty
                (proj1 (Forall_forall _ _) Hbelow)) as H.
  cbv zeta in H. destruct H as (Hout & Hmessages & _).
  cbv zeta. split; [exact Hout|exact Hmessages].
Defined.

End WardChat.
